(** * Round 8 match payouts: the batched [setPayouts] submission

    A shallow embedding of the [set_payouts] / [set_payouts_test] branch of
    [Command.handle] in [app/grants/management/commands/round8_payouts.py]
    (lines 208-295): the chunking generator, the transaction arguments, the
    broadcast retry loop, the confirmation poll and the database update that
    follows the last chunk.

    The external collaborators (gas oracle, chain node) are scripted: the
    [k]-th call to a collaborator gets the [k]-th answer of the environment.
    The program is deterministic, so quantifying over all scripts covers
    every behaviour of the network.  Each call is recorded in an event
    trace, in program order. *)

From Stdlib Require Import String Ascii DecimalString.
From Stdlib Require Import ZArith QArith Bool Floats Lia List Sorted Permutation.
Import ListNotations.

Local Open Scope string_scope.
Local Open Scope list_scope.
Local Open Scope Z_scope.

(** ** Python built-ins used by the script *)

Module Py.

(** [range(start, stop, step)] for [step > 0]: the loop
    [i = start; while i < stop: yield i; i += step].  Each turn advances
    by at least one, so [stop - start] turns are enough. *)
Fixpoint range_loop (turns : nat) (i stop step : Z) : list Z :=
  match turns with
  | O => []
  | S turns' =>
      if i <? stop then i :: range_loop turns' (i + step) stop step else []
  end.

(** [range] raises [ValueError] for a zero step ([None]); a negative step
    with [start <= stop] gives the empty range. *)
Definition range (start stop step : Z) : option (list Z) :=
  if step =? 0 then None
  else if step <? 0 then
    (if stop <? start
     then Some (map (fun k => start + Z.of_nat k * step)
                    (seq 0 (Z.to_nat ((start - stop - step - 1) / (- step)))))
     else Some [])
  else Some (range_loop (Z.to_nat (stop - start)) start stop step).

(** [lst[i:j]] for [0 <= i]: indices past the end are clamped. *)
Definition slice {A : Type} (lst : list A) (i j : Z) : list A :=
  firstn (Z.to_nat (j - i)) (skipn (Z.to_nat i) lst).

(** [len(lst)] *)
Definition len {A : Type} (lst : list A) : Z := Z.of_nat (length lst).

(** [needle in hay] for two [str]: substring test. *)
Fixpoint contains (needle hay : string) : bool :=
  if String.prefix needle hay then true
  else match hay with
       | EmptyString => false
       | String _ rest => contains needle rest
       end.

(** [str(n)] for a non-negative [int]. *)
Definition str_of_nat (n : nat) : string :=
  NilEmpty.string_of_uint (Nat.to_uint n).

End Py.

(** ** Exceptions and outcomes *)

Inductive Exn : Type :=
| ValueError (msg : string)        (* range() step 0, int(nan) *)
| OverflowError (msg : string)     (* int(inf) *)
| BroadcastError (msg : string)    (* [raise e]: the node's error, [str(e) = msg] *)
| CannotSetMapping                 (* Exception('Cannot set mapping') *)
| NameError (var : string).        (* reading a local that was never bound *)

(** [OutOfFuel]: the loop was still running when the step budget ended. *)
Inductive Outcome (A : Type) : Type :=
| Done (a : A)
| Raised (e : Exn)
| OutOfFuel.
Arguments Done {A} a.
Arguments Raised {A} e.
Arguments OutOfFuel {A}.

(** ** The payout batcher (lines 222-227) *)

(** [def chunks(lst, n): for i in range(0, len(lst), n): yield lst[i:i + n]] *)
Definition chunks {A : Type} (lst : list A) (n : Z) : Outcome (list (list A)) :=
  match Py.range 0 (Py.len lst) n with
  | None => Raised (ValueError "range() arg 3 must not be zero")
  | Some idx => Done (map (fun i => Py.slice lst i (i + n)) idx)
  end.

(** ** Gas price (lines 237 and 257) *)

Module Gas.

(** The float literals [1.4] and [1.6]: the nearest binary64 values. *)
Definition mult_initial : float := 0x1.6666666666666p+0%float.
Definition mult_bumped : float := 0x1.999999999999ap+0%float.

(** [10**9] is an [int]; multiplied with a float it is converted, exactly. *)
Definition giga : float := 1e9%float.

(** [int(f)]: truncation toward zero; [ValueError] on NaN and
    [OverflowError] on an infinity. *)
Definition int_of_float (f : float) : Outcome Z :=
  match Prim2SF f with
  | S754_zero _ => Done 0
  | S754_finite s m e =>
      let mag := if 0 <=? e then Z.shiftl (Zpos m) e
                 else Z.shiftr (Zpos m) (- e) in
      Done (if s then - mag else mag)
  | S754_infinity _ =>
      Raised (OverflowError "cannot convert float infinity to integer")
  | S754_nan => Raised (ValueError "cannot convert float NaN to integer")
  end.

(** [int(float(recommend_min_gas_price_to_confirm_in_time(1)) * 10**9 * mult)],
    where [r] is the value of [float(recommend...(1))]. *)
Definition to_wei (r mult : float) : Outcome Z :=
  int_of_float (PrimFloat.mul (PrimFloat.mul r giga) mult).

End Gas.

Example to_wei_initial_1 : Gas.to_wei 1%float Gas.mult_initial = Done 1400000000.
Proof. reflexivity. Qed.

Example to_wei_bumped_1 : Gas.to_wei 1%float Gas.mult_bumped = Done 1600000000.
Proof. reflexivity. Qed.

Example chunks_5_2 : chunks [1; 2; 3; 4; 5] 2 = Done [[1; 2]; [3; 4]; [5]].
Proof. reflexivity. Qed.

(** ** Data model *)

(** [SCALE = Decimal(1e18)] and [WAIT_TIME_BETWEEN_TXS = 15] (lines 47-48). *)
Definition SCALE : Q := inject_Z (10 ^ 18).
Definition WAIT_TIME_BETWEEN_TXS : Z := 15.

(** The two messages the retry loop looks for (lines 252 and 260). *)
Definition UNDERPRICED : string := "replacement transaction underpriced".
Definition NONCE_TOO_LOW : string := "nonce too low".

(** [f'{cause}. retrying {counter}'] (lines 253 and 261). *)
Definition retry_line (cause : string) (counter : nat) : string :=
  (cause ++ ". retrying " ++ Py.str_of_nat counter)%string.

(** A row of [CLRMatch], with the fields this branch reads or writes;
    [admin_address] is [match.grant.admin_address]. *)
Record CLRMatch : Type := {
  pk : Z;
  admin_address : string;
  match_amount : Q;
  payout_tx : string;
  test_payout_tx : string
}.

(** One element of [full_payouts_mapping]. *)
Record PayoutEntry : Type := {
  recipient : string;
  amount : Q
}.

(** The dict [tx_args]. *)
Record TxArgs : Type := {
  nonce : Z;
  gas : Z;
  gasPrice : Z
}.

(** [match_payouts.functions.setPayouts(payout_mapping).buildTransaction(tx_args)]:
    a fresh dict, so later writes to [tx_args] do not reach it. *)
Record Transaction : Type := {
  args : TxArgs;
  payload : list PayoutEntry
}.

Definition buildTransaction (payout_mapping : list PayoutEntry)
    (tx_args : TxArgs) : Transaction :=
  {| args := tx_args; payload := payout_mapping |}.

(** [w3.eth.account.signTransaction(tx, from_pk)]; the key is a setting. *)
Record SignedTransaction : Type := { rawTransaction : Transaction }.

Definition signTransaction (tx : Transaction) : SignedTransaction :=
  {| rawTransaction := tx |}.

(** Answer of [sendRawTransaction(...).hex()]: the transaction id, or an
    exception [e] with [str(e) = msg]. *)
Inductive SendResult : Type :=
| Accepted (tx_id : string)
| Rejected (msg : string).

(** The scripted collaborators: answer number [k] of each. *)
Record Node : Type := {
  recommend_min_gas_price_to_confirm_in_time : nat -> float;
  getTransactionCount : nat -> Z;
  sendRawTransaction : nat -> SendResult;
  has_tx_mined : nat -> bool
}.

(** How many answers of each collaborator have been consumed. *)
Record Calls : Type := {
  gas_calls : nat;
  count_calls : nat;
  send_calls : nat;
  mined_calls : nat
}.

Definition no_calls : Calls :=
  {| gas_calls := 0; count_calls := 0; send_calls := 0; mined_calls := 0 |}.

Definition used_gas (c : Calls) : Calls :=
  {| gas_calls := S (gas_calls c); count_calls := count_calls c;
     send_calls := send_calls c; mined_calls := mined_calls c |}.
Definition used_count (c : Calls) : Calls :=
  {| gas_calls := gas_calls c; count_calls := S (count_calls c);
     send_calls := send_calls c; mined_calls := mined_calls c |}.
Definition used_send (c : Calls) : Calls :=
  {| gas_calls := gas_calls c; count_calls := count_calls c;
     send_calls := S (send_calls c); mined_calls := mined_calls c |}.
Definition used_mined (c : Calls) : Calls :=
  {| gas_calls := gas_calls c; count_calls := count_calls c;
     send_calls := send_calls c; mined_calls := S (mined_calls c) |}.

(** The observable actions, in program order.  [chunk] is the position of
    the chunk being processed in [chunked_payouts_mapping]. *)
Inductive Event : Type :=
| EvGetTransactionCount (answer : Z)
| EvRecommendGas (answer : float)
| EvSign (chunk : nat) (tx : Transaction)
| EvSend (chunk : nat) (signed : SignedTransaction) (res : SendResult)
| EvSleep (secs : Z)
| EvHasMined (chunk : nat) (tx_id : string) (mined : bool)
| EvPrint (line : string)
| EvMail (final : bool) (m : CLRMatch)
| EvSave (m : CLRMatch).

(** ** The effect monad: scripted calls, exceptions, a trace *)

Record Run (A : Type) : Type := {
  outcome : Outcome A;
  calls : Calls;
  trace : list Event
}.
Arguments outcome {A} r.
Arguments calls {A} r.
Arguments trace {A} r.

Definition M (A : Type) : Type := Calls -> Run A.

Definition ret {A : Type} (a : A) : M A :=
  fun c => {| outcome := Done a; calls := c; trace := [] |}.

Definition raise {A : Type} (e : Exn) : M A :=
  fun c => {| outcome := Raised e; calls := c; trace := [] |}.

Definition out_of_fuel {A : Type} : M A :=
  fun c => {| outcome := OutOfFuel; calls := c; trace := [] |}.

Definition bind {A B : Type} (m : M A) (k : A -> M B) : M B :=
  fun c =>
    let r := m c in
    match outcome r with
    | Done a =>
        let r' := k a (calls r) in
        {| outcome := outcome r'; calls := calls r';
           trace := trace r ++ trace r' |}
    | Raised e => {| outcome := Raised e; calls := calls r; trace := trace r |}
    | OutOfFuel => {| outcome := OutOfFuel; calls := calls r; trace := trace r |}
    end.

Definition lift {A : Type} (o : Outcome A) : M A :=
  fun c => {| outcome := o; calls := c; trace := [] |}.

Definition emit (e : Event) : M unit :=
  fun c => {| outcome := Done tt; calls := c; trace := [e] |}.

Declare Scope monad_scope.
Delimit Scope monad_scope with monad.
Notation "x <- m ;; k" := (bind m (fun x => k))
  (at level 61, m at next level, right associativity) : monad_scope.
Notation "m ;; k" := (bind m (fun _ => k))
  (at level 61, right associativity) : monad_scope.

Section Program.

Variable node : Node.

(** *** Calls to the collaborators *)

Definition recommend_gas : M float :=
  fun c =>
    let r := recommend_min_gas_price_to_confirm_in_time node (gas_calls c) in
    {| outcome := Done r; calls := used_gas c; trace := [EvRecommendGas r] |}.

Definition get_transaction_count : M Z :=
  fun c =>
    let n := getTransactionCount node (count_calls c) in
    {| outcome := Done n; calls := used_count c;
       trace := [EvGetTransactionCount n] |}.

Definition send_raw_transaction (chunk : nat) (signed : SignedTransaction)
    : M SendResult :=
  fun c =>
    let res := sendRawTransaction node (send_calls c) in
    {| outcome := Done res; calls := used_send c;
       trace := [EvSend chunk signed res] |}.

Definition poll_mined (chunk : nat) (tx_id : string) : M bool :=
  fun c =>
    let b := has_tx_mined node (mined_calls c) in
    {| outcome := Done b; calls := used_mined c;
       trace := [EvHasMined chunk tx_id b] |}.

Definition sleep (secs : Z) : M unit := emit (EvSleep secs).
Definition print (line : string) : M unit := emit (EvPrint line).

(** [build + sign] (lines 240-241, 258-259, 266-267). *)
Definition build_and_sign (chunk : nat) (payout_mapping : list PayoutEntry)
    (tx_args : TxArgs) : M SignedTransaction :=
  let tx := buildTransaction payout_mapping tx_args in
  (emit (EvSign chunk tx) ;; ret (signTransaction tx))%monad.

(** [int(float(recommend_min_gas_price_to_confirm_in_time(1)) * 10**9 * mult)] *)
Definition fetch_gas_price (mult : float) : M Z :=
  (r <- recommend_gas ;; lift (Gas.to_wei r mult))%monad.

(** *** The broadcast retry loop (lines 243-269)

    [while not success]: one turn per unit of fuel.  The loop variables are
    [tx_args], [signed] and [counter]; [tx_id] is the result. *)
Fixpoint broadcast_loop (fuel : nat) (chunk : nat)
    (payout_mapping : list PayoutEntry) (tx_args : TxArgs)
    (signed : SignedTransaction) (counter : nat) : M string :=
  match fuel with
  | O => out_of_fuel
  | S fuel' =>
      (res <- send_raw_transaction chunk signed ;;
       match res with
       | Accepted tx_id => ret tx_id
       | Rejected msg =>
           let counter := S counter in
           if Py.contains UNDERPRICED msg then
             print (retry_line UNDERPRICED counter) ;;
             sleep WAIT_TIME_BETWEEN_TXS ;;
             price <- fetch_gas_price Gas.mult_bumped ;;
             let tx_args :=
               {| nonce := nonce tx_args; gas := gas tx_args;
                  gasPrice := price |} in
             signed <- build_and_sign chunk payout_mapping tx_args ;;
             broadcast_loop fuel' chunk payout_mapping tx_args signed counter
           else if Py.contains NONCE_TOO_LOW msg then
             print (retry_line NONCE_TOO_LOW counter) ;;
             sleep WAIT_TIME_BETWEEN_TXS ;;
             n <- get_transaction_count ;;
             let tx_args :=
               {| nonce := n; gas := gas tx_args;
                  gasPrice := gasPrice tx_args |} in
             signed <- build_and_sign chunk payout_mapping tx_args ;;
             broadcast_loop fuel' chunk payout_mapping tx_args signed counter
           else raise (BroadcastError msg)
       end)%monad
  end.

(** *** The confirmation poll (lines 276-277) *)
Fixpoint wait_mined (fuel : nat) (chunk : nat) (tx_id : string) : M unit :=
  match fuel with
  | O => out_of_fuel
  | S fuel' =>
      (mined <- poll_mined chunk tx_id ;;
       if mined then ret tt
       else sleep 1 ;; wait_mined fuel' chunk tx_id)%monad
  end.

(** *** One turn of [for payout_mapping in chunked_payouts_mapping]
    (lines 233-282); the result is [tx_id]. *)
Definition set_chunk (fuel : nat) (chunk : nat)
    (payout_mapping : list PayoutEntry) : M string :=
  (n <- get_transaction_count ;;
   price <- fetch_gas_price Gas.mult_initial ;;
   let tx_args := {| nonce := n; gas := 8000000; gasPrice := price |} in
   signed <- build_and_sign chunk payout_mapping tx_args ;;
   tx_id <- broadcast_loop fuel chunk payout_mapping tx_args signed 0 ;;
   if String.eqb tx_id "" then raise CannotSetMapping
   else
     wait_mined fuel chunk tx_id ;;
     print "SLEEPING" ;;
     sleep WAIT_TIME_BETWEEN_TXS ;;
     print "DONE SLEEPING" ;;
     ret tx_id)%monad.

(** The [for] loop; [tx_id] is [None] until a first chunk has bound it. *)
Fixpoint for_chunks (fuel : nat) (chunk : nat)
    (chunked : list (list PayoutEntry)) (tx_id : option string)
    : M (option string) :=
  match chunked with
  | [] => ret tx_id
  | payout_mapping :: rest =>
      (t <- set_chunk fuel chunk payout_mapping ;;
       for_chunks fuel (S chunk) rest (Some t))%monad
  end.

(** *** The database update (lines 285-295) *)

Definition with_tx (is_real_payout : bool) (tx_id : string) (m : CLRMatch)
    : CLRMatch :=
  if is_real_payout then
    {| pk := pk m; admin_address := admin_address m;
       match_amount := match_amount m;
       payout_tx := tx_id; test_payout_tx := test_payout_tx m |}
  else
    {| pk := pk m; admin_address := admin_address m;
       match_amount := match_amount m;
       payout_tx := payout_tx m; test_payout_tx := tx_id |}.

Fixpoint update_database (is_real_payout : bool) (tx_id : option string)
    (matches : list CLRMatch) : M unit :=
  match matches with
  | [] => ret tt
  | m :: rest =>
      match tx_id with
      | None => raise (NameError "tx_id")
      | Some t =>
          (let m' := with_tx is_real_payout t m in
           emit (EvMail is_real_payout m') ;;
           emit (EvSave m') ;;
           update_database is_real_payout tx_id rest)%monad
      end
  end.

(** *** The branch as a whole (lines 208-295)

    [unpaid] is the result of [unpaid_scheduled_matches.order_by('amount')];
    the script reads it at line 210 and again at line 285, and writes no
    row in between. *)
Definition full_payouts_mapping (unpaid : list CLRMatch) : list PayoutEntry :=
  map (fun m => {| recipient := admin_address m;
                   amount := Qmult (match_amount m) SCALE |}) unpaid.

Definition set_payouts (fuel : nat) (is_real_payout : bool)
    (unpaid : list CLRMatch) : M unit :=
  (chunked_payouts_mapping <- lift (chunks (full_payouts_mapping unpaid) 120) ;;
   tx_id <- for_chunks fuel 0 chunked_payouts_mapping None ;;
   update_database is_real_payout tx_id unpaid)%monad.

End Program.

(** ** Vocabulary for statements about traces *)

(** The outcome of a run without its value. *)
Inductive Status : Type :=
| Completed
| Failed (e : Exn)
| Diverging.

Definition status {A : Type} (o : Outcome A) : Status :=
  match o with
  | Done _ => Completed
  | Raised e => Failed e
  | OutOfFuel => Diverging
  end.

(** [prepend evs r]: the run [r] with [evs] in front of its trace. *)
Definition prepend {A : Type} (evs : list Event) (r : Run A) : Run A :=
  {| outcome := outcome r; calls := calls r; trace := evs ++ trace r |}.

(** A window looks at a suffix of the trace (an event and what follows it)
    and at how the run ended. *)
Definition Window : Type := list Event -> Status -> Prop.

Fixpoint every_suffix (W : Window) (T : list Event) (st : Status) : Prop :=
  W T st /\ match T with
            | [] => True
            | _ :: T' => every_suffix W T' st
            end.

Definition obeys {A : Type} (W : Window) (r : Run A) : Prop :=
  every_suffix W (trace r) (status (outcome r)).

(** A window that keeps holding when the run goes on after it. *)
Definition extensible (W : Window) : Prop :=
  forall e B st more st',
    W (e :: B) st ->
    (st <> Completed -> more = [] /\ st' = st) ->
    W (e :: B ++ more) st'.

(** The transaction rebuilt from the signed one after a failure. *)
Definition repriced (s : SignedTransaction) (price : Z) : Transaction :=
  let tx := rawTransaction s in
  buildTransaction (payload tx)
    {| nonce := nonce (args tx); gas := gas (args tx); gasPrice := price |}.

Definition renonced (s : SignedTransaction) (n : Z) : Transaction :=
  let tx := rawTransaction s in
  buildTransaction (payload tx)
    {| nonce := n; gas := gas (args tx); gasPrice := gasPrice (args tx) |}.

(** After a rebuild the loop is back at [sendRawTransaction] with the new
    signed transaction, unless the step budget ended right there. *)
Definition resumes (chunk : nat) (s : SignedTransaction) (B : list Event)
    (st : Status) : Prop :=
  (B = [] /\ st = Diverging) \/ exists res B', B = EvSend chunk s res :: B'.

(** Events that are not a rejected broadcast put no demand on what follows. *)
Definition not_rejection (e : Event) : Prop :=
  match e with
  | EvSend _ _ (Rejected _) => False
  | _ => True
  end.

(** What follows a rejected broadcast. *)
Definition after_rejection : Window := fun T st =>
  match T with
  | EvSend chunk s (Rejected msg) :: B =>
      if Py.contains UNDERPRICED msg then
        exists counter r B1,
          B = EvPrint (retry_line UNDERPRICED counter)
                :: EvSleep WAIT_TIME_BETWEEN_TXS :: EvRecommendGas r :: B1
          /\ match Gas.to_wei r Gas.mult_bumped with
             | Done price =>
                 exists B2,
                   B1 = EvSign chunk (repriced s price) :: B2
                   /\ resumes chunk (signTransaction (repriced s price)) B2 st
             | Raised e => B1 = [] /\ st = Failed e
             | OutOfFuel => False
             end
      else if Py.contains NONCE_TOO_LOW msg then
        exists counter n B2,
          B = EvPrint (retry_line NONCE_TOO_LOW counter)
                :: EvSleep WAIT_TIME_BETWEEN_TXS :: EvGetTransactionCount n
                :: EvSign chunk (renonced s n) :: B2
          /\ resumes chunk (signTransaction (renonced s n)) B2 st
      else B = [] /\ st = Failed (BroadcastError msg)
  | _ => True
  end.

(** The chunk an event belongs to, for the events that name one. *)
Definition chunk_of (e : Event) : option nat :=
  match e with
  | EvSign i _ | EvSend i _ _ | EvHasMined i _ _ => Some i
  | _ => None
  end.

(** What every event of the cycle of chunk number [chunk], with payload
    [pm], satisfies. *)
Definition in_cycle (chunk : nat) (pm : list PayoutEntry) (e : Event) : Prop :=
  match e with
  | EvSign j tx =>
      j = chunk /\ payload tx = pm /\ gas (args tx) = 8000000
  | EvSend j s _ =>
      j = chunk /\ payload (rawTransaction s) = pm
      /\ gas (args (rawTransaction s)) = 8000000
  | EvHasMined j _ _ => j = chunk
  | EvMail _ _ | EvSave _ => False
  | _ => True
  end.

Definition is_send (e : Event) : Prop :=
  match e with
  | EvSend _ _ _ => True
  | _ => False
  end.

(** The four events that close the cycle of a confirmed chunk
    (lines 276-282). *)
Definition confirmed_tail (chunk : nat) (tx_id : string) : list Event :=
  [EvHasMined chunk tx_id true; EvPrint "SLEEPING";
   EvSleep WAIT_TIME_BETWEEN_TXS; EvPrint "DONE SLEEPING"].

(** What follows a fetch of the transaction count: the re-sign of a
    rebuild, or (first fetch of a cycle) the oracle's recommendation and
    then the initial build. *)
Definition after_count : Window := fun T st =>
  match T with
  | EvGetTransactionCount n :: B =>
      (exists chunk tx B', B = EvSign chunk tx :: B')
      \/ (exists r B1,
            B = EvRecommendGas r :: B1
            /\ match Gas.to_wei r Gas.mult_initial with
               | Done price =>
                   exists chunk pm B2,
                     B1 = EvSign chunk
                            (buildTransaction pm
                               {| nonce := n; gas := 8000000;
                                  gasPrice := price |}) :: B2
               | Raised e => B1 = [] /\ st = Failed e
               | OutOfFuel => False
               end)
  | _ => True
  end.

Definition is_count (e : Event) : Prop :=
  match e with
  | EvGetTransactionCount _ => True
  | _ => False
  end.

(** The answers of [getTransactionCount] in a trace, in order. *)
Fixpoint fetched_counts (T : list Event) : list Z :=
  match T with
  | [] => []
  | EvGetTransactionCount n :: T' => n :: fetched_counts T'
  | _ :: T' => fetched_counts T'
  end.

(** The run [r], started with the counters [c], consumed [k] answers of
    [getTransactionCount] and its trace shows exactly these. *)
Definition count_faithful {A : Type} (node : Node) (c : Calls) (r : Run A)
    : Prop :=
  exists k,
    count_calls (calls r) = (count_calls c + k)%nat
    /\ fetched_counts (trace r)
       = map (getTransactionCount node) (seq (count_calls c) k).

(** With a steady recommendation, the two prices a transaction can carry. *)
Definition priced (r : float) (p0 p1 : Z) (e : Event) : Prop :=
  match e with
  | EvRecommendGas r' => r' = r
  | EvSign _ tx => gasPrice (args tx) = p0 \/ gasPrice (args tx) = p1
  | EvSend _ s _ =>
      gasPrice (args (rawTransaction s)) = p0
      \/ gasPrice (args (rawTransaction s)) = p1
  | _ => True
  end.


(** ** Concrete scenarios *)

Module Scenario.

Definition grant (k : Z) : CLRMatch :=
  {| pk := k; admin_address := "0xA11CE"; match_amount := inject_Z k;
     payout_tx := ""; test_payout_tx := "" |}.

(** 121 unpaid matches: two chunks, of 120 and of 1. *)
Definition batch_121 : list CLRMatch :=
  map (fun k => grant (Z.of_nat k)) (seq 1 121).

(** A steady oracle and a node that accepts every broadcast at once. *)
Definition calm : Node :=
  {| recommend_min_gas_price_to_confirm_in_time := fun _ => 1%float;
     getTransactionCount := fun k => 7 + Z.of_nat k;
     sendRawTransaction := fun k =>
       match k with O => Accepted "0xaaa" | _ => Accepted "0xbbb" end;
     has_tx_mined := fun _ => true |}.

(** Three rejections as underpriced, then acceptance; the oracle's
    recommendation is steady at first and halves before the last rebuild. *)
Definition congested : Node :=
  {| recommend_min_gas_price_to_confirm_in_time := fun k =>
       match k with
       | 0%nat | 1%nat | 2%nat => 1%float
       | _ => 0.5%float
       end;
     getTransactionCount := fun k => 7 + Z.of_nat k;
     sendRawTransaction := fun k =>
       match k with
       | 0%nat | 1%nat | 2%nat => Rejected "replacement transaction underpriced"
       | _ => Accepted "0xabc"
       end;
     has_tx_mined := fun _ => true |}.

(** Two rejections as underpriced, then acceptance, under a steady
    recommendation. *)
Definition underpriced_twice : Node :=
  {| recommend_min_gas_price_to_confirm_in_time := fun _ => 1%float;
     getTransactionCount := fun k => 7 + Z.of_nat k;
     sendRawTransaction := fun k =>
       match k with
       | 0%nat | 1%nat => Rejected "replacement transaction underpriced"
       | _ => Accepted "0xabc"
       end;
     has_tx_mined := fun _ => true |}.

(** One rejection whose message names both causes, then acceptance. *)
Definition both_causes : Node :=
  {| recommend_min_gas_price_to_confirm_in_time := fun _ => 1%float;
     getTransactionCount := fun k => 7 + Z.of_nat k;
     sendRawTransaction := fun k =>
       match k with
       | 0%nat =>
           Rejected "nonce too low; replacement transaction underpriced"
       | _ => Accepted "0xabc"
       end;
     has_tx_mined := fun _ => true |}.

(** One stale-nonce rejection, then acceptance. *)
Definition stale_nonce : Node :=
  {| recommend_min_gas_price_to_confirm_in_time := fun _ => 1%float;
     getTransactionCount := fun k => 7 + Z.of_nat k;
     sendRawTransaction := fun k =>
       match k with
       | 0%nat => Rejected "nonce too low"
       | _ => Accepted "0xabc"
       end;
     has_tx_mined := fun _ => true |}.

(** A rejection the loop does not know. *)
Definition broke : Node :=
  {| recommend_min_gas_price_to_confirm_in_time := fun _ => 1%float;
     getTransactionCount := fun k => 7 + Z.of_nat k;
     sendRawTransaction := fun _ => Rejected "insufficient funds";
     has_tx_mined := fun _ => true |}.

End Scenario.

(** ** Prices in exact arithmetic *)

(** The value of a finite float, as a fraction. *)
Definition float_value (f : float) : option Q :=
  match Prim2SF f with
  | S754_zero _ => Some 0%Q
  | S754_finite s m e =>
      let z := if s then Zneg m else Zpos m in
      Some (if 0 <=? e then inject_Z (z * 2 ^ e)
            else Qmake z (Z.to_pos (2 ^ (- e))))
  | S754_infinity _ | S754_nan => None
  end.

(** The price in the specification's words: the recommended price times
    [10^9] times the multiplier, truncated to an integer, with the
    products taken exactly. *)
Definition exact_to_wei (r mult : Q) : Z :=
  let q := Qmult (Qmult r (inject_Z (10 ^ 9))) mult in
  Z.quot (Qnum q) (Zpos (Qden q)).

(** Two more oracles. *)
Module Prices.

(** The oracle recommends 2.7 gwei (the nearest float); the node accepts
    every broadcast. *)
Definition fractional : Node :=
  {| recommend_min_gas_price_to_confirm_in_time := fun _ =>
       0x1.599999999999ap+1%float;
     getTransactionCount := fun k => 7 + Z.of_nat k;
     sendRawTransaction := fun _ => Accepted "0xabc";
     has_tx_mined := fun _ => true |}.


End Prices.

(** ** Further vocabulary *)

(** What the for-body does once the retry loop has returned [tx_id]
    (lines 271-282). *)
Definition confirm (node : Node) (fuel : nat) (chunk : nat) (tx_id : string)
    : M string :=
  if String.eqb tx_id "" then raise CannotSetMapping
  else
    (wait_mined node fuel chunk tx_id ;;
     print "SLEEPING" ;;
     sleep WAIT_TIME_BETWEEN_TXS ;;
     print "DONE SLEEPING" ;;
     ret tx_id)%monad.

(** What follows an accepted broadcast: the first poll for its id; with an
    empty id, nothing. *)
Definition after_accept : Window := fun T st =>
  match T with
  | EvSend chunk s (Accepted tx_id) :: B =>
      if String.eqb tx_id "" then B = [] /\ st = Failed CannotSetMapping
      else (B = [] /\ st = Diverging)
           \/ exists mined B', B = EvHasMined chunk tx_id mined :: B'
  | _ => True
  end.

(** What follows a signature: the broadcast of the transaction signed. *)
Definition after_sign : Window := fun T st =>
  match T with
  | EvSign chunk tx :: B => resumes chunk (signTransaction tx) B st
  | _ => True
  end.

(** The payloads of the accepted broadcasts, in order. *)
Fixpoint accepted_payloads (T : list Event) : list (list PayoutEntry) :=
  match T with
  | [] => []
  | EvSend _ s (Accepted _) :: T' =>
      payload (rawTransaction s) :: accepted_payloads T'
  | _ :: T' => accepted_payloads T'
  end.

(** Writes to the database. *)
Definition is_db_write (e : Event) : Prop :=
  match e with
  | EvMail _ _ | EvSave _ => True
  | _ => False
  end.

(** [k] turns of the poll that found the transaction not yet mined. *)
Fixpoint pending_polls (chunk : nat) (tx_id : string) (k : nat) : list Event :=
  match k with
  | O => []
  | S k' => EvHasMined chunk tx_id false :: EvSleep 1
              :: pending_polls chunk tx_id k'
  end.

(** ** More concrete scenarios *)

Module Cases.

(** The transaction is reported mined at the third poll. *)
Definition slow_block : Node :=
  {| recommend_min_gas_price_to_confirm_in_time := fun _ => 1%float;
     getTransactionCount := fun k => 7 + Z.of_nat k;
     sendRawTransaction := fun _ => Accepted "0xabc";
     has_tx_mined := fun k => Nat.eqb k 2 |}.

(** The transaction is never reported mined. *)
Definition never_mined : Node :=
  {| recommend_min_gas_price_to_confirm_in_time := fun _ => 1%float;
     getTransactionCount := fun k => 7 + Z.of_nat k;
     sendRawTransaction := fun _ => Accepted "0xabc";
     has_tx_mined := fun _ => false |}.

End Cases.

(** ** The command around the payout: arguments, branches, match rows *)

Module Command.

(** The exceptions [handle] raises outside the payout loop. *)
Inductive Error : Type :=
| InvalidWhat (what : string)                  (* line 88 *)
| InvalidNetwork (network : string)            (* line 90 *)
| MissingRoundOrPks                            (* line 108 *)
| QueryRaised (msg : string)                   (* lines 116-122 *)
| NetworkMismatch (network what : string)      (* lines 175, 177 *)
| PayoutSetTwice (recipient : string) (block : Z)   (* line 389 *)
| TotalMismatch.                               (* line 408 *)

(** [options]: [what] and [network] are positional strings, [--clr_pks] a
    string and [--clr_round] an int, both [None] by default (lines 54-77). *)
Record Options : Type := {
  what : string;
  network : string;
  clr_pks : option string;
  clr_round : option Z
}.

Definition valid_whats : list string :=
  ["finalize"; "payout_test"; "prepare_final_payout"; "verify";
   "set_payouts_test"; "set_payouts"].

(** [s in lst] for a list of [str]. *)
Definition str_in (s : string) (lst : list string) : bool :=
  existsb (String.eqb s) lst.

(** [not x] for an optional int; an optional string is falsy when it is
    [None] or empty. *)
Definition not_int (x : option Z) : bool :=
  match x with
  | None => true
  | Some z => z =? 0
  end.

(** [s.split(sep)] for a separator of one character (line 112). *)
Fixpoint split (sep : ascii) (s : string) : list string :=
  match s with
  | EmptyString => [EmptyString]
  | String ch rest =>
      if Ascii.eqb ch sep then EmptyString :: split sep rest
      else
        match split sep rest with
        | piece :: pieces => String ch piece :: pieces
        | [] => [String ch EmptyString]
        end
  end.

(** The database as lines 116-122 meet it: the exception that
    [GrantCLR.objects.filter(pk__in=clr_pks)] and the queries made from
    its result raise for the list [clr_pks], if any.  The ORM raises
    [ValueError] for a key that is no number. *)
Definition Database : Type := list string -> option string.

(** The branch of [handle] that runs. *)
Inductive Branch : Type :=
| Finalize
| PrepareFinalPayout
| SetPayouts (is_real_payout : bool)
| NoBranch
| Verify.

(** The checks of [handle] (lines 83-90, 105-122, 125, 156, 170-177,
    363), in the order they are made. *)
Definition dispatch (db : Database) (options : Options) : Error + Branch :=
  let what := what options in
  let network := network options in
  if negb (str_in what valid_whats) then inl (InvalidWhat what)
  else if negb (str_in network ["rinkeby"; "mainnet"]) then
    inl (InvalidNetwork network)
  else if negb (String.eqb what "verify") then
    match clr_pks options with
    | None => inl MissingRoundOrPks
    | Some pks =>
        if not_int (clr_round options) || String.eqb pks "" then
          inl MissingRoundOrPks
        else
          let clr_pks := split "," pks in
          match db clr_pks with
          | Some msg => inl (QueryRaised msg)
          | None =>
              if String.eqb what "finalize" then inr Finalize
              else if str_in what ["prepare_final_payout"] then
                inr PrepareFinalPayout
              else if str_in what ["set_payouts_test"; "set_payouts"] then
                let is_real_payout := String.eqb what "set_payouts" in
                if String.eqb network "rinkeby" && is_real_payout then
                  inl (NetworkMismatch network what)
                else if String.eqb network "mainnet" && negb is_real_payout
                then inl (NetworkMismatch network what)
                else inr (SetPayouts is_real_payout)
              else inr NoBranch
          end
    end
  else inr Verify.

(** Parameters that vary by network (lines 93-95). *)
Definition from_block (network : string) : Z :=
  if String.eqb network "mainnet" then 11466409 else 7731622.

Definition expected_total_dai_amount (network : string) : Z :=
  if String.eqb network "mainnet" then 100000 else 5000.

(** *** Match rows and the three querysets of the payout branch *)

(** A row of the round: the fields of [CLRMatch] used above, and the two
    readiness flags. *)
Record ScheduledMatch : Type := {
  fields : CLRMatch;
  ready_for_test_payout : bool;
  ready_for_payout : bool
}.

(** [key] and [key2] (lines 181, 186), as the field they name. *)
Definition key (is_real_payout : bool) (sm : ScheduledMatch) : bool :=
  if is_real_payout then ready_for_payout sm else ready_for_test_payout sm.

Definition key2 (is_real_payout : bool) (m : CLRMatch) : string :=
  if is_real_payout then payout_tx m else test_payout_tx m.

(** Lines 183, 188 and 189. *)
Definition not_ready_scheduled_matches (is_real_payout : bool)
    (scheduled_matches : list ScheduledMatch) : list ScheduledMatch :=
  filter (fun sm => negb (key is_real_payout sm)) scheduled_matches.

Definition unpaid_scheduled_matches (is_real_payout : bool)
    (scheduled_matches : list ScheduledMatch) : list ScheduledMatch :=
  filter (fun sm => String.eqb (key2 is_real_payout (fields sm)) "")
    (filter (key is_real_payout) scheduled_matches).

Definition paid_scheduled_matches (is_real_payout : bool)
    (scheduled_matches : list ScheduledMatch) : list ScheduledMatch :=
  filter (fun sm => negb (String.eqb (key2 is_real_payout (fields sm)) ""))
    (filter (key is_real_payout) scheduled_matches).

(** [.order_by('amount')]: ascending amounts; rows with equal amounts are
    kept in the order of the queryset. *)
Fixpoint insert_by_amount (sm : ScheduledMatch) (sorted : list ScheduledMatch)
    : list ScheduledMatch :=
  match sorted with
  | [] => [sm]
  | x :: rest =>
      if Qle_bool (match_amount (fields x)) (match_amount (fields sm))
      then x :: insert_by_amount sm rest
      else sm :: x :: rest
  end.

Definition order_by_amount (rows : list ScheduledMatch) : list ScheduledMatch :=
  fold_right insert_by_amount [] (rev rows).

(** [match.save()]: the row with the primary key of [m] takes the fields of
    [m]. *)
Definition save_fields (m : CLRMatch) (table : list ScheduledMatch)
    : list ScheduledMatch :=
  map (fun row =>
         if pk (fields row) =? pk m then
           {| fields := m;
              ready_for_test_payout := ready_for_test_payout row;
              ready_for_payout := ready_for_payout row |}
         else row) table.

(** The table after the saves of a trace. *)
Fixpoint database_after (T : list Event) (table : list ScheduledMatch)
    : list ScheduledMatch :=
  match T with
  | [] => table
  | EvSave m :: T' => database_after T' (save_fields m table)
  | _ :: T' => database_after T' table
  end.

(** The batch the payout branch works on (lines 188, 210, 285). *)
Definition unpaid_batch (is_real_payout : bool)
    (scheduled_matches : list ScheduledMatch) : list CLRMatch :=
  map fields
    (order_by_amount (unpaid_scheduled_matches is_real_payout scheduled_matches)).

(** *** [prepare_final_payout] (lines 156-167) *)

Definition promoted (sm : ScheduledMatch) : ScheduledMatch :=
  {| fields := fields sm;
     ready_for_test_payout := ready_for_test_payout sm;
     ready_for_payout := true |}.

(** [match.save()] for a row whose flags were changed. *)
Definition save_row (m : ScheduledMatch) (table : list ScheduledMatch)
    : list ScheduledMatch :=
  map (fun row => if pk (fields row) =? pk (fields m) then m else row) table.

Definition payout_matches (scheduled_matches : list ScheduledMatch)
    : list ScheduledMatch :=
  filter (fun sm => negb (ready_for_payout sm))
    (filter (fun sm => negb (String.eqb (test_payout_tx (fields sm)) ""))
       scheduled_matches).

Definition prepare_final_payout (user_input : string)
    (scheduled_matches : list ScheduledMatch) : list ScheduledMatch :=
  if negb (String.eqb user_input "y") then scheduled_matches
  else
    fold_left (fun table m => save_row (promoted m) table)
      (payout_matches scheduled_matches) scheduled_matches.

End Command.

(** A scripted database that raises for a key with a character other than
    a digit, and for an empty key. *)
Definition is_digit (ch : ascii) : bool :=
  (48 <=? N_of_ascii ch)%N && (N_of_ascii ch <=? 57)%N.

Fixpoint all_digits (s : string) : bool :=
  match s with
  | EmptyString => true
  | String ch rest => is_digit ch && all_digits rest
  end.

Definition numeric_keys : Command.Database := fun clr_pks =>
  if forallb (fun k => negb (String.eqb k "") && all_digits k) clr_pks
  then None
  else Some "ValueError: Field 'id' expected a number".

(** The primary key of a row, and the rows [prepare_final_payout] is to
    promote. *)
Definition row_pk (sm : Command.ScheduledMatch) : Z := pk (Command.fields sm).

Definition to_promote (sm : Command.ScheduledMatch) : bool :=
  negb (String.eqb (test_payout_tx (Command.fields sm)) "")
  && negb (Command.ready_for_payout sm).

Module Rows.

Definition match_row (k : Z) (test_tx tx : string) (ready_test ready : bool)
    : Command.ScheduledMatch :=
  {| Command.fields :=
       {| pk := k; admin_address := "0xA11CE"; match_amount := inject_Z k;
          payout_tx := tx; test_payout_tx := test_tx |};
     Command.ready_for_test_payout := ready_test;
     Command.ready_for_payout := ready |}.

(** A round in mid-course: row 1 waits for KYC, row 2 is ready for its
    test payout, row 3 has had its test payout, row 4 has had both. *)
Definition round : list Command.ScheduledMatch :=
  [ match_row 1 "" "" false false;
    match_row 2 "" "" true false;
    match_row 3 "0xtest" "" true false;
    match_row 4 "0xtest" "0xreal" true true ].

End Rows.

(** ** The [verify] branch (lines 363-433) *)

Module Verify.

(** A [PayoutAdded] event log: [log['args']['recipient']],
    [log['args']['amount']] (a uint256) and [log['blockNumber']]. *)
Record PayoutAdded : Type := {
  log_recipient : string;
  log_amount : Z;
  blockNumber : Z
}.

(** [sorted(payout_added_logs, key=lambda log: log['blockNumber'])]:
    ascending block numbers; [sorted] is stable, so logs of one block keep
    their order.  Each log is put behind the logs whose key is not
    greater. *)
Fixpoint insert_log (log : PayoutAdded) (sorted : list PayoutAdded)
    : list PayoutAdded :=
  match sorted with
  | [] => [log]
  | x :: rest =>
      if blockNumber x <=? blockNumber log then x :: insert_log log rest
      else log :: x :: rest
  end.

Definition sorted_by_block (logs : list PayoutAdded) : list PayoutAdded :=
  fold_left (fun sorted log => insert_log log sorted) logs [].

(** A [dict] with [str] keys: the items in insertion order; assigning to a
    key that is present keeps its place. *)
Definition dict (V : Type) : Type := list (string * V).

Fixpoint dict_get {V : Type} (k : string) (d : dict V) : option V :=
  match d with
  | [] => None
  | (k', v) :: rest => if String.eqb k' k then Some v else dict_get k rest
  end.

Fixpoint dict_set {V : Type} (k : string) (v : V) (d : dict V) : dict V :=
  match d with
  | [] => [(k, v)]
  | (k', v') :: rest =>
      if String.eqb k' k then (k, v) :: rest
      else (k', v') :: dict_set k v rest
  end.

(** The loop of lines 381-393 over the sorted logs; the amounts are
    [Decimal(int)], which is exact. *)
Fixpoint scan (logs : list PayoutAdded) (payment_dict user_block_dict : dict Z)
    : Command.Error + (dict Z * dict Z) :=
  match logs with
  | [] => inr (payment_dict, user_block_dict)
  | log :: rest =>
      let recipient := log_recipient log in
      let amount := log_amount log in
      let block := blockNumber log in
      if match dict_get recipient user_block_dict with
         | Some b => b =? block
         | None => false
         end
      then inl (Command.PayoutSetTwice recipient block)
      else scan rest (dict_set recipient amount payment_dict)
                     (dict_set recipient block user_block_dict)
  end.

(** *** [Decimal] arithmetic on amounts in wei

    The values that occur are integers (amounts in wei) and such integers
    divided by [SCALE = 10**18].  An integer [n] stands for the Decimal
    [n / 10**18].  The default context rounds every result to 28
    significant digits, half to even; dividing by [10**18] keeps the
    digits, so it is exact on a value that has at most 28 of them. *)

(** The number of digits to drop from [n >= 0] to keep 28. *)
Fixpoint extra_digits (fuel : nat) (n k : Z) : Z :=
  match fuel with
  | O => k
  | S fuel' =>
      if n <? 10 ^ (28 + k) then k else extra_digits fuel' n (k + 1)
  end.

(** [n >= 0] with its last [k] digits rounded away, half to even. *)
Definition round_half_even (n k : Z) : Z :=
  let unit := 10 ^ k in
  let q := n / unit in
  let r := n mod unit in
  let q' := if 2 * r <? unit then q
            else if unit <? 2 * r then q + 1
            else if Z.even q then q else q + 1 in
  q' * unit.

(** Rounding to the context precision. *)
Definition decimal_round (n : Z) : Z :=
  let a := Z.abs n in
  Z.sgn n * round_half_even a (extra_digits (Z.to_nat (Z.log2 a)) a 0).

(** [a + b] on Decimals. *)
Definition decimal_add (a b : Z) : Z := decimal_round (a + b).

(** [sum(payment_dict[recipient] for recipient in payment_dict.keys())]:
    from [0], in the order of the keys. *)
Definition total_dai_required_wei (payment_dict : dict Z) : Z :=
  fold_left decimal_add (map snd payment_dict) 0.

(** The three reports on the contract's balance (lines 416-433). *)
Inductive Balance : Type :=
| ExactlyEqual
| Insufficient
| Excess.

(** [verify]: the logs, the total against the expected amount, the balance
    [dai.functions.balanceOf(match_payouts_address).call()] against the
    total.  [total_dai_required = total_dai_required_wei / SCALE] and
    [dai_balance = Decimal(balance) / SCALE] are compared on their
    numerators over [10**18]. *)
Definition verify (network : string) (payout_added_logs : list PayoutAdded)
    (balance : Z) : Command.Error + Balance :=
  match scan (sorted_by_block payout_added_logs) [] [] with
  | inl e => inl e
  | inr (payment_dict, _) =>
      let total := total_dai_required_wei payment_dict in
      if negb (Command.expected_total_dai_amount network * 10 ^ 18 =? total)
      then inl Command.TotalMismatch
      else
        let dai_balance := decimal_round balance in
        if dai_balance =? total then inr ExactlyEqual
        else if dai_balance <? total then inr Insufficient
        else inr Excess
  end.

End Verify.

(** What the logs say, for the statements about [Verify.scan]: the key of
    a log, the order of the sorted logs, the last log of a recipient, and
    the exact sum of a list of amounts. *)
Definition log_key (log : Verify.PayoutAdded) : string * Z :=
  (Verify.log_recipient log, Verify.blockNumber log).

Definition le_block (a b : Verify.PayoutAdded) : Prop :=
  Verify.blockNumber a <= Verify.blockNumber b.

Fixpoint last_log (r : string) (logs : list Verify.PayoutAdded)
    : option Verify.PayoutAdded :=
  match logs with
  | [] => None
  | x :: rest =>
      match last_log r rest with
      | Some y => Some y
      | None => if String.eqb (Verify.log_recipient x) r then Some x else None
      end
  end.

(** The two dicts after the logs [done]: each recipient's last log. *)
Definition tracks (done : list Verify.PayoutAdded)
    (payment_dict user_block_dict : Verify.dict Z) : Prop :=
  forall r,
    Verify.dict_get r user_block_dict
    = option_map Verify.blockNumber (last_log r done)
    /\ Verify.dict_get r payment_dict
       = option_map Verify.log_amount (last_log r done).

Definition exact_sum (amounts : list Z) : Z := fold_right Z.add 0 amounts.

(** The logs of recipient [r] in block [b]. *)
Definition logs_of (r : string) (b : Z) (logs : list Verify.PayoutAdded)
    : list Verify.PayoutAdded :=
  filter (fun log => String.eqb (Verify.log_recipient log) r
                     && (Verify.blockNumber log =? b)) logs.

(** Logs of a test round on rinkeby: a recipient set again in a later
    block. *)
Module Logs.

Definition alice : string := "0xA11ce".
Definition bob : string := "0xB0b".

Definition dai (n : Z) : Z := n * 10 ^ 18.

Definition round : list Verify.PayoutAdded :=
  [ {| Verify.log_recipient := alice; Verify.log_amount := dai 3000;
       Verify.blockNumber := 7731700 |};
    {| Verify.log_recipient := bob; Verify.log_amount := dai 2000;
       Verify.blockNumber := 7731650 |};
    {| Verify.log_recipient := alice; Verify.log_amount := dai 1000;
       Verify.blockNumber := 7731650 |} ].

End Logs.

(** ** The [finalize] branch (lines 125-153) *)

Module Finalize.

(** A grant of [grants]: its primary key, its estimate for the round, and
    [grant.clr_matches.filter(has_passed_kyc=True).exists()]. *)
Record Grant : Type := {
  grant_pk : Z;
  clr_match_estimate_this_round : Q;
  has_already_kyc : bool
}.

(** The fields [CLRMatch.objects.create] is given (lines 144-150). *)
Record Match : Type := {
  round_number : Z;
  amount : Q;
  grant : Z;
  comments : string;
  ready_for_test_payout : bool
}.

(** The matches of the round, and the matches
    [grant_match_distribution_kyc] was called with. *)
Record State : Type := {
  scheduled_matches : list Match;
  kyc_mails : list Match
}.

(** One turn of the loop of line 134. *)
Definition visit (KYC_THRESHOLD : Q) (clr_round : Z) (st : State) (g : Grant)
    : State :=
  let amount := clr_match_estimate_this_round g in
  if Qeq_bool amount 0 then st
  else
    let already_exists :=
      existsb (fun m => grant m =? grant_pk g) (scheduled_matches st) in
    if already_exists then st
    else
      let needs_kyc :=
        negb (Qle_bool amount KYC_THRESHOLD) && negb (has_already_kyc g) in
      let comments := if negb needs_kyc then "" else "Needs KYC" in
      let ready_for_test_payout := negb needs_kyc in
      let m := {| round_number := clr_round;
                  amount := amount;
                  grant := grant_pk g;
                  comments := comments;
                  ready_for_test_payout := ready_for_test_payout |} in
      {| scheduled_matches := scheduled_matches st ++ [m];
         kyc_mails := if needs_kyc then kyc_mails st ++ [m] else kyc_mails st |}.

Definition finalize (user_input : string) (KYC_THRESHOLD : Q) (clr_round : Z)
    (grants : list Grant) (scheduled : list Match) : State :=
  let st := {| scheduled_matches := scheduled; kyc_mails := [] |} in
  if negb (String.eqb user_input "y") then st
  else fold_left (visit KYC_THRESHOLD clr_round) grants st.

End Finalize.

(** A grant the loop passes over: no amount, or a match in the round. *)
Definition settled (st : Finalize.State) (g : Finalize.Grant) : bool :=
  Qeq_bool (Finalize.clr_match_estimate_this_round g) 0
  || existsb (fun m => Finalize.grant m =? Finalize.grant_pk g)
       (Finalize.scheduled_matches st).

(** ** Chunking: partition lemmas *)

Section ChunksFacts.
Context {A : Type}.
Variable lst : list A.
Variable n : Z.
Hypothesis n_pos : 0 < n.

Let piece (i : Z) : list A := Py.slice lst i (i + n).

Lemma slice_step i : 0 <= i ->
  Py.slice lst i (i + n) = firstn (Z.to_nat n) (skipn (Z.to_nat i) lst).
Proof. intros _. unfold Py.slice. f_equal. f_equal. lia. Qed.

Lemma slice_length i : 0 <= i ->
  Py.len (Py.slice lst i (i + n)) = Z.min n (Z.max 0 (Py.len lst - i)).
Proof.
  intros Hi. rewrite slice_step by assumption. unfold Py.len.
  rewrite length_firstn, length_skipn. lia.
Qed.

Lemma range_loop_concat turns : forall i,
  0 <= i -> Py.len lst - i <= Z.of_nat turns ->
  concat (map piece (Py.range_loop turns i (Py.len lst) n))
  = skipn (Z.to_nat i) lst.
Proof.
  induction turns as [|t IH]; intros i Hi Hfuel; cbn [Py.range_loop].
  - cbn. symmetry. apply skipn_all2. unfold Py.len in Hfuel. lia.
  - destruct (Z.ltb_spec i (Py.len lst)) as [Hlt|Hge].
    + cbn [map concat]. rewrite IH by lia. unfold piece.
      rewrite slice_step by assumption.
      replace (Z.to_nat (i + n)) with (Z.to_nat n + Z.to_nat i)%nat by lia.
      rewrite <- skipn_skipn. apply firstn_skipn.
    + cbn. symmetry. apply skipn_all2. unfold Py.len in Hge. lia.
Qed.

Lemma range_loop_sizes turns : forall i, 0 <= i ->
  Forall (fun c => Py.len c <= n)
         (map piece (Py.range_loop turns i (Py.len lst) n))
  /\ Forall (fun c => Py.len c = n)
            (removelast (map piece (Py.range_loop turns i (Py.len lst) n))).
Proof.
  induction turns as [|t IH]; intros i Hi; cbn [Py.range_loop].
  - split; constructor.
  - destruct (Z.ltb_spec i (Py.len lst)) as [Hlt|Hge]; [|split; constructor].
    destruct (IH (i + n)) as [IHle IHeq]; [lia|].
    split.
    + cbn [map]. constructor; [|exact IHle].
      unfold piece. rewrite slice_length by assumption. lia.
    + cbn [map]. revert IHeq.
      destruct t as [|t']; cbn [Py.range_loop]; [constructor|].
      destruct (Z.ltb_spec (i + n) (Py.len lst)) as [Hlt'|Hge'];
        [|constructor].
      intros IHeq. cbn [map] in *.
      change (removelast (?a :: ?b :: ?l)) with (a :: removelast (b :: l)).
      constructor; [|exact IHeq].
      unfold piece. rewrite slice_length by assumption. lia.
Qed.

End ChunksFacts.

(** C3 — for a positive chunk size [n], [chunks lst n] yields chunks whose
    concatenation is [lst] (same order, nothing duplicated or dropped);
    every chunk has at most [n] entries and every chunk but the last has
    exactly [n]; 250 entries with [n = 120] give chunks of 120, 120 and 10
    entries, in that order. *)
Theorem chunks_partition {A : Type} (lst : list A) (n : Z) (Hn : 0 < n) :
  exists cs,
    chunks lst n = Done cs
    /\ concat cs = lst
    /\ Forall (fun c => Py.len c <= n) cs
    /\ Forall (fun c => Py.len c = n) (removelast cs)
    /\ (Py.len lst = 250 -> n = 120 -> map Py.len cs = [120; 120; 10]).
Proof.
  unfold chunks, Py.range.
  destruct (Z.eqb_spec n 0) as [->|_]; [lia|].
  destruct (Z.ltb_spec n 0) as [Hneg|_]; [lia|].
  rewrite Z.sub_0_r.
  eexists; split; [reflexivity|].
  pose proof (range_loop_sizes lst n Hn (Z.to_nat (Py.len lst)) 0
                (Z.le_refl 0)) as [Hle Heq].
  repeat split.
  - rewrite (range_loop_concat lst n Hn) by (unfold Py.len; lia).
    reflexivity.
  - exact Hle.
  - exact Heq.
  - intros Hlen ->. rewrite Hlen.
    change (Z.to_nat 250) with 250%nat.
    cbn [Py.range_loop Z.ltb Z.compare Pos.compare Pos.compare_cont
         Z.add Pos.add Pos.succ Pos.add_carry map].
    rewrite !(slice_length lst 120) by lia. rewrite Hlen. reflexivity.
Qed.

Lemma chunks_partition_witness :
  0 < 2 /\
  exists cs,
    chunks [1; 2; 3; 4; 5] 2 = Done cs
    /\ concat cs = [1; 2; 3; 4; 5]
    /\ Forall (fun c => Py.len c <= 2) cs
    /\ Forall (fun c => Py.len c = 2) (removelast cs)
    /\ (Py.len [1; 2; 3; 4; 5] = 250 -> 2 = 120 ->
        map Py.len cs = [120; 120; 10]).
Proof. split; [lia | apply (chunks_partition [1; 2; 3; 4; 5] 2); lia]. Defined.

(** ** The monad: how traces and outcomes compose *)

Lemma every_suffix_split (W : Window) (T : list Event) (st : Status) :
  every_suffix W T st -> forall A B, T = A ++ B -> W B st.
Proof.
  intros H A. revert T H.
  induction A as [|a A IH]; intros T H B ->; cbn in *.
  - destruct B; apply H.
  - destruct H as [_ H]. eapply IH; [exact H | reflexivity].
Qed.

Lemma every_suffix_app (W : Window) (t1 t2 : list Event) (st1 st2 st : Status) :
  extensible W ->
  every_suffix W t1 st1 ->
  every_suffix W t2 st2 ->
  (st1 <> Completed -> t2 = [] /\ st = st1) ->
  (st1 = Completed -> st = st2) ->
  every_suffix W (t1 ++ t2) st.
Proof.
  intros Hext H1 H2 Hstop Hgo.
  induction t1 as [|e t1 IH].
  - cbn. destruct st1; try (rewrite Hgo by reflexivity; exact H2);
      (destruct Hstop as [-> ->]; [discriminate | exact H1]).
  - destruct H1 as [Hw H1]. split.
    + apply (Hext e t1 st1 t2 st Hw Hstop).
    + apply IH, H1.
Qed.

Lemma obeys_bind {A B : Type} (W : Window) (m : M A) (k : A -> M B) (c : Calls) :
  extensible W ->
  obeys W (m c) ->
  (forall a, outcome (m c) = Done a -> obeys W (k a (calls (m c)))) ->
  obeys W (bind m k c).
Proof.
  unfold obeys, bind. intros Hext Hm Hk.
  destruct (outcome (m c)) as [a| e |] eqn:Ho; cbn [outcome trace].
  - eapply every_suffix_app; try eassumption.
    + apply Hk. reflexivity.
    + cbn. intros H. now elim H.
    + reflexivity.
  - exact Hm.
  - exact Hm.
Qed.

Lemma obeys_prepend {A : Type} (W : Window) (evs : list Event) (r : Run A) :
  obeys W r ->
  (forall A' B', evs = A' ++ B' -> B' <> [] ->
                 W (B' ++ trace r) (status (outcome r))) ->
  obeys W (prepend evs r).
Proof.
  unfold obeys, prepend. cbn [outcome trace]. intros Hr.
  induction evs as [|e evs IH]; intros Hevs; [exact Hr|].
  split.
  - apply (Hevs [] (e :: evs)); [reflexivity | discriminate].
  - apply IH. intros A' B' -> HB. apply (Hevs (e :: A') B'); auto.
Qed.

(** ** The loops, one turn at a time *)

Section ProgramFacts.

Variable node : Node.

Lemma to_wei_not_out_of_fuel (r mult : float) : Gas.to_wei r mult <> OutOfFuel.
Proof.
  unfold Gas.to_wei, Gas.int_of_float.
  destruct (Prim2SF _); discriminate.
Qed.

Lemma broadcast_loop_unfold fuel chunk pm ta sg counter c :
  broadcast_loop node (S fuel) chunk pm ta sg counter c =
  match sendRawTransaction node (send_calls c) with
  | Accepted tx_id =>
      {| outcome := Done tx_id; calls := used_send c;
         trace := [EvSend chunk sg (Accepted tx_id)] |}
  | Rejected msg =>
      if Py.contains UNDERPRICED msg then
        let r := recommend_min_gas_price_to_confirm_in_time node (gas_calls c) in
        match Gas.to_wei r Gas.mult_bumped with
        | Done price =>
            let ta' := {| nonce := nonce ta; gas := gas ta; gasPrice := price |} in
            prepend [EvSend chunk sg (Rejected msg);
                     EvPrint (retry_line UNDERPRICED (S counter));
                     EvSleep WAIT_TIME_BETWEEN_TXS;
                     EvRecommendGas r;
                     EvSign chunk (buildTransaction pm ta')]
              (broadcast_loop node fuel chunk pm ta'
                 (signTransaction (buildTransaction pm ta')) (S counter)
                 (used_gas (used_send c)))
        | Raised e =>
            {| outcome := Raised e; calls := used_gas (used_send c);
               trace := [EvSend chunk sg (Rejected msg);
                         EvPrint (retry_line UNDERPRICED (S counter));
                         EvSleep WAIT_TIME_BETWEEN_TXS;
                         EvRecommendGas r] |}
        | OutOfFuel =>
            {| outcome := OutOfFuel; calls := used_gas (used_send c);
               trace := [EvSend chunk sg (Rejected msg);
                         EvPrint (retry_line UNDERPRICED (S counter));
                         EvSleep WAIT_TIME_BETWEEN_TXS;
                         EvRecommendGas r] |}
        end
      else if Py.contains NONCE_TOO_LOW msg then
        let n := getTransactionCount node (count_calls c) in
        let ta' := {| nonce := n; gas := gas ta; gasPrice := gasPrice ta |} in
        prepend [EvSend chunk sg (Rejected msg);
                 EvPrint (retry_line NONCE_TOO_LOW (S counter));
                 EvSleep WAIT_TIME_BETWEEN_TXS;
                 EvGetTransactionCount n;
                 EvSign chunk (buildTransaction pm ta')]
          (broadcast_loop node fuel chunk pm ta'
             (signTransaction (buildTransaction pm ta')) (S counter)
             (used_count (used_send c)))
      else
        {| outcome := Raised (BroadcastError msg); calls := used_send c;
           trace := [EvSend chunk sg (Rejected msg)] |}
  end.
Proof.
  cbn [broadcast_loop]. unfold bind at 1. cbn [send_raw_transaction outcome calls trace].
  destruct (sendRawTransaction node (send_calls c)) as [tx_id|msg]; [reflexivity|].
  destruct (Py.contains UNDERPRICED msg).
  - unfold fetch_gas_price, bind, print, sleep, emit, recommend_gas, lift,
      build_and_sign, ret; cbn [outcome calls trace].
    destruct (Gas.to_wei _ _); reflexivity.
  - destruct (Py.contains NONCE_TOO_LOW msg); reflexivity.
Qed.

Lemma wait_mined_unfold fuel chunk tx_id c :
  wait_mined node (S fuel) chunk tx_id c =
  if has_tx_mined node (mined_calls c) then
    {| outcome := Done tt; calls := used_mined c;
       trace := [EvHasMined chunk tx_id true] |}
  else
    prepend [EvHasMined chunk tx_id false; EvSleep 1]
      (wait_mined node fuel chunk tx_id (used_mined c)).
Proof.
  cbn [wait_mined]. unfold bind at 1. cbn [poll_mined outcome calls trace].
  destruct (has_tx_mined node (mined_calls c)); reflexivity.
Qed.

(** *** What follows a rejected broadcast *)

Lemma extensible_after_rejection : extensible after_rejection.
Proof.
  intros e B st more st' H Hstop.
  destruct e; try exact I.
  destruct res as [tx_id|msg]; [exact I|].
  cbn [after_rejection] in *.
  assert (Hres : forall s B2, resumes chunk s B2 st ->
                              resumes chunk s (B2 ++ more) st').
  { intros s B2 [[-> ->]|(res & B' & ->)].
    - destruct Hstop as [-> ->]; [discriminate|]. left. auto.
    - right. exists res, (B' ++ more). reflexivity. }
  destruct (Py.contains UNDERPRICED msg).
  - destruct H as (counter & r & B1 & -> & H).
    exists counter, r, (B1 ++ more). split; [reflexivity|].
    destruct (Gas.to_wei r Gas.mult_bumped) as [price|exn|]; [| |contradiction].
    + destruct H as (B2 & -> & H). exists (B2 ++ more). split; [reflexivity|].
      apply Hres, H.
    + destruct H as [-> ->]. destruct Hstop as [-> ->]; [discriminate|]. auto.
  - destruct (Py.contains NONCE_TOO_LOW msg).
    + destruct H as (counter & n & B2 & -> & H).
      exists counter, n, (B2 ++ more). split; [reflexivity|]. apply Hres, H.
    + destruct H as [-> ->]. destruct Hstop as [-> ->]; [discriminate|]. auto.
Qed.

Lemma broadcast_loop_resumes fuel chunk pm ta sg counter c :
  resumes chunk sg
    (trace (broadcast_loop node fuel chunk pm ta sg counter c))
    (status (outcome (broadcast_loop node fuel chunk pm ta sg counter c))).
Proof.
  destruct fuel as [|fuel]; [left; split; reflexivity|].
  right. rewrite broadcast_loop_unfold.
  destruct (sendRawTransaction node (send_calls c)) as [tx_id|msg];
    [eexists _, _; reflexivity|].
  destruct (Py.contains UNDERPRICED msg).
  - cbv zeta. destruct (Gas.to_wei _ _); eexists _, _; reflexivity.
  - destruct (Py.contains NONCE_TOO_LOW msg); eexists _, _; reflexivity.
Qed.

Lemma broadcast_loop_after_rejection fuel chunk pm : forall ta counter c,
  obeys after_rejection
    (broadcast_loop node fuel chunk pm ta
       (signTransaction (buildTransaction pm ta)) counter c).
Proof.
  induction fuel as [|fuel IH]; intros ta counter c.
  - split; exact I.
  - rewrite broadcast_loop_unfold.
    destruct (sendRawTransaction node (send_calls c)) as [tx_id|msg] eqn:Hsend.
    + repeat split.
    + destruct (Py.contains UNDERPRICED msg) eqn:Hu.
      * cbv zeta.
        destruct (Gas.to_wei _ Gas.mult_bumped) as [price|exn|] eqn:Hwei.
        -- unfold obeys, prepend. cbn [trace outcome every_suffix app].
           repeat split; try exact I; [|apply IH].
           cbn [after_rejection]. rewrite Hu.
           eexists _, _, _. split; [reflexivity|]. rewrite Hwei.
           eexists. split; [reflexivity|]. apply broadcast_loop_resumes.
        -- unfold obeys. cbn [trace outcome every_suffix status].
           repeat split; try exact I.
           cbn [after_rejection]. rewrite Hu.
           eexists _, _, _. split; [reflexivity|]. rewrite Hwei. auto.
        -- now apply to_wei_not_out_of_fuel in Hwei.
      * destruct (Py.contains NONCE_TOO_LOW msg) eqn:Hn.
        -- cbv zeta. unfold obeys, prepend. cbn [trace outcome every_suffix app].
           repeat split; try exact I; [|apply IH].
           cbn [after_rejection]. rewrite Hu, Hn.
           eexists _, _, _. split; [reflexivity|]. apply broadcast_loop_resumes.
        -- unfold obeys. cbn [trace outcome every_suffix status].
           repeat split; try exact I.
           cbn [after_rejection]. rewrite Hu, Hn. auto.
Qed.

Lemma obeys_quiet {A : Type} (r : Run A) :
  Forall not_rejection (trace r) -> obeys after_rejection r.
Proof.
  unfold obeys. generalize (status (outcome r)) as st.
  induction (trace r) as [|e T IH]; intros st H; [split; exact I|].
  inversion H as [|? ? He HT]; subst. split; [|apply IH, HT].
  destruct e; try exact I. destruct res; [exact I | contradiction].
Qed.

Lemma wait_mined_events fuel chunk tx_id : forall c,
  Forall (fun e => exists b, e = EvHasMined chunk tx_id b \/ e = EvSleep 1)
         (trace (wait_mined node fuel chunk tx_id c)).
Proof.
  induction fuel as [|fuel IH]; intros c; [constructor|].
  rewrite wait_mined_unfold.
  destruct (has_tx_mined node (mined_calls c)).
  - constructor; [|constructor]. exists true. auto.
  - cbn [prepend trace app].
    constructor; [exists false; auto|].
    constructor; [exists false; auto|]. apply IH.
Qed.

Lemma wait_mined_quiet fuel chunk tx_id c :
  Forall not_rejection (trace (wait_mined node fuel chunk tx_id c)).
Proof.
  eapply Forall_impl; [|apply wait_mined_events].
  intros e [b [->| ->]]; exact I.
Qed.

Lemma update_database_events real tx_id matches : forall c,
  Forall (fun e => exists m, e = EvMail real m \/ e = EvSave m)
         (trace (update_database real tx_id matches c)).
Proof.
  induction matches as [|m rest IH]; intros c; [constructor|].
  cbn [update_database]. destruct tx_id as [t|]; [|constructor].
  unfold bind at 1 2. cbn [emit outcome calls trace app].
  repeat constructor; eauto.
Qed.

Lemma update_database_quiet real tx_id matches c :
  Forall not_rejection (trace (update_database real tx_id matches c)).
Proof.
  eapply Forall_impl; [|apply update_database_events].
  intros e [m [->| ->]]; exact I.
Qed.

Ltac quiet_step :=
  apply obeys_quiet; repeat constructor.

Lemma set_chunk_after_rejection fuel chunk pm c :
  obeys after_rejection (set_chunk node fuel chunk pm c).
Proof.
  unfold set_chunk, fetch_gas_price, build_and_sign.
  apply obeys_bind; [apply extensible_after_rejection | quiet_step |].
  intros n _.
  apply obeys_bind; [apply extensible_after_rejection | |].
  { apply obeys_bind; [apply extensible_after_rejection | quiet_step |].
    intros r _. quiet_step. }
  intros price _.
  apply obeys_bind; [apply extensible_after_rejection | quiet_step |].
  intros sg Hsg. cbn in Hsg. injection Hsg as <-.
  apply obeys_bind;
    [apply extensible_after_rejection | apply broadcast_loop_after_rejection |].
  intros tx_id _.
  destruct (String.eqb tx_id ""); [quiet_step|].
  apply obeys_bind; [apply extensible_after_rejection | |].
  { apply obeys_quiet, wait_mined_quiet. }
  intros _ _. quiet_step.
Qed.

Lemma for_chunks_after_rejection fuel chunked : forall chunk tx_id c,
  obeys after_rejection (for_chunks node fuel chunk chunked tx_id c).
Proof.
  induction chunked as [|pm rest IH]; intros chunk tx_id c;
    [quiet_step|].
  cbn [for_chunks].
  apply obeys_bind;
    [apply extensible_after_rejection | apply set_chunk_after_rejection |].
  intros t _. apply IH.
Qed.

Lemma set_payouts_after_rejection fuel real unpaid c :
  obeys after_rejection (set_payouts node fuel real unpaid c).
Proof.
  unfold set_payouts.
  apply obeys_bind; [apply extensible_after_rejection | quiet_step |].
  intros chunked _.
  apply obeys_bind;
    [apply extensible_after_rejection | apply for_chunks_after_rejection |].
  intros tx_id _. apply obeys_quiet, update_database_quiet.
Qed.

End ProgramFacts.

(** ** Traces of composed computations *)

Lemma trace_bind {A B : Type} (m : M A) (k : A -> M B) (c : Calls) :
  trace (bind m k c) =
  trace (m c) ++ match outcome (m c) with
                 | Done a => trace (k a (calls (m c)))
                 | _ => []
                 end.
Proof.
  unfold bind. destruct (outcome (m c)); cbn [trace];
    rewrite ?app_nil_r; reflexivity.
Qed.

Lemma outcome_bind {A B : Type} (m : M A) (k : A -> M B) (c : Calls) :
  outcome (bind m k c) =
  match outcome (m c) with
  | Done a => outcome (k a (calls (m c)))
  | Raised e => Raised e
  | OutOfFuel => OutOfFuel
  end.
Proof. unfold bind. destruct (outcome (m c)); reflexivity. Qed.

Lemma bind_done {A B : Type} (m : M A) (k : A -> M B) (c : Calls) (b : B) :
  outcome (bind m k c) = Done b ->
  exists a,
    outcome (m c) = Done a
    /\ outcome (k a (calls (m c))) = Done b
    /\ trace (bind m k c) = trace (m c) ++ trace (k a (calls (m c))).
Proof.
  rewrite outcome_bind, trace_bind.
  destruct (outcome (m c)) as [a|e|]; try discriminate.
  intros H. exists a. auto.
Qed.

Lemma Forall_trace_bind {A B : Type} (P : Event -> Prop)
    (m : M A) (k : A -> M B) (c : Calls) :
  Forall P (trace (m c)) ->
  (forall a, outcome (m c) = Done a -> Forall P (trace (k a (calls (m c))))) ->
  Forall P (trace (bind m k c)).
Proof.
  intros Hm Hk. rewrite trace_bind. apply Forall_app. split; [exact Hm|].
  destruct (outcome (m c)); [apply Hk; reflexivity | constructor ..].
Qed.

Lemma app_eq_cons_split {X : Type} (l1 l2 A : list X) (e : X) (B : list X) :
  l1 ++ l2 = A ++ e :: B ->
  (exists B1, l1 = A ++ e :: B1 /\ B = B1 ++ l2)
  \/ (exists A2, A = l1 ++ A2 /\ l2 = A2 ++ e :: B).
Proof.
  revert A. induction l1 as [|x l1 IH]; intros A H; cbn in H.
  - right. exists A. auto.
  - destruct A as [|a A]; cbn in H.
    + injection H as -> <-. left. exists l1. auto.
    + injection H as -> H. destruct (IH A H) as [(B1 & -> & ->)|(A2 & -> & ->)].
      * left. exists B1. auto.
      * right. exists A2. auto.
Qed.


(** ** One chunk's cycle *)

Section CycleFacts.

Variable node : Node.

Lemma broadcast_loop_in_cycle fuel chunk pm : forall ta counter c,
  gas ta = 8000000 ->
  Forall (in_cycle chunk pm)
    (trace (broadcast_loop node fuel chunk pm ta
              (signTransaction (buildTransaction pm ta)) counter c)).
Proof.
  induction fuel as [|fuel IH]; intros ta counter c Hgas; [constructor|].
  rewrite broadcast_loop_unfold.
  destruct (sendRawTransaction node (send_calls c)) as [tx_id|msg].
  { repeat constructor. exact Hgas. }
  destruct (Py.contains UNDERPRICED msg).
  - cbv zeta. destruct (Gas.to_wei _ _) as [price|exn|];
      cbn [prepend trace app]; repeat constructor; try exact Hgas.
    apply IH. exact Hgas.
  - destruct (Py.contains NONCE_TOO_LOW msg);
      cbn [prepend trace app]; repeat constructor; try exact Hgas.
    apply IH. exact Hgas.
Qed.

Lemma set_chunk_in_cycle fuel chunk pm c :
  Forall (in_cycle chunk pm) (trace (set_chunk node fuel chunk pm c)).
Proof.
  unfold set_chunk, fetch_gas_price, build_and_sign.
  apply Forall_trace_bind; [repeat constructor|]. intros n _.
  apply Forall_trace_bind.
  { apply Forall_trace_bind; [repeat constructor|]. intros r _. constructor. }
  intros price _.
  apply Forall_trace_bind; [repeat constructor|].
  intros sg Hsg. cbn in Hsg. injection Hsg as <-.
  apply Forall_trace_bind; [apply broadcast_loop_in_cycle; reflexivity|].
  intros tx_id _. destruct (String.eqb tx_id ""); [constructor|].
  apply Forall_trace_bind.
  - eapply Forall_impl; [|apply wait_mined_events].
    intros e [b [->| ->]]; cbn; auto.
  - intros _ _. repeat constructor.
Qed.

(** The loop leaves with a [tx_id] only through an accepted broadcast,
    which is then the last event. *)
Lemma broadcast_loop_done fuel chunk pm : forall ta sg counter c tx_id,
  outcome (broadcast_loop node fuel chunk pm ta sg counter c) = Done tx_id ->
  exists A s,
    trace (broadcast_loop node fuel chunk pm ta sg counter c)
    = A ++ [EvSend chunk s (Accepted tx_id)].
Proof.
  induction fuel as [|fuel IH]; intros ta sg counter c tx_id; [discriminate|].
  rewrite broadcast_loop_unfold.
  destruct (sendRawTransaction node (send_calls c)) as [t|msg].
  { intros [= ->]. exists [], sg. reflexivity. }
  destruct (Py.contains UNDERPRICED msg).
  - cbv zeta. destruct (Gas.to_wei _ _) as [price|exn|]; try discriminate.
    cbn [prepend outcome trace]. intros H.
    destruct (IH _ _ _ _ _ H) as (A & s & ->).
    eexists (_ :: _ :: _ :: _ :: _ :: A), s. reflexivity.
  - destruct (Py.contains NONCE_TOO_LOW msg); try discriminate.
    cbn [prepend outcome trace]. intros H.
    destruct (IH _ _ _ _ _ H) as (A & s & ->).
    eexists (_ :: _ :: _ :: _ :: _ :: A), s. reflexivity.
Qed.

Lemma wait_mined_done fuel chunk tx_id : forall c,
  outcome (wait_mined node fuel chunk tx_id c) = Done tt ->
  exists polls,
    trace (wait_mined node fuel chunk tx_id c)
    = polls ++ [EvHasMined chunk tx_id true]
    /\ Forall (fun e => ~ is_send e) polls.
Proof.
  induction fuel as [|fuel IH]; intros c; [discriminate|].
  rewrite wait_mined_unfold.
  destruct (has_tx_mined node (mined_calls c)).
  - intros _. exists []. split; [reflexivity | constructor].
  - cbn [prepend outcome trace]. intros H.
    destruct (IH _ H) as (polls & -> & Hp).
    exists (EvHasMined chunk tx_id false :: EvSleep 1 :: polls).
    split; [reflexivity|]. repeat constructor; auto.
Qed.

(** A completed cycle: the accepted broadcast, the polls, then the tail. *)
Lemma set_chunk_done fuel chunk pm c tx_id :
  outcome (set_chunk node fuel chunk pm c) = Done tx_id ->
  exists A s polls,
    trace (set_chunk node fuel chunk pm c)
    = A ++ EvSend chunk s (Accepted tx_id) :: polls ++ confirmed_tail chunk tx_id
    /\ Forall (fun e => ~ is_send e) polls.
Proof.
  unfold set_chunk, fetch_gas_price, build_and_sign. intros H.
  apply bind_done in H as (n & _ & H & ->).
  apply bind_done in H as (price & _ & H & ->).
  apply bind_done in H as (sg & _ & H & ->).
  apply bind_done in H as (t & Hb & H & ->).
  destruct (String.eqb t ""); [discriminate|].
  apply bind_done in H as ([] & Hw & H & ->).
  cbn in H. injection H as <-.
  apply broadcast_loop_done in Hb as (A & s & ->).
  apply wait_mined_done in Hw as (polls & -> & Hp).
  match goal with
  | |- exists _ _ _, ?a ++ ?b ++ ?d ++ _ = _ /\ _ =>
      exists (a ++ b ++ d ++ A), s, polls
  end.
  split; [|exact Hp].
  rewrite <- !app_assoc. reflexivity.
Qed.

End CycleFacts.

(** ** The sequence of cycles *)

Section RunFacts.

Variable node : Node.

Lemma in_cycle_chunk chunk pm e j :
  in_cycle chunk pm e -> chunk_of e = Some j -> j = chunk.
Proof.
  destruct e; cbn; try discriminate; intros H [= <-]; intuition congruence.
Qed.

Lemma for_chunks_unfold fuel chunk pm rest tx_id c :
  for_chunks node fuel chunk (pm :: rest) tx_id c =
  bind (set_chunk node fuel chunk pm)
       (fun t => for_chunks node fuel (S chunk) rest (Some t)) c.
Proof. reflexivity. Qed.

(** Every event of the loop belongs to the cycle of one of the chunks. *)
Lemma for_chunks_in_cycle fuel chunked : forall chunk tx_id c,
  Forall (fun e => exists k pm,
              nth_error chunked k = Some pm /\ in_cycle (chunk + k) pm e)
         (trace (for_chunks node fuel chunk chunked tx_id c)).
Proof.
  induction chunked as [|pm rest IH]; intros chunk tx_id c; [constructor|].
  rewrite for_chunks_unfold. apply Forall_trace_bind.
  - eapply Forall_impl; [|apply set_chunk_in_cycle].
    intros e He. exists 0%nat, pm. rewrite Nat.add_0_r. auto.
  - intros t _. eapply Forall_impl; [|apply IH].
    intros e (k & pm' & Hk & He). exists (S k), pm'.
    rewrite Nat.add_succ_r. auto.
Qed.

Lemma for_chunks_lower fuel chunked chunk tx_id c e j :
  In e (trace (for_chunks node fuel chunk chunked tx_id c)) ->
  chunk_of e = Some j -> (chunk <= j)%nat.
Proof.
  intros Hin Hj.
  pose proof (for_chunks_in_cycle fuel chunked chunk tx_id c) as H.
  rewrite Forall_forall in H. destruct (H e Hin) as (k & pm & _ & He).
  rewrite (in_cycle_chunk _ _ _ _ He Hj). lia.
Qed.

Lemma set_chunk_only fuel chunk pm c e j :
  In e (trace (set_chunk node fuel chunk pm c)) ->
  chunk_of e = Some j -> j = chunk.
Proof.
  intros Hin Hj.
  pose proof (set_chunk_in_cycle node fuel chunk pm c) as H.
  rewrite Forall_forall in H. exact (in_cycle_chunk _ _ _ _ (H e Hin) Hj).
Qed.

(** Chunk numbers never go down along the trace. *)
Lemma for_chunks_order fuel chunked : forall chunk tx_id c A e B i,
  trace (for_chunks node fuel chunk chunked tx_id c) = A ++ e :: B ->
  chunk_of e = Some i ->
  forall e' j, In e' A -> chunk_of e' = Some j -> (j <= i)%nat.
Proof.
  induction chunked as [|pm rest IH]; intros chunk tx_id c A e B i HT Hi e' j Hin Hj.
  - destruct A; discriminate.
  - rewrite for_chunks_unfold, trace_bind in HT.
    apply app_eq_cons_split in HT as [(B1 & Hseg & _)|(A2 & -> & Hrest)].
    + assert (i = chunk) as ->.
      { eapply set_chunk_only; [|exact Hi]. rewrite Hseg.
        apply in_elt. }
      assert (j = chunk) as ->; [|lia].
      eapply set_chunk_only; [|exact Hj]. rewrite Hseg.
      apply in_or_app. auto.
    + destruct (outcome (set_chunk node fuel chunk pm c)) as [t|exn|];
        try (destruct A2; discriminate).
      assert (S chunk <= i)%nat as Hlow.
      { eapply for_chunks_lower; [|exact Hi]. rewrite Hrest. apply in_elt. }
      apply in_app_or in Hin as [Hin|Hin].
      * rewrite (set_chunk_only _ _ _ _ _ _ Hin Hj). lia.
      * eapply IH; eassumption.
Qed.


(** A loop that completes returns the id of the last chunk's accepted
    broadcast, and that broadcast is the last one of the trace. *)
Lemma for_chunks_done fuel chunked : forall chunk tx_id c r,
  outcome (for_chunks node fuel chunk chunked tx_id c) = Done r ->
  chunked <> [] ->
  exists t A s polls,
    r = Some t
    /\ trace (for_chunks node fuel chunk chunked tx_id c)
       = A ++ EvSend (chunk + length chunked - 1) s (Accepted t)
           :: polls ++ confirmed_tail (chunk + length chunked - 1) t
    /\ Forall (fun e => ~ is_send e) polls.
Proof.
  induction chunked as [|pm rest IH]; intros chunk tx_id c r Ho Hne;
    [contradiction|].
  rewrite for_chunks_unfold in *.
  apply bind_done in Ho as (t & Hc & Ho & ->).
  destruct rest as [|pm' rest'].
  - cbn in Ho. injection Ho as <-.
    apply set_chunk_done in Hc as (A & s & polls & -> & Hp).
    exists t, A, s, polls. cbn [length app].
    replace (chunk + 1 - 1)%nat with chunk by lia.
    rewrite app_nil_r. auto.
  - destruct (IH _ _ _ _ Ho) as (t' & A & s & polls & -> & -> & Hp);
      [discriminate|].
    exists t', (trace (set_chunk node fuel chunk pm c) ++ A), s, polls.
    cbn [length].
    replace (chunk + S (S (length rest')) - 1)%nat
      with (S chunk + S (length rest') - 1)%nat by lia.
    cbn [length]. rewrite <- app_assoc. auto.
Qed.

(** *** The database update *)

Lemma update_database_run real t matches : forall c,
  update_database real (Some t) matches c =
  {| outcome := Done tt; calls := c;
     trace := flat_map (fun m => [EvMail real (with_tx real t m);
                                  EvSave (with_tx real t m)]) matches |}.
Proof.
  induction matches as [|m rest IH]; intros c; [reflexivity|].
  cbn [update_database flat_map]. unfold bind at 1 2.
  cbn [emit outcome calls trace]. rewrite IH. reflexivity.
Qed.

(** *** The whole branch *)

Lemma chunks_120 (lst : list PayoutEntry) :
  exists chunked, chunks lst 120 = Done chunked /\ concat chunked = lst.
Proof.
  destruct (chunks_partition lst 120) as (cs & H & Hc & _); [lia|].
  exists cs. auto.
Qed.

Lemma set_payouts_unfold fuel real unpaid chunked c :
  chunks (full_payouts_mapping unpaid) 120 = Done chunked ->
  set_payouts node fuel real unpaid c =
  bind (for_chunks node fuel 0 chunked None)
       (fun tx_id => update_database real tx_id unpaid) c.
Proof.
  intros H. unfold set_payouts. unfold bind at 1. unfold lift.
  cbn [outcome calls trace]. rewrite H. cbn [app].
  unfold bind. destruct (outcome (for_chunks _ _ _ _ _ _)); reflexivity.
Qed.

End RunFacts.

(** ** What follows a fetch of the transaction count *)

Lemma obeys_silent {A : Type} (W : Window) (P : Event -> Prop) (r : Run A) :
  (forall e B st, P e -> W (e :: B) st) ->
  (forall st, W [] st) ->
  Forall P (trace r) -> obeys W r.
Proof.
  intros Hsilent Hnil. unfold obeys. generalize (status (outcome r)) as st.
  induction (trace r) as [|e T IH]; intros st H; [split; [apply Hnil | exact I]|].
  inversion H as [|? ? He HT]; subst. split; [|apply IH, HT].
  apply Hsilent, He.
Qed.

Section CountFacts.

Variable node : Node.

Lemma extensible_after_count : extensible after_count.
Proof.
  intros e B st more st' H Hstop.
  destruct e; try exact I. cbn [after_count] in *.
  destruct H as [(chunk & tx & B' & ->)|(r & B1 & -> & H)].
  - left. exists chunk, tx, (B' ++ more). reflexivity.
  - right. exists r, (B1 ++ more). split; [reflexivity|].
    destruct (Gas.to_wei r Gas.mult_initial) as [price|exn|]; [| |contradiction].
    + destruct H as (chunk & pm & B2 & ->). exists chunk, pm, (B2 ++ more).
      reflexivity.
    + destruct H as [-> ->]. destruct Hstop as [-> ->]; [discriminate|]. auto.
Qed.

Lemma after_count_silent e B st : ~ is_count e -> after_count (e :: B) st.
Proof. destruct e; cbn; intros H; try exact I. now elim H. Qed.

Lemma obeys_after_count_silent {A : Type} (r : Run A) :
  Forall (fun e => ~ is_count e) (trace r) -> obeys after_count r.
Proof.
  apply obeys_silent; [apply after_count_silent | intros st; exact I].
Qed.

Lemma broadcast_loop_after_count fuel chunk pm : forall ta sg counter c,
  obeys after_count (broadcast_loop node fuel chunk pm ta sg counter c).
Proof.
  induction fuel as [|fuel IH]; intros ta sg counter c; [split; exact I|].
  rewrite broadcast_loop_unfold.
  destruct (sendRawTransaction node (send_calls c)) as [tx_id|msg];
    [repeat split|].
  destruct (Py.contains UNDERPRICED msg).
  - cbv zeta. destruct (Gas.to_wei _ _) as [price|exn|];
      unfold obeys, prepend; cbn [trace outcome every_suffix app];
      repeat split; try exact I. apply IH.
  - destruct (Py.contains NONCE_TOO_LOW msg);
      unfold obeys, prepend; cbn [trace outcome every_suffix app];
      repeat split; try exact I; [|apply IH].
    left. eexists _, _, _. reflexivity.
Qed.

Ltac silent_step :=
  apply obeys_after_count_silent; repeat constructor; intros [].

(** The first three events of a cycle: nonce, recommendation, initial
    build (lines 233-241). *)
Lemma set_chunk_head fuel chunk pm c :
  let n := getTransactionCount node (count_calls c) in
  let r := recommend_min_gas_price_to_confirm_in_time node (gas_calls c) in
  exists B1,
    trace (set_chunk node fuel chunk pm c)
    = EvGetTransactionCount n :: EvRecommendGas r :: B1
    /\ match Gas.to_wei r Gas.mult_initial with
       | Done price =>
           exists B2,
             B1 = EvSign chunk
                    (buildTransaction pm
                       {| nonce := n; gas := 8000000; gasPrice := price |})
                  :: B2
       | Raised e =>
           B1 = [] /\ outcome (set_chunk node fuel chunk pm c) = Raised e
       | OutOfFuel => False
       end.
Proof.
  intros n r. unfold set_chunk, fetch_gas_price, build_and_sign.
  repeat first
    [ rewrite trace_bind
    | rewrite outcome_bind
    | progress (cbn [get_transaction_count recommend_gas lift emit ret
                     outcome calls trace app used_count gas_calls]) ].
  fold n r.
  destruct (Gas.to_wei r Gas.mult_initial) as [price|exn|] eqn:Hwei.
  - eexists. split; [reflexivity|].
    repeat first
      [ rewrite trace_bind
      | progress (cbn [emit ret outcome calls trace app]) ].
    eexists. reflexivity.
  - eexists. split; [reflexivity|]. auto.
  - now apply to_wei_not_out_of_fuel in Hwei.
Qed.

Lemma set_chunk_after_count fuel chunk pm c :
  obeys after_count (set_chunk node fuel chunk pm c).
Proof.
  pose proof (set_chunk_head fuel chunk pm c) as Hhead. cbv zeta in Hhead.
  destruct Hhead as (B1 & HT & Hwei).
  unfold obeys. unfold set_chunk in *.
  rewrite trace_bind, outcome_bind in *.
  cbn [get_transaction_count outcome calls trace app] in *.
  injection HT as HT. split.
  - rewrite HT. right. eexists _, B1. split; [reflexivity|].
    destruct (Gas.to_wei _ Gas.mult_initial) as [price|exn|]; [| |contradiction].
    + destruct Hwei as (B2 & ->). eexists _, _, _. reflexivity.
    + destruct Hwei as [-> ->]. auto.
  - clear HT Hwei.
    match goal with
    | |- every_suffix _ (trace ?r) _ => change (obeys after_count r)
    end.
    unfold fetch_gas_price, build_and_sign.
    apply obeys_bind; [apply extensible_after_count | |].
    { apply obeys_bind; [apply extensible_after_count | silent_step |].
      intros r _. silent_step. }
    intros price _.
    apply obeys_bind; [apply extensible_after_count | silent_step |].
    intros sg _.
    apply obeys_bind;
      [apply extensible_after_count | apply broadcast_loop_after_count |].
    intros tx_id _. destruct (String.eqb tx_id ""); [silent_step|].
    apply obeys_bind; [apply extensible_after_count | |].
    { apply obeys_after_count_silent.
      eapply Forall_impl; [|apply wait_mined_events].
      intros e [b [->| ->]] []. }
    intros _ _. silent_step.
Qed.

Lemma for_chunks_after_count fuel chunked : forall chunk tx_id c,
  obeys after_count (for_chunks node fuel chunk chunked tx_id c).
Proof.
  induction chunked as [|pm rest IH]; intros chunk tx_id c; [silent_step|].
  cbn [for_chunks].
  apply obeys_bind; [apply extensible_after_count | apply set_chunk_after_count |].
  intros t _. apply IH.
Qed.

Lemma set_payouts_after_count fuel real unpaid c :
  obeys after_count (set_payouts node fuel real unpaid c).
Proof.
  unfold set_payouts.
  apply obeys_bind; [apply extensible_after_count | silent_step |].
  intros chunked _.
  apply obeys_bind; [apply extensible_after_count | apply for_chunks_after_count |].
  intros tx_id _. apply obeys_after_count_silent.
  eapply Forall_impl; [|apply update_database_events].
  intros e [m [->| ->]] [].
Qed.

End CountFacts.

(** ** The nonces in the trace are the node's answers, in order *)

Lemma calls_bind {A B : Type} (m : M A) (k : A -> M B) (c : Calls) :
  calls (bind m k c) =
  match outcome (m c) with
  | Done a => calls (k a (calls (m c)))
  | _ => calls (m c)
  end.
Proof. unfold bind. destruct (outcome (m c)); reflexivity. Qed.

Lemma fetched_counts_app (T1 T2 : list Event) :
  fetched_counts (T1 ++ T2) = fetched_counts T1 ++ fetched_counts T2.
Proof.
  induction T1 as [|e T1 IH]; [reflexivity|].
  destruct e; cbn; rewrite IH; reflexivity.
Qed.

Section FetchFacts.

Variable node : Node.

Lemma faithful_bind {A B : Type} (m : M A) (k : A -> M B) (c : Calls) :
  count_faithful node c (m c) ->
  (forall a, outcome (m c) = Done a ->
             count_faithful node (calls (m c)) (k a (calls (m c)))) ->
  count_faithful node c (bind m k c).
Proof.
  intros (k1 & Hc1 & Ht1) Hk. unfold count_faithful.
  rewrite trace_bind, calls_bind, fetched_counts_app.
  destruct (outcome (m c)) as [a|e|].
  - destruct (Hk a eq_refl) as (k2 & Hc2 & Ht2).
    exists (k1 + k2)%nat. split; [lia|].
    rewrite seq_app, map_app, Ht1, Ht2, Hc1. reflexivity.
  - exists k1. rewrite app_nil_r. auto.
  - exists k1. rewrite app_nil_r. auto.
Qed.

Lemma faithful_quiet {A : Type} (c : Calls) (r : Run A) :
  count_calls (calls r) = count_calls c ->
  fetched_counts (trace r) = [] ->
  count_faithful node c r.
Proof. intros Hc Ht. exists 0%nat. split; [lia | exact Ht]. Qed.

Lemma faithful_prepend {A : Type} (c c' : Calls) (evs : list Event) (r : Run A) :
  count_faithful node c' r ->
  (fetched_counts evs = [] /\ count_calls c' = count_calls c
   \/ fetched_counts evs = [getTransactionCount node (count_calls c)]
      /\ count_calls c' = S (count_calls c)) ->
  count_faithful node c (prepend evs r).
Proof.
  intros (k & Hc & Ht) [[He Hc']|[He Hc']]; unfold count_faithful, prepend;
    cbn [calls trace]; rewrite fetched_counts_app, He, Ht, Hc, Hc'.
  - exists k. auto.
  - exists (S k). split; [lia | reflexivity].
Qed.

Lemma broadcast_loop_faithful fuel chunk pm : forall ta sg counter c,
  count_faithful node c (broadcast_loop node fuel chunk pm ta sg counter c).
Proof.
  induction fuel as [|fuel IH]; intros ta sg counter c;
    [apply faithful_quiet; reflexivity|].
  rewrite broadcast_loop_unfold.
  destruct (sendRawTransaction node (send_calls c)) as [tx_id|msg];
    [apply faithful_quiet; reflexivity|].
  destruct (Py.contains UNDERPRICED msg).
  - cbv zeta. destruct (Gas.to_wei _ _) as [price|exn|];
      try (apply faithful_quiet; reflexivity).
    eapply faithful_prepend; [apply IH|]. left. split; reflexivity.
  - destruct (Py.contains NONCE_TOO_LOW msg);
      [|apply faithful_quiet; reflexivity].
    cbv zeta. eapply faithful_prepend; [apply IH|]. right. split; reflexivity.
Qed.

Lemma wait_mined_faithful fuel chunk tx_id : forall c,
  count_faithful node c (wait_mined node fuel chunk tx_id c).
Proof.
  induction fuel as [|fuel IH]; intros c; [apply faithful_quiet; reflexivity|].
  rewrite wait_mined_unfold.
  destruct (has_tx_mined node (mined_calls c));
    [apply faithful_quiet; reflexivity|].
  eapply faithful_prepend; [apply IH|]. left. split; reflexivity.
Qed.

Lemma update_database_faithful real tx_id matches c :
  count_faithful node c (update_database real tx_id matches c).
Proof.
  destruct tx_id as [t|].
  - rewrite update_database_run. apply faithful_quiet; [reflexivity|].
    cbn [trace]. induction matches as [|m rest IH]; [reflexivity | exact IH].
  - destruct matches; apply faithful_quiet; reflexivity.
Qed.

Ltac faithful_step :=
  first [ apply faithful_quiet; reflexivity
        | exists 1%nat; split; [cbn; lia | reflexivity] ].

Lemma set_chunk_faithful fuel chunk pm c :
  count_faithful node c (set_chunk node fuel chunk pm c).
Proof.
  unfold set_chunk, fetch_gas_price, build_and_sign.
  apply faithful_bind; [faithful_step|]. intros n _.
  apply faithful_bind.
  { apply faithful_bind; [faithful_step|]. intros r _. faithful_step. }
  intros price _.
  apply faithful_bind; [faithful_step|]. intros sg _.
  apply faithful_bind; [apply broadcast_loop_faithful|]. intros tx_id _.
  destruct (String.eqb tx_id ""); [faithful_step|].
  apply faithful_bind; [apply wait_mined_faithful|]. intros _ _.
  faithful_step.
Qed.

Lemma for_chunks_faithful fuel chunked : forall chunk tx_id c,
  count_faithful node c (for_chunks node fuel chunk chunked tx_id c).
Proof.
  induction chunked as [|pm rest IH]; intros chunk tx_id c; [faithful_step|].
  cbn [for_chunks]. apply faithful_bind; [apply set_chunk_faithful|].
  intros t _. apply IH.
Qed.

Lemma set_payouts_faithful fuel real unpaid c :
  count_faithful node c (set_payouts node fuel real unpaid c).
Proof.
  unfold set_payouts.
  apply faithful_bind; [faithful_step|]. intros chunked _.
  apply faithful_bind; [apply for_chunks_faithful|]. intros tx_id _.
  apply update_database_faithful.
Qed.

(** Every nonce in the trace is the node's next unused answer. *)
Lemma set_payouts_fetch fuel real unpaid c A n B :
  trace (set_payouts node fuel real unpaid c)
  = A ++ EvGetTransactionCount n :: B ->
  n = getTransactionCount node
        (count_calls c + length (fetched_counts A)).
Proof.
  intros HT.
  destruct (set_payouts_faithful fuel real unpaid c) as (k & _ & Hf).
  rewrite HT, fetched_counts_app in Hf. cbn [fetched_counts] in Hf.
  assert (Hlen : (length (fetched_counts A) < k)%nat).
  { apply (f_equal (@length Z)) in Hf.
    rewrite length_app, length_map, length_seq in Hf. cbn in Hf. lia. }
  apply (f_equal (fun l => nth (length (fetched_counts A)) l 0)) in Hf.
  rewrite app_nth2, Nat.sub_diag in Hf by lia. cbn [nth] in Hf.
  rewrite Hf.
  rewrite (nth_indep _ 0 (getTransactionCount node 0))
    by (rewrite length_map, length_seq; exact Hlen).
  rewrite map_nth, seq_nth by exact Hlen. reflexivity.
Qed.

End FetchFacts.

(** ** Gas prices under a steady recommendation *)

Section SteadyOracle.

Variable node : Node.
Variable r : float.
Variables p0 p1 : Z.
Hypothesis steady :
  forall k, recommend_min_gas_price_to_confirm_in_time node k = r.
Hypothesis initial_price : Gas.to_wei r Gas.mult_initial = Done p0.
Hypothesis bumped_price : Gas.to_wei r Gas.mult_bumped = Done p1.

Ltac priced_events :=
  repeat (apply Forall_cons; [cbn; auto|]); try apply Forall_nil.

Lemma broadcast_loop_priced fuel chunk pm : forall ta counter c,
  gasPrice ta = p0 \/ gasPrice ta = p1 ->
  Forall (priced r p0 p1)
    (trace (broadcast_loop node fuel chunk pm ta
              (signTransaction (buildTransaction pm ta)) counter c)).
Proof.
  induction fuel as [|fuel IH]; intros ta counter c Hp; [constructor|].
  rewrite broadcast_loop_unfold.
  destruct (sendRawTransaction node (send_calls c)) as [tx_id|msg].
  { cbn [trace]. priced_events. }
  destruct (Py.contains UNDERPRICED msg).
  - cbv zeta. rewrite steady, bumped_price. cbn [prepend trace app].
    priced_events. apply IH. cbn. auto.
  - destruct (Py.contains NONCE_TOO_LOW msg);
      cbn [prepend trace app]; priced_events.
    apply IH. exact Hp.
Qed.

Lemma set_chunk_priced fuel chunk pm c :
  Forall (priced r p0 p1) (trace (set_chunk node fuel chunk pm c)).
Proof.
  unfold set_chunk, fetch_gas_price, build_and_sign.
  apply Forall_trace_bind; [cbn [get_transaction_count trace]; priced_events|].
  intros n _.
  apply Forall_trace_bind.
  { apply Forall_trace_bind;
      [cbn [recommend_gas trace]; priced_events | intros r' _; constructor]. }
  intros price Hprice.
  rewrite outcome_bind in Hprice. cbn in Hprice.
  rewrite steady, initial_price in Hprice. injection Hprice as <-.
  apply Forall_trace_bind.
  { rewrite trace_bind. cbn [emit ret outcome calls trace app]. priced_events. }
  intros sg Hsg. cbn in Hsg. injection Hsg as <-.
  apply Forall_trace_bind; [apply broadcast_loop_priced; cbn; auto|].
  intros tx_id _. destruct (String.eqb tx_id ""); [constructor|].
  apply Forall_trace_bind.
  - eapply Forall_impl; [|apply wait_mined_events].
    intros e [b [->| ->]]; exact I.
  - intros _ _. repeat constructor.
Qed.

Lemma for_chunks_priced fuel chunked : forall chunk tx_id c,
  Forall (priced r p0 p1) (trace (for_chunks node fuel chunk chunked tx_id c)).
Proof.
  induction chunked as [|pm rest IH]; intros chunk tx_id c; [constructor|].
  cbn [for_chunks]. apply Forall_trace_bind; [apply set_chunk_priced|].
  intros t _. apply IH.
Qed.

Lemma set_payouts_priced fuel real unpaid c :
  Forall (priced r p0 p1) (trace (set_payouts node fuel real unpaid c)).
Proof.
  unfold set_payouts.
  apply Forall_trace_bind; [constructor|]. intros chunked _.
  apply Forall_trace_bind; [apply for_chunks_priced|]. intros tx_id _.
  eapply Forall_impl; [|apply update_database_events].
  intros e [m [->| ->]]; exact I.
Qed.

End SteadyOracle.

(** ** Every build of the run *)

Lemma set_payouts_in_cycle node fuel real unpaid chunked c :
  chunks (full_payouts_mapping unpaid) 120 = Done chunked ->
  Forall (fun e => (exists m, e = EvMail real m \/ e = EvSave m)
                   \/ exists k pm,
                        nth_error chunked k = Some pm /\ in_cycle k pm e)
         (trace (set_payouts node fuel real unpaid c)).
Proof.
  intros Hch. rewrite (set_payouts_unfold _ _ _ _ _ _ Hch).
  apply Forall_trace_bind.
  - eapply Forall_impl; [|apply for_chunks_in_cycle].
    intros e H. right. exact H.
  - intros tx_id _. eapply Forall_impl; [|apply update_database_events].
    intros e H. left. exact H.
Qed.

Lemma set_payouts_builds node fuel real unpaid chunked c i tx :
  chunks (full_payouts_mapping unpaid) 120 = Done chunked ->
  In (EvSign i tx) (trace (set_payouts node fuel real unpaid c)) ->
  gas (args tx) = 8000000 /\ nth_error chunked i = Some (payload tx).
Proof.
  intros Hch Hin.
  pose proof (set_payouts_in_cycle node fuel real unpaid chunked c Hch) as H.
  rewrite Forall_forall in H.
  destruct (H _ Hin) as [(m & [He|He])|(k & pm & Hk & Hc)]; try discriminate.
  cbn in Hc. destruct Hc as (-> & -> & Hg). auto.
Qed.

(** ** The retry loop when every rejection is a known transient one *)


Section TransientOnly.

Variable node : Node.

Hypothesis transient : forall k msg,
  sendRawTransaction node k = Rejected msg ->
  Py.contains UNDERPRICED msg = true \/ Py.contains NONCE_TOO_LOW msg = true.

Hypothesis priceable : forall k,
  exists price,
    Gas.to_wei (recommend_min_gas_price_to_confirm_in_time node k)
      Gas.mult_bumped = Done price.






End TransientOnly.

(** * The claims *)

Lemma status_failed {A : Type} (o : Outcome A) (e : Exn) :
  status o = Failed e -> o = Raised e.
Proof. destruct o; cbn; congruence. Qed.

Lemma status_diverging {A : Type} (o : Outcome A) :
  status o = Diverging -> o = OutOfFuel.
Proof. destruct o; cbn; congruence. Qed.

Lemma set_payouts_rejection node fuel real unpaid c A i s msg B :
  trace (set_payouts node fuel real unpaid c)
  = A ++ EvSend i s (Rejected msg) :: B ->
  after_rejection (EvSend i s (Rejected msg) :: B)
    (status (outcome (set_payouts node fuel real unpaid c))).
Proof.
  intros HT.
  exact (every_suffix_split _ _ _
           (set_payouts_after_rejection node fuel real unpaid c) A _ HT).
Qed.

(** Where the broadcasts of the branch are: in the chunk loop. *)
Lemma set_payouts_send_split node fuel real unpaid c A e B :
  trace (set_payouts node fuel real unpaid c) = A ++ e :: B ->
  is_send e ->
  exists chunked B1,
    chunks (full_payouts_mapping unpaid) 120 = Done chunked
    /\ trace (for_chunks node fuel 0 chunked None c) = A ++ e :: B1.
Proof.
  intros HT He.
  destruct (chunks_120 (full_payouts_mapping unpaid)) as (chunked & Hch & _).
  exists chunked. rewrite (set_payouts_unfold _ _ _ _ _ _ Hch), trace_bind in HT.
  apply app_eq_cons_split in HT as [(B1 & H1 & _)|(A2 & -> & Hdb)].
  - exists B1. auto.
  - exfalso.
    assert (In e (A2 ++ e :: B)) as Hin by apply in_elt.
    rewrite <- Hdb in Hin.
    destruct (outcome (for_chunks node fuel 0 chunked None c)); try contradiction.
    pose proof (update_database_events real a unpaid
                  (calls (for_chunks node fuel 0 chunked None c))) as Hev.
    rewrite Forall_forall in Hev.
    destruct (Hev e Hin) as (m & [->| ->]); contradiction.
Qed.

(** C2 — a broadcast rejected with a message that names neither
    "replacement transaction underpriced" nor "nonce too low" is the last
    event of the run: the run ends there by raising that error, and no
    broadcast for a later chunk is in the trace. *)
Theorem fatal_rejection_aborts (node : Node) (fuel : nat) (real : bool)
    (unpaid : list CLRMatch) (c : Calls) (A : list Event) (i : nat)
    (s : SignedTransaction) (msg : string) (B : list Event) :
  trace (set_payouts node fuel real unpaid c)
  = A ++ EvSend i s (Rejected msg) :: B ->
  Py.contains UNDERPRICED msg = false ->
  Py.contains NONCE_TOO_LOW msg = false ->
  B = []
  /\ outcome (set_payouts node fuel real unpaid c) = Raised (BroadcastError msg)
  /\ forall j s' res,
       In (EvSend j s' res) (trace (set_payouts node fuel real unpaid c)) ->
       (j <= i)%nat.
Proof.
  intros HT Hu Hn.
  pose proof (set_payouts_rejection _ _ _ _ _ _ _ _ _ _ HT) as H.
  cbn [after_rejection] in H. rewrite Hu, Hn in H. destruct H as [-> Hst].
  split; [reflexivity|]. split; [apply status_failed, Hst|].
  intros j s' res Hin. rewrite HT in Hin.
  apply in_app_or in Hin as [Hin|[[= -> _ _]|[]]]; [|lia].
  destruct (set_payouts_send_split _ _ _ _ _ _ _ _ HT I) as (chunked & B1 & _ & Hf).
  eapply (for_chunks_order _ _ _ _ _ _ _ _ _ _ Hf); [|exact Hin|]; reflexivity.
Qed.

Lemma fatal_rejection_aborts_witness :
  outcome (set_payouts Scenario.broke 3 true [Scenario.grant 1] no_calls)
  = Raised (BroadcastError "insufficient funds").
Proof.
  refine (proj1 (proj2
    (fatal_rejection_aborts Scenario.broke 3 true [Scenario.grant 1] no_calls
       [_; _; _] 0 _ "insufficient funds" [] eq_refl eq_refl eq_refl))).
Defined.




(** C7 — when the run completes on a non-empty batch, the trace ends with
    the database update, in which every match of the batch is mailed and
    saved with one and the same id in [payout_tx] (real payout) or
    [test_payout_tx] (test payout): the id of the last chunk's accepted
    broadcast, also for the matches that were paid by an earlier chunk. *)
Theorem matches_saved_with_last_tx (node : Node) (fuel : nat) (real : bool)
    (unpaid : list CLRMatch) (c : Calls) :
  unpaid <> [] ->
  outcome (set_payouts node fuel real unpaid c) = Done tt ->
  exists chunked tx_id A s polls,
    chunks (full_payouts_mapping unpaid) 120 = Done chunked
    /\ trace (set_payouts node fuel real unpaid c)
       = A ++ EvSend (length chunked - 1) s (Accepted tx_id)
           :: polls
           ++ [EvHasMined (length chunked - 1) tx_id true; EvPrint "SLEEPING";
               EvSleep 15; EvPrint "DONE SLEEPING"]
           ++ flat_map (fun m => [EvMail real (with_tx real tx_id m);
                                  EvSave (with_tx real tx_id m)]) unpaid
    /\ Forall (fun e => ~ is_send e) polls
    /\ forall m, In m unpaid ->
         (if real then payout_tx (with_tx real tx_id m)
          else test_payout_tx (with_tx real tx_id m)) = tx_id.
Proof.
  intros Hne Ho.
  destruct (chunks_120 (full_payouts_mapping unpaid)) as (chunked & Hch & Hcat).
  rewrite (set_payouts_unfold _ _ _ _ _ _ Hch) in *.
  apply bind_done in Ho as (r & Hf & Hdb & ->).
  apply for_chunks_done in Hf as (t & A & s & polls & -> & -> & Hp).
  - exists chunked, t, A, s, polls. rewrite update_database_run.
    cbn [trace Nat.add]. split; [exact Hch|]. split.
    + rewrite <- !app_assoc. cbn [app]. rewrite <- !app_assoc. reflexivity.
    + split; [exact Hp|]. intros m _. destruct real; reflexivity.
  - intros ->. cbn in Hcat. destruct unpaid; [contradiction | discriminate].
Qed.

Lemma matches_saved_with_last_tx_witness :
  exists chunked tx_id A s polls,
    chunks (full_payouts_mapping Scenario.batch_121) 120 = Done chunked
    /\ trace (set_payouts Scenario.calm 3 true Scenario.batch_121 no_calls)
       = A ++ EvSend (length chunked - 1) s (Accepted tx_id)
           :: polls
           ++ [EvHasMined (length chunked - 1) tx_id true; EvPrint "SLEEPING";
               EvSleep 15; EvPrint "DONE SLEEPING"]
           ++ flat_map (fun m => [EvMail true (with_tx true tx_id m);
                                  EvSave (with_tx true tx_id m)])
                Scenario.batch_121
    /\ Forall (fun e => ~ is_send e) polls
    /\ forall m, In m Scenario.batch_121 ->
         (if true then payout_tx (with_tx true tx_id m)
          else test_payout_tx (with_tx true tx_id m)) = tx_id.
Proof.
  apply (matches_saved_with_last_tx Scenario.calm 3 true Scenario.batch_121
           no_calls).
  - intros H. vm_compute in H. discriminate.
  - vm_compute. reflexivity.
Defined.

(** The first match of the 121 is paid by the first transaction
    ("0xaaa") and recorded with the second ("0xbbb"). *)
Example first_match_gets_second_tx :
  In (EvSave (with_tx true "0xbbb" (Scenario.grant 1)))
     (trace (set_payouts Scenario.calm 3 true Scenario.batch_121 no_calls))
  /\ ~ In (EvSave (with_tx true "0xaaa" (Scenario.grant 1)))
       (trace (set_payouts Scenario.calm 3 true Scenario.batch_121 no_calls)).
Proof.
  split.
  - vm_compute. do 17 right. left. reflexivity.
  - vm_compute. intros H.
    repeat (destruct H as [H|H]; [discriminate H|]). exact H.
Qed.

(** C10 — with no unpaid match the payout list is empty, [chunks] yields
    no chunk, and the run completes at once: no call to the oracle or the
    node, no event, no error. *)
Theorem empty_batch_is_noop (node : Node) (fuel : nat) (real : bool)
    (c : Calls) :
  full_payouts_mapping [] = []
  /\ chunks (full_payouts_mapping []) 120 = Done []
  /\ set_payouts node fuel real [] c
     = {| outcome := Done tt; calls := c; trace := [] |}.
Proof. repeat split. Qed.

(** C1, as stated, fails — in the run below the second rebuild after an
    "underpriced" rejection keeps the gas price of the failed attempt
    (1.6 gwei twice), and the third one lowers it (to 0.8 gwei) because the
    oracle's recommendation has dropped. *)
Lemma gas_price_not_increasing :
  let T := trace (set_payouts Scenario.congested 5 true [Scenario.grant 1]
                    no_calls) in
  (exists A s msg e1 e2 e3 tx B,
      T = A ++ EvSend 0 s (Rejected msg) :: e1 :: e2 :: e3 :: EvSign 0 tx :: B
      /\ Py.contains UNDERPRICED msg = true
      /\ gasPrice (args tx) = gasPrice (args (rawTransaction s)))
  /\ (exists A s msg e1 e2 e3 tx B,
        T = A ++ EvSend 0 s (Rejected msg) :: e1 :: e2 :: e3 :: EvSign 0 tx :: B
        /\ Py.contains UNDERPRICED msg = true
        /\ gasPrice (args tx) < gasPrice (args (rawTransaction s))).
Proof.
  cbv zeta. vm_compute trace. split.
  - eexists [_; _; _; _; _; _; _; _], _, _, _, _, _, _, _.
    split; [reflexivity|]. split; vm_compute; reflexivity.
  - eexists [_; _; _; _; _; _; _; _; _; _; _; _; _], _, _, _, _, _, _, _.
    split; [reflexivity|]. split; vm_compute; reflexivity.
Qed.

(** C1, amended — while the oracle keeps recommending the same price [r],
    with [p0 = int(r * 10**9 * 1.4) <= p1 = int(r * 10**9 * 1.6)], no rebuild
    lowers the gas price; a rebuild after an "underpriced" rejection prices
    the transaction at [p1], which is a strict increase exactly when the
    rejected transaction still carried [p0] and [p0 < p1], that is on the
    first such rebuild only. *)
Theorem steady_oracle_gas_price (node : Node) (r : float) (p0 p1 : Z)
    (fuel : nat) (real : bool) (unpaid : list CLRMatch) (c : Calls)
    (A : list Event) (i : nat) (s : SignedTransaction) (msg : string)
    (e1 e2 e3 : Event) (j : nat) (tx : Transaction) (B : list Event) :
  (forall k, recommend_min_gas_price_to_confirm_in_time node k = r) ->
  Gas.to_wei r Gas.mult_initial = Done p0 ->
  Gas.to_wei r Gas.mult_bumped = Done p1 ->
  p0 <= p1 ->
  trace (set_payouts node fuel real unpaid c)
  = A ++ EvSend i s (Rejected msg) :: e1 :: e2 :: e3 :: EvSign j tx :: B ->
  gasPrice (args (rawTransaction s)) <= gasPrice (args tx)
  /\ (Py.contains UNDERPRICED msg = true ->
      gasPrice (args tx) = p1
      /\ (gasPrice (args (rawTransaction s)) < gasPrice (args tx)
          <-> gasPrice (args (rawTransaction s)) = p0 /\ p0 < p1)).
Proof.
  intros Hsteady H0 H1 Hle HT.
  pose proof (set_payouts_priced node r p0 p1 Hsteady H0 H1 fuel real unpaid c)
    as Hpr.
  rewrite HT, Forall_forall in Hpr.
  assert (Hs : gasPrice (args (rawTransaction s)) = p0
               \/ gasPrice (args (rawTransaction s)) = p1).
  { apply (Hpr (EvSend i s (Rejected msg))), in_elt. }
  pose proof (set_payouts_rejection _ _ _ _ _ _ _ _ _ _ HT) as H.
  cbn [after_rejection] in H.
  destruct (Py.contains UNDERPRICED msg).
  - destruct H as (counter & r' & B1 & [= -> -> -> <-] & H).
    assert (r' = r) as ->.
    { apply (Hpr (EvRecommendGas r')). apply in_or_app. right.
      do 3 right. left. reflexivity. }
    rewrite H1 in H. destruct H as (B2 & [= -> -> ->] & _).
    cbn [repriced buildTransaction args gasPrice]. split; [lia|].
    intros _. split; [reflexivity | lia].
  - destruct (Py.contains NONCE_TOO_LOW msg).
    + destruct H as (counter & n & B2 & [= -> -> -> -> -> ->] & _).
      cbn [renonced buildTransaction args gasPrice]. split; [lia|].
      discriminate.
    + destruct H as [[=] _].
Qed.

Lemma steady_oracle_gas_price_witness :
  let T := trace (set_payouts Scenario.underpriced_twice 5 true
                    [Scenario.grant 1] no_calls) in
  exists s tx,
    nth_error T 8 = Some (EvSend 0 s (Rejected UNDERPRICED))
    /\ nth_error T 12 = Some (EvSign 0 tx)
    /\ gasPrice (args (rawTransaction s)) <= gasPrice (args tx)
    /\ (Py.contains UNDERPRICED UNDERPRICED = true ->
        gasPrice (args tx) = 1600000000
        /\ (gasPrice (args (rawTransaction s)) < gasPrice (args tx)
            <-> gasPrice (args (rawTransaction s)) = 1400000000
                /\ 1400000000 < 1600000000)).
Proof.
  eexists _, _. split; [reflexivity|]. split; [reflexivity|].
  refine (steady_oracle_gas_price Scenario.underpriced_twice 1%float
            1400000000 1600000000 5 true [Scenario.grant 1] no_calls
            [_; _; _; _; _; _; _; _] 0 _ UNDERPRICED _ _ _ 0 _ _
            (fun _ => eq_refl) eq_refl eq_refl _ eq_refl).
  lia.
Defined.


(** C5, as stated, fails — a rejection whose message contains "nonce too
    low" and also "replacement transaction underpriced" takes the first
    branch of the [if]: the transaction is rebuilt with the nonce of the
    failed attempt and the node is never asked for the count again. *)
Lemma nonce_reused_when_both_causes :
  let T := trace (set_payouts Scenario.both_causes 5 true [Scenario.grant 1]
                    no_calls) in
  exists A s msg e1 e2 e3 tx B,
    T = A ++ EvSend 0 s (Rejected msg) :: e1 :: e2 :: e3 :: EvSign 0 tx :: B
    /\ Py.contains NONCE_TOO_LOW msg = true
    /\ nonce (args tx) = nonce (args (rawTransaction s))
    /\ fetched_counts (e1 :: e2 :: e3 :: EvSign 0 tx :: B) = [].
Proof.
  eexists [_; _; _], _, _, _, _, _, _, _.
  split; [reflexivity|]. repeat split.
Qed.

(** C5, amended — after a rejection whose message contains "nonce too low"
    and does not contain "replacement transaction underpriced", the loop
    prints, sleeps 15 seconds, asks the node for the transaction count
    again (the node's next unused answer) and signs a rebuilt transaction
    whose nonce is that answer; then it is back at the broadcast. *)
Theorem stale_nonce_refetched (node : Node) (fuel : nat) (real : bool)
    (unpaid : list CLRMatch) (c : Calls) (A : list Event) (i : nat)
    (s : SignedTransaction) (msg : string) (B : list Event) :
  trace (set_payouts node fuel real unpaid c)
  = A ++ EvSend i s (Rejected msg) :: B ->
  Py.contains UNDERPRICED msg = false ->
  Py.contains NONCE_TOO_LOW msg = true ->
  exists counter n B',
    B = EvPrint (retry_line NONCE_TOO_LOW counter) :: EvSleep 15
          :: EvGetTransactionCount n :: EvSign i (renonced s n) :: B'
    /\ n = getTransactionCount node (count_calls c + length (fetched_counts A))
    /\ nonce (args (renonced s n)) = n
    /\ resumes i (signTransaction (renonced s n)) B'
         (status (outcome (set_payouts node fuel real unpaid c))).
Proof.
  intros HT Hu Hn.
  pose proof (set_payouts_rejection _ _ _ _ _ _ _ _ _ _ HT) as H.
  cbn [after_rejection] in H. rewrite Hu, Hn in H.
  destruct H as (counter & n & B' & -> & Hres).
  exists counter, n, B'. split; [reflexivity|]. split; [|split; [reflexivity | exact Hres]].
  change (A ++ EvSend i s (Rejected msg)
            :: EvPrint (retry_line NONCE_TOO_LOW counter)
            :: EvSleep WAIT_TIME_BETWEEN_TXS :: EvGetTransactionCount n
            :: EvSign i (renonced s n) :: B')
    with (A ++ [EvSend i s (Rejected msg);
                EvPrint (retry_line NONCE_TOO_LOW counter);
                EvSleep WAIT_TIME_BETWEEN_TXS]
            ++ EvGetTransactionCount n :: EvSign i (renonced s n) :: B') in HT.
  rewrite app_assoc in HT. apply set_payouts_fetch in HT.
  rewrite fetched_counts_app, length_app in HT. cbn in HT.
  rewrite Nat.add_0_r in HT. exact HT.
Qed.

Lemma stale_nonce_refetched_witness :
  exists counter n B',
    skipn 4 (trace (set_payouts Scenario.stale_nonce 5 true [Scenario.grant 1]
                      no_calls))
    = EvPrint (retry_line NONCE_TOO_LOW counter) :: EvSleep 15
        :: EvGetTransactionCount n
        :: EvSign 0
             (renonced
                (signTransaction
                   (buildTransaction (full_payouts_mapping [Scenario.grant 1])
                      {| nonce := 7; gas := 8000000;
                         gasPrice := 1400000000 |})) n)
        :: B'
    /\ n = getTransactionCount Scenario.stale_nonce
             (count_calls no_calls
              + length (fetched_counts
                          (firstn 3 (trace (set_payouts Scenario.stale_nonce 5
                                              true [Scenario.grant 1]
                                              no_calls)))))
    /\ nonce (args
                (renonced
                   (signTransaction
                      (buildTransaction
                         (full_payouts_mapping [Scenario.grant 1])
                         {| nonce := 7; gas := 8000000;
                            gasPrice := 1400000000 |})) n)) = n
    /\ resumes 0
         (signTransaction
            (renonced
               (signTransaction
                  (buildTransaction (full_payouts_mapping [Scenario.grant 1])
                     {| nonce := 7; gas := 8000000;
                        gasPrice := 1400000000 |})) n)) B'
         (status (outcome (set_payouts Scenario.stale_nonce 5 true
                             [Scenario.grant 1] no_calls))).
Proof.
  apply (stale_nonce_refetched Scenario.stale_nonce 5 true [Scenario.grant 1]
           no_calls _ 0 _ NONCE_TOO_LOW); reflexivity.
Defined.

(** The stale-nonce run: nonce 7 is rejected, nonce 8 is fetched and used. *)
Example stale_nonce_run :
  map (fun e => match e with
                | EvSend _ s _ => nonce (args (rawTransaction s))
                | _ => -1
                end)
      (filter (fun e => match e with EvSend _ _ _ => true | _ => false end)
         (trace (set_payouts Scenario.stale_nonce 5 true [Scenario.grant 1]
                   no_calls)))
  = [7; 8].
Proof. reflexivity. Qed.

(** C6 — every transaction built for chunk [i], first build or rebuild,
    has gas limit 8,000,000 and the [i]-th chunk as payload; the rebuild
    that follows a rejection matching "replacement transaction underpriced"
    keeps the nonce of the rejected transaction and takes its gas price
    from a fresh recommendation; the rebuild that follows a "nonce too low"
    rejection keeps the gas price and takes its nonce from a fresh count. *)
Theorem rebuild_revises_nonce_or_price_only (node : Node) (fuel : nat)
    (real : bool) (unpaid : list CLRMatch) (c : Calls) :
  exists chunked,
    chunks (full_payouts_mapping unpaid) 120 = Done chunked
    /\ (forall i tx,
          In (EvSign i tx) (trace (set_payouts node fuel real unpaid c)) ->
          gas (args tx) = 8000000 /\ nth_error chunked i = Some (payload tx))
    /\ (forall A i s msg e1 e2 e3 j tx B,
          trace (set_payouts node fuel real unpaid c)
          = A ++ EvSend i s (Rejected msg)
              :: e1 :: e2 :: e3 :: EvSign j tx :: B ->
          j = i
          /\ payload tx = payload (rawTransaction s)
          /\ gas (args tx) = gas (args (rawTransaction s))
          /\ if Py.contains UNDERPRICED msg then
               nonce (args tx) = nonce (args (rawTransaction s))
               /\ exists r, e3 = EvRecommendGas r
                            /\ Gas.to_wei r Gas.mult_bumped
                               = Done (gasPrice (args tx))
             else
               gasPrice (args tx) = gasPrice (args (rawTransaction s))
               /\ e3 = EvGetTransactionCount (nonce (args tx))).
Proof.
  destruct (chunks_120 (full_payouts_mapping unpaid)) as (chunked & Hch & _).
  exists chunked. split; [exact Hch|]. split.
  - intros i tx Hin. eapply set_payouts_builds; eassumption.
  - intros A i s msg e1 e2 e3 j tx B HT.
    pose proof (set_payouts_rejection _ _ _ _ _ _ _ _ _ _ HT) as H.
    cbn [after_rejection] in H.
    destruct (Py.contains UNDERPRICED msg).
    + destruct H as (counter & r & B1 & [= -> -> -> <-] & H).
      destruct (Gas.to_wei r Gas.mult_bumped) as [price|exn|] eqn:Hwei;
        [|destruct H as [[=] _] | contradiction].
      destruct H as (B2 & [= -> -> ->] & _).
      cbn. repeat split; try reflexivity. exists r. auto.
    + destruct (Py.contains NONCE_TOO_LOW msg).
      * destruct H as (counter & n & B2 & [= -> -> -> -> -> ->] & _).
        cbn. repeat split; reflexivity.
      * destruct H as [[=] _].
Qed.

(** The two kinds of rebuild on concrete runs: what changes from the
    rejected transaction to the rebuilt one. *)
Example underpriced_rebuild_changes_price_only :
  map (fun e => match e with EvSign _ tx => args tx
                | _ => {| nonce := 0; gas := 0; gasPrice := 0 |} end)
      (filter (fun e => match e with EvSign _ _ => true | _ => false end)
         (trace (set_payouts Scenario.underpriced_twice 5 true
                   [Scenario.grant 1] no_calls)))
  = [ {| nonce := 7; gas := 8000000; gasPrice := 1400000000 |};
      {| nonce := 7; gas := 8000000; gasPrice := 1600000000 |};
      {| nonce := 7; gas := 8000000; gasPrice := 1600000000 |} ].
Proof. reflexivity. Qed.

Example stale_nonce_rebuild_changes_nonce_only :
  map (fun e => match e with EvSign _ tx => args tx
                | _ => {| nonce := 0; gas := 0; gasPrice := 0 |} end)
      (filter (fun e => match e with EvSign _ _ => true | _ => false end)
         (trace (set_payouts Scenario.stale_nonce 5 true
                   [Scenario.grant 1] no_calls)))
  = [ {| nonce := 7; gas := 8000000; gasPrice := 1400000000 |};
      {| nonce := 8; gas := 8000000; gasPrice := 1400000000 |} ].
Proof. reflexivity. Qed.

(** Gas, nonce and price of every build, with the price as [Gas.to_wei]
    gives it. *)
Lemma builds_priced_by_to_wei (node : Node) (fuel : nat)
    (real : bool) (unpaid : list CLRMatch) (c : Calls) :
  (forall i tx,
      In (EvSign i tx) (trace (set_payouts node fuel real unpaid c)) ->
      gas (args tx) = 8000000)
  /\ (forall chunk pm c',
        exists B1,
          trace (set_chunk node fuel chunk pm c')
          = EvGetTransactionCount (getTransactionCount node (count_calls c'))
              :: EvRecommendGas
                   (recommend_min_gas_price_to_confirm_in_time node
                      (gas_calls c'))
              :: B1)
  /\ (forall A n r B,
        trace (set_payouts node fuel real unpaid c)
        = A ++ EvGetTransactionCount n :: EvRecommendGas r :: B ->
        match Gas.to_wei r Gas.mult_initial with
        | Done price =>
            exists chunk pm B',
              B = EvSign chunk
                    (buildTransaction pm
                       {| nonce := n; gas := 8000000; gasPrice := price |})
                  :: B'
        | Raised e =>
            B = []
            /\ outcome (set_payouts node fuel real unpaid c) = Raised e
        | OutOfFuel => False
        end)
  /\ (forall A i s msg B,
        trace (set_payouts node fuel real unpaid c)
        = A ++ EvSend i s (Rejected msg) :: B ->
        Py.contains UNDERPRICED msg = true ->
        exists counter r B1,
          B = EvPrint (retry_line UNDERPRICED counter) :: EvSleep 15
                :: EvRecommendGas r :: B1
          /\ match Gas.to_wei r Gas.mult_bumped with
             | Done price => exists B2, B1 = EvSign i (repriced s price) :: B2
             | Raised e =>
                 B1 = []
                 /\ outcome (set_payouts node fuel real unpaid c) = Raised e
             | OutOfFuel => False
             end).
Proof.
  split; [|split; [|split]].
  - intros i tx Hin.
    destruct (chunks_120 (full_payouts_mapping unpaid)) as (chunked & Hch & _).
    eapply set_payouts_builds; eassumption.
  - intros chunk pm c'.
    destruct (set_chunk_head node fuel chunk pm c') as (B1 & HT & _).
    exists B1. exact HT.
  - intros A n r B HT.
    pose proof (every_suffix_split _ _ _
                  (set_payouts_after_count node fuel real unpaid c) A _ HT) as H.
    cbn [after_count] in H.
    destruct H as [(chunk & tx & B' & [=])|(r' & B1 & [= <- <-] & H)].
    destruct (Gas.to_wei r Gas.mult_initial) as [price|exn|]; [exact H| |exact H].
    destruct H as [-> Hst]. split; [reflexivity | apply status_failed, Hst].
  - intros A i s msg B HT Hu.
    pose proof (set_payouts_rejection _ _ _ _ _ _ _ _ _ _ HT) as H.
    cbn [after_rejection] in H. rewrite Hu in H.
    destruct H as (counter & r & B1 & -> & H).
    exists counter, r, B1. split; [reflexivity|].
    destruct (Gas.to_wei r Gas.mult_bumped) as [price|exn|]; [| |exact H].
    + destruct H as (B2 & -> & _). exists B2. reflexivity.
    + destruct H as [-> Hst]. split; [reflexivity | apply status_failed, Hst].
Qed.

(** C9, as stated, fails — for the recommendation 2.7 the first
    transaction of the run carries the gas price 3779999999, one wei less
    than 2.7 times [10^9] times 1.4 truncated to an integer, which is
    3780000000 whether the factors are read as decimals or as the exact
    values of the floats the code multiplies: the two products of line 237
    are binary64 products, each rounded. *)
Lemma gas_price_is_not_exact_product :
  let r := 0x1.599999999999ap+1%float in
  let T := trace (set_payouts Prices.fractional 3 false [Scenario.grant 1]
                    no_calls) in
  (exists n pm B,
      T = EvGetTransactionCount n :: EvRecommendGas r
            :: EvSign 0 (buildTransaction pm
                           {| nonce := n; gas := 8000000;
                              gasPrice := 3779999999 |})
            :: B)
  /\ exact_to_wei (27 # 10) (14 # 10) = 3780000000
  /\ match float_value r, float_value Gas.mult_initial with
     | Some qr, Some qm =>
         Qeq_bool qr (27 # 10) = false
         /\ exact_to_wei qr qm = 3780000000
         /\ exact_to_wei qr (14 # 10) = 3780000000
     | _, _ => False
     end.
Proof.
  cbv zeta. split; [|split].
  - vm_compute trace. eexists _, _, _. reflexivity.
  - vm_compute. reflexivity.
  - vm_compute. repeat split.
Qed.

Lemma int_of_float_truncates (f : float) (s : bool) (m : positive) (e : Z) :
  Prim2SF f = S754_finite s m e ->
  Gas.int_of_float f
  = Done (Z.quot ((if s then -1 else 1) * (Zpos m * 2 ^ Z.max e 0))
                 (2 ^ Z.max (- e) 0)).
Proof.
  intro H. unfold Gas.int_of_float. rewrite H. f_equal.
  destruct (Z.leb_spec 0 e) as [He|He].
  - rewrite (Z.max_l e 0), (Z.max_r (- e) 0) by lia.
    change (2 ^ 0) with 1. rewrite Z.quot_1_r, Z.shiftl_mul_pow2 by lia.
    destruct s; lia.
  - rewrite (Z.max_r e 0), (Z.max_l (- e) 0) by lia.
    change (2 ^ 0) with 1. rewrite Z.mul_1_r, Z.shiftr_div_pow2 by lia.
    assert (Hp : 0 < 2 ^ (- e)) by (apply Z.pow_pos_nonneg; lia).
    destruct s.
    + replace (-1 * Z.pos m) with (- Z.pos m) by lia.
      rewrite Z.quot_opp_l by lia.
      rewrite Z.quot_div_nonneg by lia. reflexivity.
    + rewrite Z.mul_1_l. rewrite Z.quot_div_nonneg by lia. reflexivity.
Qed.

(** C9, amended — every transaction the run builds has gas limit 8,000,000
    whatever the chunk; a cycle starts by fetching the nonce [n] and the
    recommendation [r], and the transaction built right after them carries
    [n] and the gas price [int(r * 10**9 * 1.4)]; the transaction rebuilt
    after a rejection matching "replacement transaction underpriced"
    carries [int(r' * 10**9 * 1.6)] for the recommendation [r'] fetched for
    that rebuild.  The two products are binary64 products, each rounded to
    nearest, and [int] truncates a finite float toward zero: for the
    recommendation 2.7 the two prices are 3779999999 and 4320000000, and
    for 1 they are 1400000000 and 1600000000. *)
Theorem builds_use_fixed_gas_and_multipliers (node : Node) (fuel : nat)
    (real : bool) (unpaid : list CLRMatch) (c : Calls) :
  let price_of := fun (r mult : float) =>
    Gas.int_of_float (PrimFloat.mul (PrimFloat.mul r 1e9%float) mult) in
  let initial := 0x1.6666666666666p+0%float in
  let bumped := 0x1.999999999999ap+0%float in
  (forall i tx,
      In (EvSign i tx) (trace (set_payouts node fuel real unpaid c)) ->
      gas (args tx) = 8000000)
  /\ (forall chunk pm c',
        exists B1,
          trace (set_chunk node fuel chunk pm c')
          = EvGetTransactionCount (getTransactionCount node (count_calls c'))
              :: EvRecommendGas
                   (recommend_min_gas_price_to_confirm_in_time node
                      (gas_calls c'))
              :: B1)
  /\ (forall A n r B,
        trace (set_payouts node fuel real unpaid c)
        = A ++ EvGetTransactionCount n :: EvRecommendGas r :: B ->
        match price_of r initial with
        | Done price =>
            exists chunk pm B',
              B = EvSign chunk
                    (buildTransaction pm
                       {| nonce := n; gas := 8000000; gasPrice := price |})
                  :: B'
        | Raised e =>
            B = []
            /\ outcome (set_payouts node fuel real unpaid c) = Raised e
        | OutOfFuel => False
        end)
  /\ (forall A i s msg B,
        trace (set_payouts node fuel real unpaid c)
        = A ++ EvSend i s (Rejected msg) :: B ->
        Py.contains UNDERPRICED msg = true ->
        exists counter r B1,
          B = EvPrint (retry_line UNDERPRICED counter) :: EvSleep 15
                :: EvRecommendGas r :: B1
          /\ match price_of r bumped with
             | Done price => exists B2, B1 = EvSign i (repriced s price) :: B2
             | Raised e =>
                 B1 = []
                 /\ outcome (set_payouts node fuel real unpaid c) = Raised e
             | OutOfFuel => False
             end)
  /\ (forall f s m e,
        Prim2SF f = S754_finite s m e ->
        Gas.int_of_float f
        = Done (Z.quot ((if s then -1 else 1) * (Zpos m * 2 ^ Z.max e 0))
                       (2 ^ Z.max (- e) 0)))
  /\ price_of 0x1.599999999999ap+1%float initial = Done 3779999999
  /\ price_of 0x1.599999999999ap+1%float bumped = Done 4320000000
  /\ price_of 1%float initial = Done 1400000000
  /\ price_of 1%float bumped = Done 1600000000.
Proof.
  cbv zeta.
  destruct (builds_priced_by_to_wei node fuel real unpaid c)
    as (Hgas & Hhead & Hinit & Hbump).
  unfold Gas.to_wei, Gas.giga, Gas.mult_initial, Gas.mult_bumped
    in Hinit, Hbump.
  split; [exact Hgas|]. split; [exact Hhead|]. split; [exact Hinit|].
  split; [exact Hbump|]. split; [exact int_of_float_truncates|].
  repeat split; vm_compute; reflexivity.
Qed.




(** ** The confirmation poll on its own *)

Section PollFacts.

Variable node : Node.

Lemma wait_mined_lands fuel chunk tx_id : forall j c,
  (j < fuel)%nat ->
  has_tx_mined node (mined_calls c + j) = true ->
  (forall k, (k < j)%nat -> has_tx_mined node (mined_calls c + k) = false) ->
  wait_mined node fuel chunk tx_id c
  = {| outcome := Done tt;
       calls := {| gas_calls := gas_calls c; count_calls := count_calls c;
                   send_calls := send_calls c;
                   mined_calls := S (mined_calls c + j) |};
       trace := pending_polls chunk tx_id j ++ [EvHasMined chunk tx_id true] |}.
Proof.
  induction fuel as [|fuel IH]; intros j c Hj Hmined Hnot; [lia|].
  rewrite wait_mined_unfold. destruct j as [|j].
  - rewrite Nat.add_0_r in Hmined. rewrite Hmined.
    unfold used_mined. rewrite Nat.add_0_r. reflexivity.
  - replace (has_tx_mined node (mined_calls c))
      with false by (rewrite <- (Hnot 0%nat) by lia; f_equal; lia).
    rewrite (IH j (used_mined c)).
    + unfold prepend. cbn [outcome calls trace used_mined gas_calls count_calls
                             send_calls mined_calls pending_polls app].
      replace (S (mined_calls c) + j)%nat with (mined_calls c + S j)%nat by lia.
      reflexivity.
    + lia.
    + cbn [used_mined mined_calls]. rewrite <- Hmined. f_equal. lia.
    + intros k Hk. cbn [used_mined mined_calls].
      rewrite <- (Hnot (S k)) by lia. f_equal. lia.
Qed.

Lemma wait_mined_never fuel chunk tx_id : forall c,
  (forall k, (mined_calls c <= k)%nat -> has_tx_mined node k = false) ->
  outcome (wait_mined node fuel chunk tx_id c) = OutOfFuel
  /\ trace (wait_mined node fuel chunk tx_id c)
     = pending_polls chunk tx_id fuel.
Proof.
  induction fuel as [|fuel IH]; intros c Hnot; [split; reflexivity|].
  rewrite wait_mined_unfold, (Hnot (mined_calls c)) by lia.
  destruct (IH (used_mined c)) as [Ho Ht].
  { intros k Hk. apply Hnot. cbn in Hk. lia. }
  cbn [prepend outcome trace pending_polls app]. rewrite Ho, Ht. auto.
Qed.

End PollFacts.

(** ** The for-body, unfolded *)

Lemma every_suffix_intro (W : Window) (T : list Event) (st : Status) :
  (forall A B, T = A ++ B -> W B st) -> every_suffix W T st.
Proof.
  induction T as [|e T IH]; intros H.
  - split; [apply (H [] []); reflexivity | exact I].
  - split; [apply (H [] (e :: T)); reflexivity|].
    apply IH. intros A B ->. apply (H (e :: A) B). reflexivity.
Qed.

Section BodyFacts.

Variable node : Node.

Lemma set_chunk_unfold fuel chunk pm c :
  set_chunk node fuel chunk pm c =
  let n := getTransactionCount node (count_calls c) in
  let r := recommend_min_gas_price_to_confirm_in_time node (gas_calls c) in
  match Gas.to_wei r Gas.mult_initial with
  | Done price =>
      let ta := {| nonce := n; gas := 8000000; gasPrice := price |} in
      prepend [EvGetTransactionCount n; EvRecommendGas r;
               EvSign chunk (buildTransaction pm ta)]
        (bind (broadcast_loop node fuel chunk pm ta
                 (signTransaction (buildTransaction pm ta)) 0)
              (confirm node fuel chunk) (used_gas (used_count c)))
  | Raised e =>
      {| outcome := Raised e; calls := used_gas (used_count c);
         trace := [EvGetTransactionCount n; EvRecommendGas r] |}
  | OutOfFuel =>
      {| outcome := OutOfFuel; calls := used_gas (used_count c);
         trace := [EvGetTransactionCount n; EvRecommendGas r] |}
  end.
Proof.
  unfold set_chunk, fetch_gas_price, build_and_sign.
  unfold bind at 1 2 3 4 5.
  cbn [get_transaction_count recommend_gas lift emit ret outcome calls trace
       used_count gas_calls app].
  cbv zeta.
  destruct (Gas.to_wei _ Gas.mult_initial) as [price|exn|];
    cbn [outcome calls trace app]; try reflexivity.
Qed.

Lemma confirm_events fuel chunk tx_id c :
  Forall (fun e => ~ is_send e /\ ~ is_db_write e
                   /\ fetched_counts [e] = [])
         (trace (confirm node fuel chunk tx_id c)).
Proof.
  unfold confirm. destruct (String.eqb tx_id ""); [constructor|].
  apply Forall_trace_bind.
  - eapply Forall_impl; [|apply wait_mined_events].
    intros e [b [->| ->]]; cbn; tauto.
  - intros _ _. repeat constructor; cbn; tauto.
Qed.

Lemma confirm_head fuel chunk tx_id c :
  if String.eqb tx_id "" then
    trace (confirm node fuel chunk tx_id c) = []
    /\ outcome (confirm node fuel chunk tx_id c) = Raised CannotSetMapping
  else
    (trace (confirm node fuel chunk tx_id c) = []
     /\ outcome (confirm node fuel chunk tx_id c) = OutOfFuel)
    \/ exists mined B',
         trace (confirm node fuel chunk tx_id c)
         = EvHasMined chunk tx_id mined :: B'.
Proof.
  unfold confirm.
  destruct (String.eqb tx_id ""); [split; reflexivity|].
  destruct fuel as [|fuel]; [left; split; reflexivity|].
  right. rewrite trace_bind, wait_mined_unfold.
  destruct (has_tx_mined node (mined_calls c)); eexists _, _; reflexivity.
Qed.

(** An accepted broadcast ends the retry loop. *)
Lemma broadcast_loop_accept_last fuel chunk pm :
  forall ta sg counter c A j s tx_id B,
  trace (broadcast_loop node fuel chunk pm ta sg counter c)
  = A ++ EvSend j s (Accepted tx_id) :: B ->
  B = [] /\ j = chunk
  /\ outcome (broadcast_loop node fuel chunk pm ta sg counter c) = Done tx_id.
Proof.
  induction fuel as [|fuel IH]; intros ta sg counter c A j s tx_id B HT.
  - destruct A; discriminate.
  - rewrite broadcast_loop_unfold in *.
    destruct (sendRawTransaction node (send_calls c)) as [t|msg].
    + cbn [trace outcome] in *.
      destruct A as [|? [|? ?]]; try discriminate.
      injection HT as <- <- <- <-. auto.
    + destruct (Py.contains UNDERPRICED msg).
      * cbv zeta in *.
        destruct (Gas.to_wei _ Gas.mult_bumped) as [price|exn|];
          cbn [prepend trace outcome app] in *.
        -- destruct A as [|? [|? [|? [|? [|? A]]]]]; try discriminate.
           injection HT as _ _ _ _ _ HT. exact (IH _ _ _ _ _ _ _ _ _ HT).
        -- destruct A as [|? [|? [|? [|? [|? A]]]]]; discriminate.
        -- destruct A as [|? [|? [|? [|? [|? A]]]]]; discriminate.
      * destruct (Py.contains NONCE_TOO_LOW msg);
          cbn [prepend trace outcome app] in *.
        -- destruct A as [|? [|? [|? [|? [|? A]]]]]; try discriminate.
           injection HT as _ _ _ _ _ HT. exact (IH _ _ _ _ _ _ _ _ _ HT).
        -- destruct A as [|? [|? ?]]; discriminate.
Qed.

Lemma extensible_after_accept : extensible after_accept.
Proof.
  intros e B st more st' H Hstop.
  destruct e; try exact I. destruct res as [tx_id|msg]; [|exact I].
  cbn [after_accept] in *. destruct (String.eqb tx_id "").
  - destruct H as [-> ->]. destruct Hstop as [-> ->]; [discriminate|]. auto.
  - destruct H as [[-> ->]|(mined & B' & ->)].
    + destruct Hstop as [-> ->]; [discriminate|]. left. auto.
    + right. exists mined, (B' ++ more). reflexivity.
Qed.

Lemma after_accept_silent e B st : ~ is_send e -> after_accept (e :: B) st.
Proof. destruct e; cbn; intros H; try exact I. now elim H. Qed.

Lemma set_chunk_after_accept fuel chunk pm c :
  obeys after_accept (set_chunk node fuel chunk pm c).
Proof.
  rewrite set_chunk_unfold. cbv zeta.
  destruct (Gas.to_wei _ Gas.mult_initial) as [price|exn|];
    try (apply (obeys_silent _ (fun e => ~ is_send e));
         [apply after_accept_silent | intros st; exact I
          | repeat constructor; intros []]).
  apply obeys_prepend.
  2:{ intros A' B' Hevs HB.
      destruct A' as [|? [|? [|? [|? ?]]]]; try discriminate;
        cbn [app] in Hevs; inversion Hevs; subst;
        try contradiction; exact I. }
  apply every_suffix_intro. intros A B HT.
  destruct B as [|e B]; [exact I|].
  destruct e; try exact I. destruct res as [tx_id|msg]; [|exact I].
  rewrite trace_bind in HT. rewrite outcome_bind.
  apply app_eq_cons_split in HT as [(B1 & Hbl & ->)|(A2 & _ & Hrest)].
  - apply broadcast_loop_accept_last in Hbl as (-> & -> & Ho).
    rewrite Ho. cbn [app after_accept].
    match goal with
    | |- context [confirm node fuel chunk tx_id ?c0] =>
        pose proof (confirm_head fuel chunk tx_id c0) as Hc
    end.
    destruct (String.eqb tx_id "").
    + destruct Hc as [-> ->]. auto.
    + destruct Hc as [[-> ->]|(mined & B' & ->)]; [left; auto|].
      right. exists mined, B'. reflexivity.
  - exfalso.
    destruct (outcome (broadcast_loop _ _ _ _ _ _ _ _)) as [t|exn|];
      try (destruct A2; discriminate).
    match type of Hrest with
    | trace (confirm node fuel chunk t ?c0) = _ =>
        pose proof (confirm_events fuel chunk t c0) as Hev
    end.
    rewrite Hrest, Forall_forall in Hev.
    destruct (Hev (EvSend chunk0 signed (Accepted tx_id))) as (Hs & _);
      [apply in_elt | apply Hs; exact I].
Qed.

Lemma for_chunks_after_accept fuel chunked : forall chunk tx_id c,
  obeys after_accept (for_chunks node fuel chunk chunked tx_id c).
Proof.
  induction chunked as [|pm rest IH]; intros chunk tx_id c;
    [split; exact I|].
  cbn [for_chunks].
  apply obeys_bind;
    [apply extensible_after_accept | apply set_chunk_after_accept |].
  intros t _. apply IH.
Qed.

Lemma set_payouts_after_accept fuel real unpaid c :
  obeys after_accept (set_payouts node fuel real unpaid c).
Proof.
  unfold set_payouts.
  apply obeys_bind; [apply extensible_after_accept | split; exact I |].
  intros chunked _.
  apply obeys_bind;
    [apply extensible_after_accept | apply for_chunks_after_accept |].
  intros tx_id _.
  apply (obeys_silent _ (fun e => ~ is_send e));
    [apply after_accept_silent | intros st; exact I |].
  eapply Forall_impl; [|apply update_database_events].
  intros e [m [->| ->]] [].
Qed.

End BodyFacts.

(** ** Signatures, accepted payloads, database writes *)

Lemma accepted_payloads_app (T1 T2 : list Event) :
  accepted_payloads (T1 ++ T2) = accepted_payloads T1 ++ accepted_payloads T2.
Proof.
  induction T1 as [|e T1 IH]; [reflexivity|].
  destruct e; cbn; try exact IH. destruct res; cbn; rewrite IH; reflexivity.
Qed.

Lemma accepted_payloads_quiet (T : list Event) :
  Forall (fun e => ~ is_send e) T -> accepted_payloads T = [].
Proof.
  induction 1 as [|e T He _ IH]; [reflexivity|].
  destruct e; cbn; try exact IH. elim He. exact I.
Qed.

Section SignFacts.

Variable node : Node.

Lemma extensible_after_sign : extensible after_sign.
Proof.
  intros e B st more st' H Hstop.
  destruct e; try exact I. cbn [after_sign] in *.
  destruct H as [[-> ->]|(res & B' & ->)].
  - destruct Hstop as [-> ->]; [discriminate|]. left. auto.
  - right. exists res, (B' ++ more). reflexivity.
Qed.

Lemma after_sign_silent e B st :
  (forall i tx, e <> EvSign i tx) -> after_sign (e :: B) st.
Proof. destruct e; cbn; intros H; try exact I. now elim (H chunk tx). Qed.

Lemma obeys_after_sign_silent {A : Type} (r : Run A) :
  Forall (fun e => forall i tx, e <> EvSign i tx) (trace r) ->
  obeys after_sign r.
Proof.
  apply obeys_silent; [apply after_sign_silent | intros st; exact I].
Qed.

Lemma broadcast_loop_after_sign fuel chunk pm : forall ta sg counter c,
  obeys after_sign (broadcast_loop node fuel chunk pm ta sg counter c).
Proof.
  induction fuel as [|fuel IH]; intros ta sg counter c; [split; exact I|].
  rewrite broadcast_loop_unfold.
  destruct (sendRawTransaction node (send_calls c)) as [tx_id|msg];
    [repeat split|].
  destruct (Py.contains UNDERPRICED msg).
  - cbv zeta. destruct (Gas.to_wei _ _) as [price|exn|];
      unfold obeys, prepend; cbn [trace outcome every_suffix app];
      repeat split; try exact I; [|apply IH].
    apply broadcast_loop_resumes.
  - destruct (Py.contains NONCE_TOO_LOW msg);
      unfold obeys, prepend; cbn [trace outcome every_suffix app];
      repeat split; try exact I; [|apply IH].
    apply broadcast_loop_resumes.
Qed.

Lemma confirm_after_sign fuel chunk tx_id c :
  obeys after_sign (confirm node fuel chunk tx_id c).
Proof.
  apply obeys_after_sign_silent.
  unfold confirm. destruct (String.eqb tx_id ""); [constructor|].
  apply Forall_trace_bind.
  - eapply Forall_impl; [|apply wait_mined_events].
    intros e [b [->| ->]]; discriminate.
  - intros _ _. repeat constructor; discriminate.
Qed.

Lemma set_chunk_after_sign fuel chunk pm c :
  obeys after_sign (set_chunk node fuel chunk pm c).
Proof.
  rewrite set_chunk_unfold. cbv zeta.
  destruct (Gas.to_wei _ Gas.mult_initial) as [price|exn|];
    try (apply obeys_after_sign_silent; repeat constructor; discriminate).
  assert (Hbody :
    obeys after_sign
      (bind (broadcast_loop node fuel chunk pm
               {| nonce := getTransactionCount node (count_calls c);
                  gas := 8000000; gasPrice := price |}
               (signTransaction
                  (buildTransaction pm
                     {| nonce := getTransactionCount node (count_calls c);
                        gas := 8000000; gasPrice := price |})) 0)
            (confirm node fuel chunk) (used_gas (used_count c)))).
  { apply obeys_bind;
      [apply extensible_after_sign | apply broadcast_loop_after_sign |].
    intros t _. apply confirm_after_sign. }
  apply obeys_prepend; [exact Hbody|].
  intros A' B' Hevs HB.
  destruct A' as [|? [|? [|? [|? ?]]]]; try discriminate;
    cbn [app] in Hevs; inversion Hevs; subst; try contradiction;
    try exact I.
  cbn [app after_sign]. rewrite trace_bind, outcome_bind.
  match goal with
  | |- context [broadcast_loop node fuel chunk pm ?ta ?sg 0 ?c0] =>
      pose proof (broadcast_loop_resumes node fuel chunk pm ta sg 0 c0) as Hr
  end.
  destruct Hr as [[Ht Ho]|(res & B' & Ht)].
  - left. rewrite Ht.
    destruct (outcome (broadcast_loop _ _ _ _ _ _ _ _)); try discriminate.
    auto.
  - right. rewrite Ht. eexists _, _. reflexivity.
Qed.

Lemma for_chunks_after_sign fuel chunked : forall chunk tx_id c,
  obeys after_sign (for_chunks node fuel chunk chunked tx_id c).
Proof.
  induction chunked as [|pm rest IH]; intros chunk tx_id c;
    [split; exact I|].
  cbn [for_chunks].
  apply obeys_bind; [apply extensible_after_sign | apply set_chunk_after_sign |].
  intros t _. apply IH.
Qed.

Lemma set_payouts_after_sign fuel real unpaid c :
  obeys after_sign (set_payouts node fuel real unpaid c).
Proof.
  unfold set_payouts.
  apply obeys_bind; [apply extensible_after_sign | split; exact I |].
  intros chunked _.
  apply obeys_bind; [apply extensible_after_sign | apply for_chunks_after_sign |].
  intros tx_id _. apply obeys_after_sign_silent.
  eapply Forall_impl; [|apply update_database_events].
  intros e [m [->| ->]]; discriminate.
Qed.

(** *** Accepted payloads *)

Lemma broadcast_loop_accepted fuel chunk pm : forall ta counter c,
  accepted_payloads
    (trace (broadcast_loop node fuel chunk pm ta
              (signTransaction (buildTransaction pm ta)) counter c))
  = match outcome (broadcast_loop node fuel chunk pm ta
                     (signTransaction (buildTransaction pm ta)) counter c) with
    | Done _ => [pm]
    | _ => []
    end.
Proof.
  induction fuel as [|fuel IH]; intros ta counter c; [reflexivity|].
  rewrite broadcast_loop_unfold.
  destruct (sendRawTransaction node (send_calls c)) as [tx_id|msg];
    [reflexivity|].
  destruct (Py.contains UNDERPRICED msg).
  - cbv zeta. destruct (Gas.to_wei _ _) as [price|exn|]; try reflexivity.
    cbn [prepend trace outcome app accepted_payloads]. apply IH.
  - destruct (Py.contains NONCE_TOO_LOW msg); try reflexivity.
    cbn [prepend trace outcome app accepted_payloads]. apply IH.
Qed.

Lemma confirm_accepted fuel chunk tx_id c :
  accepted_payloads (trace (confirm node fuel chunk tx_id c)) = [].
Proof.
  apply accepted_payloads_quiet.
  eapply Forall_impl; [|apply confirm_events]. intros e H. apply H.
Qed.

Lemma set_chunk_accepted fuel chunk pm c :
  match outcome (set_chunk node fuel chunk pm c) with
  | Done _ => accepted_payloads (trace (set_chunk node fuel chunk pm c)) = [pm]
  | _ => accepted_payloads (trace (set_chunk node fuel chunk pm c)) = []
            \/ accepted_payloads (trace (set_chunk node fuel chunk pm c)) = [pm]
  end.
Proof.
  rewrite set_chunk_unfold. cbv zeta.
  destruct (Gas.to_wei _ Gas.mult_initial) as [price|exn|];
    try (left; reflexivity).
  cbn [prepend outcome trace app accepted_payloads].
  rewrite outcome_bind, trace_bind, accepted_payloads_app,
    broadcast_loop_accepted.
  destruct (outcome (broadcast_loop _ _ _ _ _ _ _ _)) as [t|exn|];
    try (left; reflexivity).
  rewrite confirm_accepted.
  destruct (outcome (confirm _ _ _ _ _)); auto.
Qed.

(** The chunks accepted by the node are the first [k] chunks, each once
    and in order; all of them when the loop completes. *)
Lemma for_chunks_accepted fuel chunked : forall chunk tx_id c,
  exists k,
    accepted_payloads (trace (for_chunks node fuel chunk chunked tx_id c))
    = firstn k chunked
    /\ (forall r, outcome (for_chunks node fuel chunk chunked tx_id c) = Done r ->
                  k = length chunked).
Proof.
  induction chunked as [|pm rest IH]; intros chunk tx_id c.
  - exists 0%nat. split; [reflexivity | reflexivity].
  - rewrite for_chunks_unfold, trace_bind, outcome_bind, accepted_payloads_app.
    pose proof (set_chunk_accepted fuel chunk pm c) as Hc.
    destruct (outcome (set_chunk node fuel chunk pm c)) as [t|exn|].
    + destruct (IH (S chunk) (Some t) (calls (set_chunk node fuel chunk pm c)))
        as (k & Hk & Hdone).
      exists (S k). rewrite Hc, Hk. split; [reflexivity|].
      intros r Hr. cbn [length]. f_equal. eapply Hdone, Hr.
    + destruct Hc as [-> | ->]; [exists 0%nat | exists 1%nat];
        (split; [reflexivity | discriminate]).
    + destruct Hc as [-> | ->]; [exists 0%nat | exists 1%nat];
        (split; [reflexivity | discriminate]).
Qed.

End SignFacts.

(** ** Database writes *)

Section DatabaseFacts.

Variable node : Node.

Lemma set_chunk_result fuel chunk pm c t :
  outcome (set_chunk node fuel chunk pm c) = Done t -> String.eqb t "" = false.
Proof.
  rewrite set_chunk_unfold. cbv zeta.
  destruct (Gas.to_wei _ Gas.mult_initial) as [price|exn|]; try discriminate.
  cbn [prepend outcome]. rewrite outcome_bind.
  destruct (outcome (broadcast_loop _ _ _ _ _ _ _ _)) as [t'|exn|];
    try discriminate.
  unfold confirm. destruct (String.eqb t' "") eqn:He; [discriminate|].
  intros H. apply bind_done in H as (? & _ & H & _).
  apply bind_done in H as (? & _ & H & _).
  apply bind_done in H as (? & _ & H & _).
  apply bind_done in H as (? & _ & H & _).
  cbn in H. injection H as <-. exact He.
Qed.

Lemma for_chunks_result fuel chunked : forall chunk tx_id c r,
  outcome (for_chunks node fuel chunk chunked tx_id c) = Done r ->
  (chunked = [] /\ r = tx_id)
  \/ exists t, r = Some t /\ String.eqb t "" = false.
Proof.
  induction chunked as [|pm rest IH]; intros chunk tx_id c r Ho.
  - left. cbn in Ho. injection Ho as <-. auto.
  - right. rewrite for_chunks_unfold in Ho.
    apply bind_done in Ho as (t & Hc & Ho & _).
    apply set_chunk_result in Hc.
    apply IH in Ho as [[_ ->]|Ho]; [exists t; auto | exact Ho].
Qed.

Lemma for_chunks_no_db_write fuel chunked chunk tx_id c :
  Forall (fun e => ~ is_db_write e)
         (trace (for_chunks node fuel chunk chunked tx_id c)).
Proof.
  eapply Forall_impl; [|apply for_chunks_in_cycle].
  intros e (k & pm & _ & He) Hw. destruct e; cbn in *; contradiction.
Qed.

End DatabaseFacts.

(** * Further properties of the payout branch *)

(** After an accepted broadcast the next action is the confirmation poll
    for the id the node returned (the chunk is not broadcast again); when
    that id is the empty string the run raises 'Cannot set mapping'
    instead (lines 271-277). *)
Theorem accepted_broadcast_is_polled_next (node : Node) (fuel : nat)
    (real : bool) (unpaid : list CLRMatch) (c : Calls) (A : list Event)
    (i : nat) (s : SignedTransaction) (tx_id : string) (B : list Event) :
  trace (set_payouts node fuel real unpaid c)
  = A ++ EvSend i s (Accepted tx_id) :: B ->
  if String.eqb tx_id "" then
    B = []
    /\ outcome (set_payouts node fuel real unpaid c) = Raised CannotSetMapping
  else
    (B = [] /\ outcome (set_payouts node fuel real unpaid c) = OutOfFuel)
    \/ exists mined B', B = EvHasMined i tx_id mined :: B'.
Proof.
  intros HT.
  pose proof (every_suffix_split _ _ _
                (set_payouts_after_accept node fuel real unpaid c) A _ HT) as H.
  cbn [after_accept] in H. destruct (String.eqb tx_id "").
  - destruct H as [-> H]. split; [reflexivity | apply status_failed, H].
  - destruct H as [[-> H]|H]; [left | right; exact H].
    split; [reflexivity | apply status_diverging, H].
Qed.

Lemma accepted_broadcast_is_polled_next_witness :
  exists mined B',
    skipn 4 (trace (set_payouts Scenario.calm 3 true [Scenario.grant 1]
                      no_calls))
    = EvHasMined 0 "0xaaa" mined :: B'.
Proof.
  assert (HT :
    trace (set_payouts Scenario.calm 3 true [Scenario.grant 1] no_calls)
    = firstn 3 (trace (set_payouts Scenario.calm 3 true [Scenario.grant 1]
                         no_calls))
        ++ EvSend 0
             (signTransaction
                (buildTransaction (full_payouts_mapping [Scenario.grant 1])
                   {| nonce := 7; gas := 8000000; gasPrice := 1400000000 |}))
             (Accepted "0xaaa")
        :: skipn 4 (trace (set_payouts Scenario.calm 3 true [Scenario.grant 1]
                             no_calls)))
    by (vm_compute; reflexivity).
  pose proof (accepted_broadcast_is_polled_next _ _ _ _ _ _ _ _ _ _ HT) as H.
  cbn [String.eqb Ascii.eqb Bool.eqb] in H.
  destruct H as [[H _]|H]; [vm_compute in H; discriminate H | exact H].
Defined.

(** Every transaction the run signs is the one it broadcasts next: between
    a signature and the broadcast of that very transaction nothing
    happens, and no signed transaction is dropped (lines 241-248, 259,
    267). *)
Theorem signed_transaction_is_broadcast_next (node : Node) (fuel : nat)
    (real : bool) (unpaid : list CLRMatch) (c : Calls) (A : list Event)
    (i : nat) (tx : Transaction) (B : list Event) :
  trace (set_payouts node fuel real unpaid c) = A ++ EvSign i tx :: B ->
  (B = [] /\ outcome (set_payouts node fuel real unpaid c) = OutOfFuel)
  \/ exists res B', B = EvSend i (signTransaction tx) res :: B'.
Proof.
  intros HT.
  pose proof (every_suffix_split _ _ _
                (set_payouts_after_sign node fuel real unpaid c) A _ HT) as H.
  cbn [after_sign] in H. destruct H as [[-> H]|H]; [left | right; exact H].
  split; [reflexivity | apply status_diverging, H].
Qed.

Lemma signed_transaction_is_broadcast_next_witness :
  exists res B',
    skipn 3 (trace (set_payouts Scenario.stale_nonce 5 true [Scenario.grant 1]
                      no_calls))
    = EvSend 0
        (signTransaction
           (buildTransaction (full_payouts_mapping [Scenario.grant 1])
              {| nonce := 7; gas := 8000000; gasPrice := 1400000000 |}))
        res :: B'.
Proof.
  assert (HT :
    trace (set_payouts Scenario.stale_nonce 5 true [Scenario.grant 1] no_calls)
    = firstn 2 (trace (set_payouts Scenario.stale_nonce 5 true
                         [Scenario.grant 1] no_calls))
        ++ EvSign 0
             (buildTransaction (full_payouts_mapping [Scenario.grant 1])
                {| nonce := 7; gas := 8000000; gasPrice := 1400000000 |})
        :: skipn 3 (trace (set_payouts Scenario.stale_nonce 5 true
                             [Scenario.grant 1] no_calls)))
    by (vm_compute; reflexivity).
  pose proof (signed_transaction_is_broadcast_next _ _ _ _ _ _ _ _ _ HT) as H.
  destruct H as [[H _]|H]; [vm_compute in H; discriminate H | exact H].
Defined.

(** The chunks the node has accepted are, at any point, the first [k]
    chunks of the batch, each accepted once and in order; when the run
    completes they are all the chunks, so the accepted payloads put
    together are exactly the payout list (lines 227-248). *)
Theorem accepted_chunks_are_a_prefix (node : Node) (fuel : nat)
    (real : bool) (unpaid : list CLRMatch) (c : Calls) :
  exists chunked k,
    chunks (full_payouts_mapping unpaid) 120 = Done chunked
    /\ accepted_payloads (trace (set_payouts node fuel real unpaid c))
       = firstn k chunked
    /\ (outcome (set_payouts node fuel real unpaid c) = Done tt ->
        accepted_payloads (trace (set_payouts node fuel real unpaid c))
        = chunked
        /\ concat (accepted_payloads
                     (trace (set_payouts node fuel real unpaid c)))
           = full_payouts_mapping unpaid).
Proof.
  destruct (chunks_120 (full_payouts_mapping unpaid)) as (chunked & Hch & Hcat).
  destruct (for_chunks_accepted node fuel chunked 0 None c) as (k & Hk & Hdone).
  exists chunked, k. split; [exact Hch|].
  rewrite (set_payouts_unfold _ _ _ _ _ _ Hch), trace_bind, outcome_bind,
    accepted_payloads_app.
  assert (Hdb : forall tx c',
    accepted_payloads (trace (update_database real tx unpaid c')) = []).
  { intros tx c'. apply accepted_payloads_quiet.
    eapply Forall_impl; [|apply update_database_events].
    intros e [m [->| ->]] []. }
  destruct (outcome (for_chunks node fuel 0 chunked None c)) as [r|exn|];
    rewrite ?Hdb, ?app_nil_r, Hk; (split; [reflexivity|]); try discriminate.
  intros _. rewrite (Hdone r eq_refl), firstn_all. auto.
Qed.

(** No match is mailed or saved before every chunk has been accepted and
    the last one confirmed: whatever is written to the database comes
    after the accepted broadcast of the last chunk, the report that its
    transaction is mined and the closing sleep, and no transaction is
    broadcast in between (lines 227-285). *)
Theorem database_written_after_last_chunk (node : Node) (fuel : nat)
    (real : bool) (unpaid : list CLRMatch) (c : Calls) (A : list Event)
    (e : Event) (B : list Event) :
  trace (set_payouts node fuel real unpaid c) = A ++ e :: B ->
  is_db_write e ->
  exists chunked t A0 s polls A1,
    chunks (full_payouts_mapping unpaid) 120 = Done chunked
    /\ chunked <> []
    /\ accepted_payloads A = chunked
    /\ A = A0 ++ EvSend (length chunked - 1) s (Accepted t)
              :: polls ++ confirmed_tail (length chunked - 1) t ++ A1
    /\ Forall (fun e' => ~ is_send e') polls
    /\ Forall (fun e' => ~ is_send e') A1.
Proof.
  destruct (chunks_120 (full_payouts_mapping unpaid)) as (chunked & Hch & _).
  rewrite (set_payouts_unfold _ _ _ _ _ _ Hch), trace_bind.
  intros HT He.
  apply app_eq_cons_split in HT as [(B1 & HT & _)|(A1 & -> & HT)].
  { pose proof (for_chunks_no_db_write node fuel chunked 0 None c) as H.
    rewrite HT in H. apply Forall_app in H as [_ H].
    inversion H as [|? ? Hn _]; subst. elim (Hn He). }
  destruct (outcome (for_chunks node fuel 0 chunked None c)) as [r|exn|] eqn:Ho;
    [|destruct A1; cbn in HT; discriminate HT ..].
  assert (Hne : chunked <> []).
  { intros ->. cbn in Ho. injection Ho as <-.
    destruct unpaid; destruct A1; cbn in HT; discriminate HT. }
  destruct (for_chunks_done node fuel chunked 0 None c r Ho Hne)
    as (t & A0 & s & polls & -> & HTf & Hpolls).
  destruct (for_chunks_accepted node fuel chunked 0 None c) as (k & Hk & Hdone).
  pose proof (update_database_events real (Some t) unpaid
                (calls (for_chunks node fuel 0 chunked None c))) as Hev.
  rewrite HT in Hev. apply Forall_app in Hev as [Hev _].
  exists chunked, t, A0, s, polls, A1.
  split; [exact Hch|]. split; [exact Hne|]. split; [|split; [|split]].
  - rewrite accepted_payloads_app, Hk, (Hdone _ Ho), firstn_all.
    rewrite (accepted_payloads_quiet A1); [apply app_nil_r|].
    eapply Forall_impl; [|exact Hev].
    intros e' [m [->| ->]] [].
  - rewrite HTf. cbn [Nat.add]. rewrite <- !app_assoc. cbn [app].
    rewrite <- !app_assoc. reflexivity.
  - exact Hpolls.
  - eapply Forall_impl; [|exact Hev].
    intros e' [m [->| ->]] [].
Qed.

Lemma database_written_after_last_chunk_witness :
  let T := trace (set_payouts Scenario.calm 3 true [Scenario.grant 1]
                    no_calls) in
  exists chunked t A0 s polls A1,
    chunks (full_payouts_mapping [Scenario.grant 1]) 120 = Done chunked
    /\ chunked <> []
    /\ accepted_payloads (firstn 8 T) = chunked
    /\ firstn 8 T = A0 ++ EvSend (length chunked - 1) s (Accepted t)
                        :: polls ++ confirmed_tail (length chunked - 1) t ++ A1
    /\ Forall (fun e' => ~ is_send e') polls
    /\ Forall (fun e' => ~ is_send e') A1.
Proof.
  cbv zeta.
  refine (database_written_after_last_chunk Scenario.calm 3 true
            [Scenario.grant 1] no_calls _
            (EvMail true (with_tx true "0xaaa" (Scenario.grant 1)))
            (skipn 9 (trace (set_payouts Scenario.calm 3 true
                               [Scenario.grant 1] no_calls))) _ I).
  vm_compute. reflexivity.
Defined.

(** Every match a run saves is a match of the batch and carries a
    non-empty transaction id in the field the run writes, so a saved match
    no longer passes the "unpaid" filter [payout_tx = ''] (or
    [test_payout_tx = '']) of a later run (lines 186-188, 271-272,
    285-295). *)
Theorem saved_tx_id_is_not_empty (node : Node) (fuel : nat) (real : bool)
    (unpaid : list CLRMatch) (c : Calls) (m : CLRMatch) :
  In (EvSave m) (trace (set_payouts node fuel real unpaid c)) ->
  String.eqb (if real then payout_tx m else test_payout_tx m) "" = false
  /\ exists m0, In m0 unpaid /\ pk m = pk m0.
Proof.
  destruct (chunks_120 (full_payouts_mapping unpaid)) as (chunked & Hch & _).
  rewrite (set_payouts_unfold _ _ _ _ _ _ Hch), trace_bind.
  intros Hin. apply in_app_or in Hin as [Hin|Hin].
  { pose proof (for_chunks_no_db_write node fuel chunked 0 None c) as H.
    rewrite Forall_forall in H. elim (H _ Hin). exact I. }
  destruct (outcome (for_chunks node fuel 0 chunked None c)) as [r|exn|] eqn:Ho;
    try contradiction.
  apply for_chunks_result in Ho as [[_ ->]|(t & -> & Ht)].
  - destruct unpaid; contradiction.
  - rewrite update_database_run in Hin. cbn [trace] in Hin.
    apply in_flat_map in Hin as (m0 & Hm0 & [Hm|[Hm|[]]]); [discriminate|].
    injection Hm as <-. destruct real; cbn; (split; [exact Ht|]);
      exists m0; auto.
Qed.

Lemma saved_tx_id_is_not_empty_witness :
  String.eqb (payout_tx (with_tx true "0xaaa" (Scenario.grant 1))) "" = false.
Proof.
  refine (proj1 (saved_tx_id_is_not_empty Scenario.calm 3 true
                   [Scenario.grant 1] no_calls
                   (with_tx true "0xaaa" (Scenario.grant 1)) _)).
  vm_compute. do 9 right. left. reflexivity.
Defined.

(** The confirmation poll returns at the first "mined" answer: after [j]
    answers "not mined" it has slept [j] times one second, polled [j + 1]
    times and consumed exactly these answers (lines 276-277). *)
Theorem poll_returns_at_first_mined (node : Node) (fuel chunk : nat)
    (tx_id : string) (j : nat) (c : Calls) :
  (j < fuel)%nat ->
  has_tx_mined node (mined_calls c + j) = true ->
  (forall k, (k < j)%nat -> has_tx_mined node (mined_calls c + k) = false) ->
  wait_mined node fuel chunk tx_id c
  = {| outcome := Done tt;
       calls := {| gas_calls := gas_calls c; count_calls := count_calls c;
                   send_calls := send_calls c;
                   mined_calls := S (mined_calls c + j) |};
       trace := pending_polls chunk tx_id j ++ [EvHasMined chunk tx_id true] |}.
Proof. apply wait_mined_lands. Qed.

Lemma poll_returns_at_first_mined_witness :
  wait_mined Cases.slow_block 5 0 "0xabc" no_calls
  = {| outcome := Done tt;
       calls := {| gas_calls := 0; count_calls := 0; send_calls := 0;
                   mined_calls := 3 |};
       trace := [EvHasMined 0 "0xabc" false; EvSleep 1;
                 EvHasMined 0 "0xabc" false; EvSleep 1;
                 EvHasMined 0 "0xabc" true] |}.
Proof.
  refine (poll_returns_at_first_mined Cases.slow_block 5 0 "0xabc" 2 no_calls
            _ eq_refl _).
  - lia.
  - intros [|[|k]] Hk; [reflexivity | reflexivity | lia].
Defined.

(** The poll has no timeout: while the node keeps answering "not mined",
    the loop is still polling after any number of turns, one second of
    sleep after each poll (lines 276-277). *)
Theorem poll_has_no_timeout (node : Node) (fuel chunk : nat)
    (tx_id : string) (c : Calls) :
  (forall k, (mined_calls c <= k)%nat -> has_tx_mined node k = false) ->
  outcome (wait_mined node fuel chunk tx_id c) = OutOfFuel
  /\ trace (wait_mined node fuel chunk tx_id c)
     = pending_polls chunk tx_id fuel.
Proof. apply wait_mined_never. Qed.

Lemma poll_has_no_timeout_witness :
  outcome (wait_mined Cases.never_mined 4 0 "0xabc" no_calls) = OutOfFuel
  /\ trace (wait_mined Cases.never_mined 4 0 "0xabc" no_calls)
     = pending_polls 0 "0xabc" 4.
Proof.
  refine (poll_has_no_timeout Cases.never_mined 4 0 "0xabc" no_calls _).
  intros k _. reflexivity.
Defined.

(** ** The batcher at its edges *)

Lemma range_loop_length (len n : Z) (turns : nat) : forall i,
  0 < n -> 0 <= i -> len - i <= Z.of_nat turns ->
  Z.of_nat (length (Py.range_loop turns i len n))
  = Z.max 0 ((len - i + n - 1) / n).
Proof.
  induction turns as [|t IH]; intros i Hn Hi Hfuel; cbn [Py.range_loop].
  - cbn [length]. symmetry. apply Z.max_l.
    apply Z.lt_succ_r, Z.div_lt_upper_bound; lia.
  - destruct (Z.ltb_spec i len) as [Hlt|Hge].
    + cbn [length]. rewrite Nat2Z.inj_succ, IH by lia.
      replace (len - i + n - 1) with ((len - i - 1) + 1 * n) by lia.
      rewrite Z.div_add by lia.
      replace (len - (i + n) + n - 1) with (len - i - 1) by lia.
      assert (0 <= (len - i - 1) / n) by (apply Z.div_pos; lia). lia.
    + cbn [length]. symmetry. apply Z.max_l.
      apply Z.lt_succ_r, Z.div_lt_upper_bound; lia.
Qed.

Lemma range_loop_bounds (len n : Z) (turns : nat) : forall i,
  0 < n -> 0 <= i ->
  Forall (fun j => 0 <= j < len) (Py.range_loop turns i len n).
Proof.
  induction turns as [|t IH]; intros i Hn Hi; cbn [Py.range_loop];
    [constructor|].
  destruct (Z.ltb_spec i len); constructor; [lia | apply IH; lia].
Qed.

(** For a positive size [n], [chunks] yields ceil(len / n) chunks and none
    of them is empty: no transaction is ever built for an empty payload
    (lines 222-227). *)
Theorem chunks_count_and_nonempty {A : Type} (lst : list A) (n : Z) :
  0 < n ->
  exists cs,
    chunks lst n = Done cs
    /\ Py.len cs = (Py.len lst + n - 1) / n
    /\ Forall (fun c => c <> []) cs.
Proof.
  intros Hn. unfold chunks, Py.range.
  destruct (Z.eqb_spec n 0) as [->|_]; [lia|].
  destruct (Z.ltb_spec n 0) as [Hneg|_]; [lia|].
  rewrite Z.sub_0_r. eexists. split; [reflexivity|]. split.
  - unfold Py.len at 1. rewrite length_map, range_loop_length;
      unfold Py.len; try lia.
    rewrite Z.sub_0_r. apply Z.max_r. apply Z.div_pos; lia.
  - apply Forall_map.
    eapply Forall_impl; [|apply (range_loop_bounds _ n); lia].
    intros j Hj Hnil. cbv beta in Hj.
    pose proof (slice_length lst n Hn j (proj1 Hj)) as Hl.
    rewrite Hnil in Hl. unfold Py.len at 1 in Hl. cbn [length] in Hl. lia.
Qed.

Lemma chunks_count_and_nonempty_witness :
  exists cs,
    chunks [1; 2; 3; 4; 5] 2 = Done cs
    /\ Py.len cs = (Py.len [1; 2; 3; 4; 5] + 2 - 1) / 2
    /\ Forall (fun c => c <> []) cs.
Proof. apply (chunks_count_and_nonempty [1; 2; 3; 4; 5] 2). lia. Defined.

(** A chunk size of zero makes the generator raise [ValueError] (from
    [range]); a negative size yields no chunk at all, whatever the list
    (lines 222-225). *)
Theorem chunks_nonpositive_size {A : Type} (lst : list A) (n : Z) :
  n <= 0 ->
  chunks lst n
  = if n =? 0 then Raised (ValueError "range() arg 3 must not be zero")
    else Done [].
Proof.
  intros Hn. unfold chunks, Py.range.
  destruct (Z.eqb_spec n 0) as [->|Hne]; [reflexivity|].
  destruct (Z.ltb_spec n 0) as [_|Hpos]; [|lia].
  destruct (Z.ltb_spec (Py.len lst) 0) as [Hlen|_]; [|reflexivity].
  unfold Py.len in Hlen. lia.
Qed.

Lemma chunks_nonpositive_size_witness :
  chunks [1; 2; 3] (-2) = Done [].
Proof. apply (chunks_nonpositive_size [1; 2; 3] (-2)). lia. Defined.

(** * The command around the payout *)

(** ** Which branch runs *)

Lemma str_eqb_false (a b : string) : a <> b -> String.eqb a b = false.
Proof. apply String.eqb_neq. Qed.

Lemma split_example :
  Command.split "," "1,2,,x" = ["1"; "2"; ""; "x"].
Proof. reflexivity. Qed.

Ltac branch_cases :=
  repeat match goal with
         | |- context [if ?b then _ else _] => destruct b
         | |- context [match ?d ?k with Some _ => _ | None => _ end] =>
             destruct (d k)
         end.

(** The payout branch is reached for a real payout exactly with
    [what = 'set_payouts'] on mainnet, and for a test payout exactly with
    [what = 'set_payouts_test'] on rinkeby, in both cases with a non-zero
    round, a non-empty list of CLR keys, and no exception from the
    queries for these keys (lines 86-90, 105-122, 170-177). *)
Theorem payout_branch_matches_network (db : Command.Database)
    (options : Command.Options) (is_real_payout : bool) :
  Command.dispatch db options = inr (Command.SetPayouts is_real_payout)
  <-> Command.what options
      = (if is_real_payout then "set_payouts" else "set_payouts_test")
      /\ Command.network options
         = (if is_real_payout then "mainnet" else "rinkeby")
      /\ Command.not_int (Command.clr_round options) = false
      /\ exists pks,
           Command.clr_pks options = Some pks
           /\ pks <> ""
           /\ db (Command.split "," pks) = None.
Proof.
  destruct options as [what network pks round].
  unfold Command.dispatch. cbn [Command.what Command.network Command.clr_pks
                                Command.clr_round].
  cbv zeta. split.
  - destruct pks as [pks|].
    2:{ branch_cases; discriminate. }
    destruct (Command.not_int round);
      [cbn [orb]; branch_cases; discriminate|].
    cbn [orb]. destruct (String.eqb_spec pks "") as [->|Hp];
      [branch_cases; discriminate|].
    destruct (db (Command.split "," pks)) eqn:Hdb;
      [branch_cases; discriminate|].
    intro H.
    assert (Hgoal : what = (if is_real_payout then "set_payouts"
                            else "set_payouts_test")
                    /\ network = (if is_real_payout then "mainnet"
                                  else "rinkeby")).
    { revert H.
      destruct (String.eqb_spec what "set_payouts") as [->|Hw1].
      + cbn [Command.str_in Command.valid_whats existsb String.eqb Ascii.eqb
             Bool.eqb orb negb andb].
        destruct (String.eqb_spec network "rinkeby") as [->|Hn1];
          [cbn; discriminate|].
        destruct (String.eqb_spec network "mainnet") as [->|Hn2];
          [|cbn; discriminate].
        cbn. intros [= <-]. auto.
      + destruct (String.eqb_spec what "set_payouts_test") as [->|Hw2].
        * cbn [Command.str_in Command.valid_whats existsb String.eqb Ascii.eqb
               Bool.eqb orb negb andb].
          destruct (String.eqb_spec network "rinkeby") as [->|Hn1].
          -- cbn. intros [= <-]. auto.
          -- destruct (String.eqb_spec network "mainnet") as [->|Hn2];
               cbn; discriminate.
        * cbn [Command.str_in Command.valid_whats existsb].
          rewrite (str_eqb_false _ _ Hw1), (str_eqb_false _ _ Hw2).
          cbn [orb]. branch_cases; discriminate. }
    destruct Hgoal as [Hw Hn]. split; [exact Hw|]. split; [exact Hn|].
    split; [reflexivity|]. exists pks. auto.
  - intros (Hw & Hn & Hr & s & Hs & Hne & Hdb). subst what network pks.
    rewrite Hr, (str_eqb_false _ _ Hne).
    destruct is_real_payout; cbn; rewrite Hdb; reflexivity.
Qed.

(** 'payout_test' is accepted as a value of [what], but no branch of
    [handle] tests for it: with it the command checks its arguments, makes
    its queries and, if these raise nothing, does nothing more; it is the
    only such value (lines 86, 105-122, 125, 156, 170). *)
Theorem payout_test_runs_no_branch (db : Command.Database)
    (options : Command.Options) :
  Command.dispatch db options = inr Command.NoBranch
  <-> Command.what options = "payout_test"
      /\ (Command.network options = "rinkeby"
          \/ Command.network options = "mainnet")
      /\ Command.not_int (Command.clr_round options) = false
      /\ exists pks,
           Command.clr_pks options = Some pks
           /\ pks <> ""
           /\ db (Command.split "," pks) = None.
Proof.
  destruct options as [what network pks round].
  unfold Command.dispatch. cbn [Command.what Command.network Command.clr_pks
                                Command.clr_round].
  cbv zeta. split.
  - destruct pks as [pks|].
    2:{ branch_cases; discriminate. }
    destruct (Command.not_int round);
      [cbn [orb]; branch_cases; discriminate|].
    cbn [orb]. destruct (String.eqb_spec pks "") as [->|Hp];
      [branch_cases; discriminate|].
    destruct (db (Command.split "," pks)) eqn:Hdb;
      [branch_cases; discriminate|].
    intro H.
    assert (Hgoal : what = "payout_test"
                    /\ (network = "rinkeby" \/ network = "mainnet")).
    { revert H.
      destruct (String.eqb_spec what "payout_test") as [->|Hw].
      + cbn [Command.str_in Command.valid_whats existsb String.eqb Ascii.eqb
             Bool.eqb orb negb andb].
        destruct (String.eqb_spec network "rinkeby") as [->|Hn1]; [auto|].
        destruct (String.eqb_spec network "mainnet") as [->|Hn2];
          [auto | cbn; discriminate].
      + cbn [Command.str_in Command.valid_whats existsb].
        rewrite (str_eqb_false _ _ Hw).
        destruct (String.eqb_spec what "finalize") as [->|?];
          [cbn; branch_cases; discriminate|].
        destruct (String.eqb_spec what "prepare_final_payout") as [->|?];
          [cbn; branch_cases; discriminate|].
        destruct (String.eqb_spec what "verify") as [->|?];
          [cbn; branch_cases; discriminate|].
        destruct (String.eqb_spec what "set_payouts_test") as [->|?];
          [cbn; branch_cases; discriminate|].
        destruct (String.eqb_spec what "set_payouts") as [->|?];
          [cbn; branch_cases; discriminate|].
        cbn. discriminate. }
    destruct Hgoal as [Hw Hn]. split; [exact Hw|]. split; [exact Hn|].
    split; [reflexivity|]. exists pks. auto.
  - intros (Hw & Hn & Hr & s & Hs & Hne & Hdb). subst what pks.
    rewrite Hr, (str_eqb_false _ _ Hne).
    destruct Hn as [->| ->]; cbn; rewrite Hdb; reflexivity.
Qed.

(** With keys that are no numbers the queries raise before any branch is
    looked at. *)
Example non_numeric_keys_raise :
  Command.dispatch numeric_keys
    {| Command.what := "payout_test"; Command.network := "rinkeby";
       Command.clr_pks := Some "abc"; Command.clr_round := Some 8 |}
  = inl (Command.QueryRaised "ValueError: Field 'id' expected a number")
  /\ Command.dispatch numeric_keys
       {| Command.what := "payout_test"; Command.network := "rinkeby";
          Command.clr_pks := Some "1,2"; Command.clr_round := Some 8 |}
     = inr Command.NoBranch.
Proof. split; reflexivity. Qed.

(** ** The three querysets of the payout branch *)

Lemma filter_split_permutation {X : Type} (p : X -> bool) (l : list X) :
  Permutation (filter (fun x => negb (p x)) l ++ filter p l) l.
Proof.
  induction l as [|x l IH]; [constructor|].
  cbn [filter]. destruct (p x); cbn [negb app].
  - apply Permutation_sym, Permutation_cons_app, Permutation_sym, IH.
  - constructor. exact IH.
Qed.

(** Every scheduled match of the round is counted in exactly one of "not
    ready", "unpaid" and "paid": the three querysets together are a
    rearrangement of the round's matches, and no match is in two of them
    (lines 181-189). *)
Theorem querysets_partition (is_real_payout : bool)
    (scheduled_matches : list Command.ScheduledMatch) :
  Permutation
    (Command.not_ready_scheduled_matches is_real_payout scheduled_matches
     ++ Command.paid_scheduled_matches is_real_payout scheduled_matches
     ++ Command.unpaid_scheduled_matches is_real_payout scheduled_matches)
    scheduled_matches
  /\ forall sm,
       ~ (In sm (Command.not_ready_scheduled_matches is_real_payout
                   scheduled_matches)
          /\ In sm (Command.unpaid_scheduled_matches is_real_payout
                      scheduled_matches))
       /\ ~ (In sm (Command.not_ready_scheduled_matches is_real_payout
                      scheduled_matches)
             /\ In sm (Command.paid_scheduled_matches is_real_payout
                         scheduled_matches))
       /\ ~ (In sm (Command.unpaid_scheduled_matches is_real_payout
                      scheduled_matches)
             /\ In sm (Command.paid_scheduled_matches is_real_payout
                         scheduled_matches)).
Proof.
  unfold Command.not_ready_scheduled_matches, Command.paid_scheduled_matches,
    Command.unpaid_scheduled_matches.
  split.
  - etransitivity; [|apply (filter_split_permutation
                              (Command.key is_real_payout))].
    apply Permutation_app_head. apply filter_split_permutation.
  - intros sm. repeat split; intros [H1 H2];
      rewrite ?filter_In in *;
      destruct H1 as (? & H1), H2 as (? & H2);
      repeat match goal with
             | H : In _ _ /\ _ |- _ => destruct H
             end;
      destruct (Command.key is_real_payout sm);
      destruct (String.eqb _ _); discriminate.
Qed.

(** ** Saving rows by primary key *)

Lemma fold_map_rowwise {X M : Type} (u : M -> X -> X) (ms : list M) :
  forall table,
    fold_left (fun tbl m => map (u m) tbl) ms table
    = map (fun row => fold_left (fun r m => u m r) ms row) table.
Proof.
  induction ms as [|m ms IH]; intros table; cbn [fold_left].
  - symmetry. apply map_id.
  - rewrite IH, map_map. reflexivity.
Qed.

Lemma NoDup_map_eq {X Y : Type} (f : X -> Y) (l : list X) (x y : X) :
  NoDup (map f l) -> In x l -> In y l -> f x = f y -> x = y.
Proof.
  induction l as [|a l IH]; intros Hnd Hx Hy Hf; [contradiction|].
  cbn [map] in Hnd. inversion Hnd as [|? ? Hnot Hnd']; subst.
  destruct Hx as [->|Hx], Hy as [->|Hy]; auto.
  - elim Hnot. rewrite Hf. apply in_map, Hy.
  - elim Hnot. rewrite <- Hf. apply in_map, Hx.
Qed.

Section RowUpdates.

Import Command.

(** A row hit only by writes that all give [r']: it ends as [r'] if it is
    hit at all, and is left alone otherwise. *)
Lemma fold_row_updates {M : Type} (key_of : M -> Z)
    (write : M -> ScheduledMatch -> ScheduledMatch) (ms : list M)
    (r r' : ScheduledMatch) :
  row_pk r' = row_pk r ->
  (forall m, In m ms -> key_of m = row_pk r ->
             write m r = r' /\ write m r' = r') ->
  fold_left (fun x m => if row_pk x =? key_of m then write m x else x) ms r
  = if existsb (fun m => key_of m =? row_pk r) ms then r' else r.
Proof.
  intros Hpk.
  assert (Hstay : forall ms0,
    (forall m, In m ms0 -> key_of m = row_pk r ->
               write m r = r' /\ write m r' = r') ->
    fold_left (fun x m => if row_pk x =? key_of m then write m x else x) ms0 r'
    = r').
  { induction ms0 as [|m ms0 IH]; intros Hw; [reflexivity|].
    cbn [fold_left]. rewrite Hpk.
    destruct (Z.eqb_spec (row_pk r) (key_of m)) as [He|_].
    - rewrite (proj2 (Hw m (or_introl eq_refl) (eq_sym He))).
      apply IH. intros; apply Hw; auto using in_cons.
    - apply IH. intros; apply Hw; auto using in_cons. }
  induction ms as [|m ms IH]; intros Hw; [reflexivity|].
  cbn [fold_left existsb].
  destruct (Z.eqb_spec (row_pk r) (key_of m)) as [He|Hne].
  - rewrite (proj1 (Hw m (or_introl eq_refl) (eq_sym He))).
    replace (key_of m =? row_pk r) with true by (symmetry; apply Z.eqb_eq; auto).
    cbn [orb]. apply Hstay. intros; apply Hw; auto using in_cons.
  - replace (key_of m =? row_pk r) with false
      by (symmetry; apply Z.eqb_neq; auto).
    cbn [orb]. apply IH. intros; apply Hw; auto using in_cons.
Qed.

(** *** [prepare_final_payout] *)

Lemma payout_matches_In sm table :
  In sm (payout_matches table) <-> In sm table /\ to_promote sm = true.
Proof.
  unfold payout_matches, to_promote. rewrite !filter_In, andb_true_iff. tauto.
Qed.

Lemma prepare_rowwise table :
  NoDup (map row_pk table) ->
  prepare_final_payout "y" table
  = map (fun row => if to_promote row then promoted row else row) table.
Proof.
  intros Hnd. unfold prepare_final_payout. cbn [String.eqb Ascii.eqb Bool.eqb negb].
  unfold save_row.
  rewrite (fold_map_rowwise
             (fun m row => if pk (fields row) =? pk (fields (promoted m))
                           then promoted m else row)).
  apply map_ext_in. intros r Hr.
  refine (eq_trans (fold_row_updates row_pk (fun m _ => promoted m)
                      (payout_matches table) r (promoted r) eq_refl _) _).
  2:{ destruct (to_promote r) eqn:Hp.
    + replace (existsb _ _) with true; [reflexivity|].
      symmetry. apply existsb_exists. exists r. split.
      * apply payout_matches_In. auto.
      * apply Z.eqb_refl.
    + replace (existsb _ _) with false; [reflexivity|].
      symmetry. apply not_true_is_false. intros He.
      apply existsb_exists in He as (m & Hm & Hk).
      apply payout_matches_In in Hm as [Hm Hpm]. apply Z.eqb_eq in Hk.
      rewrite (NoDup_map_eq row_pk table m r Hnd Hm Hr Hk) in Hpm. congruence. }
  intros m Hm Hk. apply payout_matches_In in Hm as [Hm _].
  rewrite (NoDup_map_eq row_pk table m r Hnd Hm Hr Hk). auto.
Qed.

Lemma prepare_keeps_pks ui table :
  NoDup (map row_pk table) ->
  map row_pk (prepare_final_payout ui table) = map row_pk table.
Proof.
  intros Hnd. destruct (String.eqb_spec ui "y") as [->|Hne].
  - rewrite prepare_rowwise by exact Hnd. rewrite map_map.
    apply map_ext. intros r. destruct (to_promote r); reflexivity.
  - unfold prepare_final_payout. rewrite (str_eqb_false _ _ Hne). reflexivity.
Qed.

End RowUpdates.

(** With the answer 'y', [prepare_final_payout] sets [ready_for_payout] on
    exactly the rows whose test payout is recorded and that were not ready
    yet, and changes nothing else; with any other answer it changes
    nothing (lines 156-167).  Primary keys are distinct. *)
Theorem prepare_promotes_test_paid_rows (user_input : string)
    (scheduled_matches : list Command.ScheduledMatch) :
  NoDup (map (fun sm => pk (Command.fields sm)) scheduled_matches) ->
  Command.prepare_final_payout user_input scheduled_matches
  = if String.eqb user_input "y" then
      map (fun row =>
             if negb (String.eqb (test_payout_tx (Command.fields row)) "")
                && negb (Command.ready_for_payout row)
             then {| Command.fields := Command.fields row;
                     Command.ready_for_test_payout :=
                       Command.ready_for_test_payout row;
                     Command.ready_for_payout := true |}
             else row)
          scheduled_matches
    else scheduled_matches.
Proof.
  intros Hnd. destruct (String.eqb_spec user_input "y") as [->|Hne].
  - apply prepare_rowwise, Hnd.
  - unfold Command.prepare_final_payout. rewrite (str_eqb_false _ _ Hne).
    reflexivity.
Qed.

Lemma prepare_promotes_test_paid_rows_witness :
  Command.prepare_final_payout "y" Rows.round
  = [ Rows.match_row 1 "" "" false false;
      Rows.match_row 2 "" "" true false;
      Rows.match_row 3 "0xtest" "" true true;
      Rows.match_row 4 "0xtest" "0xreal" true true ].
Proof.
  refine (prepare_promotes_test_paid_rows "y" Rows.round _).
  repeat constructor; cbn; intuition discriminate.
Defined.

(** A second [prepare_final_payout] finds nothing left to promote and
    changes nothing, whatever the answers (lines 156-167). *)
Theorem prepare_final_payout_idempotent (user_input : string)
    (scheduled_matches : list Command.ScheduledMatch) :
  NoDup (map (fun sm => pk (Command.fields sm)) scheduled_matches) ->
  Command.payout_matches
    (Command.prepare_final_payout "y" scheduled_matches) = []
  /\ Command.prepare_final_payout user_input
       (Command.prepare_final_payout "y" scheduled_matches)
     = Command.prepare_final_payout "y" scheduled_matches.
Proof.
  intros Hnd.
  assert (Hnone : Command.payout_matches
                    (Command.prepare_final_payout "y" scheduled_matches) = []).
  { rewrite (prepare_rowwise _ Hnd). unfold Command.payout_matches.
    induction scheduled_matches as [|r l IH]; [reflexivity|].
    inversion Hnd as [|? ? _ Hnd']; subst.
    cbn [map]. destruct (to_promote r) eqn:Hp; unfold to_promote in Hp;
      destruct (String.eqb (test_payout_tx (Command.fields r)) "") eqn:Ht;
      destruct (Command.ready_for_payout r) eqn:Hr;
      try discriminate Hp;
      cbn [filter Command.promoted Command.fields Command.ready_for_payout];
      rewrite ?Ht; cbn [negb filter Command.ready_for_payout];
      rewrite ?Hr; cbn [negb]; apply IH, Hnd'. }
  split; [exact Hnone|].
  unfold Command.prepare_final_payout at 1.
  destruct (negb (String.eqb user_input "y")); [reflexivity|].
  rewrite Hnone. reflexivity.
Qed.

Lemma prepare_final_payout_idempotent_witness :
  Command.payout_matches (Command.prepare_final_payout "y" Rows.round) = []
  /\ Command.prepare_final_payout "y"
       (Command.prepare_final_payout "y" Rows.round)
     = Command.prepare_final_payout "y" Rows.round.
Proof.
  refine (prepare_final_payout_idempotent "y" Rows.round _).
  repeat constructor; cbn; intuition discriminate.
Defined.

(** ** The payout branch and the table of matches *)

Section TableFacts.

Import Command.

Lemma insert_by_amount_In (x sm : ScheduledMatch) (l : list ScheduledMatch) :
  In x (insert_by_amount sm l) <-> x = sm \/ In x l.
Proof.
  induction l as [|y l IH]; cbn [insert_by_amount].
  - cbn. intuition congruence.
  - destruct (Qle_bool _ _); cbn [In]; rewrite ?IH; intuition congruence.
Qed.

Lemma order_by_amount_In (x : ScheduledMatch) (l : list ScheduledMatch) :
  In x (order_by_amount l) <-> In x l.
Proof.
  unfold order_by_amount. rewrite (in_rev l).
  induction (rev l) as [|y l' IH]; [reflexivity|].
  cbn [fold_right]. rewrite insert_by_amount_In, IH. cbn. intuition congruence.
Qed.

Lemma unpaid_batch_In (real : bool) (m : CLRMatch) (table : list ScheduledMatch) :
  In m (unpaid_batch real table)
  <-> exists row, In row table /\ m = fields row
                  /\ key real row = true
                  /\ String.eqb (key2 real (fields row)) "" = true.
Proof.
  unfold unpaid_batch, unpaid_scheduled_matches. rewrite in_map_iff. split.
  - intros (row & <- & Hrow). apply (proj1 (order_by_amount_In _ _)) in Hrow.
    rewrite !filter_In in Hrow. exists row. tauto.
  - intros (row & Hin & -> & Hk & Hk2). exists row. split; [reflexivity|].
    apply (proj2 (order_by_amount_In _ _)). rewrite !filter_In. tauto.
Qed.

Lemma database_after_app (T1 T2 : list Event) : forall table,
  database_after (T1 ++ T2) table = database_after T2 (database_after T1 table).
Proof.
  induction T1 as [|e T1 IH]; intros table; [reflexivity|].
  destruct e; cbn [app database_after]; apply IH.
Qed.

Lemma database_after_quiet (T : list Event) : forall table,
  Forall (fun e => ~ is_db_write e) T -> database_after T table = table.
Proof.
  induction T as [|e T IH]; intros table H; [reflexivity|].
  inversion H as [|? ? He HT]; subst.
  destruct e; cbn [database_after]; try (apply IH, HT).
  elim He. exact I.
Qed.

Lemma database_after_saves (real : bool) (t : string) (ms : list CLRMatch) :
  forall table,
    database_after
      (flat_map (fun m => [EvMail real (with_tx real t m);
                           EvSave (with_tx real t m)]) ms) table
    = fold_left (fun tbl m => save_fields (with_tx real t m) tbl) ms table.
Proof.
  induction ms as [|m ms IH]; intros table; [reflexivity|].
  cbn [flat_map app database_after fold_left]. apply IH.
Qed.

Lemma filter_nil {X : Type} (p : X -> bool) (l : list X) :
  (forall x, In x l -> p x = false) -> filter p l = [].
Proof.
  induction l as [|x l IH]; intros H; [reflexivity|].
  cbn [filter]. rewrite (H x (or_introl eq_refl)). apply IH.
  intros y Hy. apply H. right. exact Hy.
Qed.

Lemma with_tx_pk real t m : pk (with_tx real t m) = pk m.
Proof. destruct real; reflexivity. Qed.

Lemma with_tx_key2 real t m : key2 real (with_tx real t m) = t.
Proof. destruct real; reflexivity. Qed.

(** The table after every match of the unpaid batch was saved with [t]. *)
Lemma saves_leave_nothing_unpaid (real : bool) (t : string)
    (table : list ScheduledMatch) :
  NoDup (map row_pk table) ->
  String.eqb t "" = false ->
  unpaid_scheduled_matches real
    (fold_left (fun tbl m => save_fields (with_tx real t m) tbl)
       (unpaid_batch real table) table) = [].
Proof.
  intros Hnd Ht. unfold save_fields.
  rewrite (fold_map_rowwise
             (fun m row =>
                if pk (fields row) =? pk (with_tx real t m) then
                  {| fields := with_tx real t m;
                     ready_for_test_payout := ready_for_test_payout row;
                     ready_for_payout := ready_for_payout row |}
                else row)).
  unfold unpaid_scheduled_matches.
  apply filter_nil. intros row' Hrow'.
  apply filter_In in Hrow' as [Hrow' Hkey].
  apply in_map_iff in Hrow' as (r & <- & Hr).
  pose (r' := {| fields := with_tx real t (fields r);
                 ready_for_test_payout := ready_for_test_payout r;
                 ready_for_payout := ready_for_payout r |}).
  assert (Hfold :
    fold_left
      (fun (row : ScheduledMatch) (m : CLRMatch) =>
         if pk (fields row) =? pk (with_tx real t m) then
           {| fields := with_tx real t m;
              ready_for_test_payout := ready_for_test_payout row;
              ready_for_payout := ready_for_payout row |}
         else row)
      (unpaid_batch real table) r
    = if existsb (fun m => pk (with_tx real t m) =? pk (fields r))
           (unpaid_batch real table)
      then r' else r).
  { apply (fold_row_updates
             (fun m => pk (with_tx real t m))
             (fun m x => {| fields := with_tx real t m;
                            ready_for_test_payout := ready_for_test_payout x;
                            ready_for_payout := ready_for_payout x |})
             (unpaid_batch real table) r r').
    - subst r'. unfold row_pk. cbn [fields]. apply with_tx_pk.
    - intros m Hm Hpk. rewrite with_tx_pk in Hpk.
      apply unpaid_batch_In in Hm as (r0 & Hr0 & -> & _).
      rewrite (NoDup_map_eq row_pk table r0 r Hnd Hr0 Hr Hpk).
      subst r'. auto. }
  rewrite Hfold in *. clear Hfold.
  destruct (existsb _ _) eqn:Hex.
  - subst r'. cbn [fields]. rewrite with_tx_key2. exact Ht.
  - destruct (String.eqb (key2 real (fields r)) "") eqn:Hk2; [|reflexivity].
    exfalso. apply not_true_iff_false in Hex. apply Hex.
    apply existsb_exists. exists (fields r). split.
    + apply unpaid_batch_In. exists r. auto.
    + rewrite with_tx_pk. apply Z.eqb_refl.
Qed.

End TableFacts.

(** A completed payout run leaves no match of the round unpaid: with the
    saves of the run applied to the table, the query for unpaid matches is
    empty, so running the command again builds no transaction at all and
    nobody is paid twice (lines 186-188, 271-272, 284-295).  Primary keys
    are distinct. *)
Theorem completed_run_leaves_nothing_unpaid (node : Node) (fuel : nat)
    (real : bool) (scheduled_matches : list Command.ScheduledMatch)
    (c : Calls) :
  let batch := Command.unpaid_batch real scheduled_matches in
  let table' :=
    Command.database_after (trace (set_payouts node fuel real batch c))
      scheduled_matches in
  NoDup (map (fun sm => pk (Command.fields sm)) scheduled_matches) ->
  outcome (set_payouts node fuel real batch c) = Done tt ->
  Command.unpaid_scheduled_matches real table' = []
  /\ forall node' fuel' c',
       set_payouts node' fuel' real (Command.unpaid_batch real table') c'
       = {| outcome := Done tt; calls := c'; trace := [] |}.
Proof.
  cbv zeta. intros Hnd Ho.
  assert (Hnone :
    Command.unpaid_scheduled_matches real
      (Command.database_after
         (trace (set_payouts node fuel real
                   (Command.unpaid_batch real scheduled_matches) c))
         scheduled_matches) = []).
  { destruct (chunks_120 (full_payouts_mapping
                            (Command.unpaid_batch real scheduled_matches)))
      as (chunked & Hch & Hcat).
    rewrite (set_payouts_unfold _ _ _ _ _ _ Hch) in *.
    apply bind_done in Ho as (r & Hf & Hdb & ->).
    rewrite database_after_app,
      (database_after_quiet _ _ (for_chunks_no_db_write _ _ _ _ _ _)).
    apply for_chunks_result in Hf as [[-> ->]|(t & -> & Ht)].
    - cbn in Hcat. unfold full_payouts_mapping in Hcat.
      symmetry in Hcat. apply map_eq_nil in Hcat.
      rewrite Hcat. cbn [update_database trace Command.database_after].
      unfold Command.unpaid_batch in Hcat. apply map_eq_nil in Hcat.
      destruct (Command.unpaid_scheduled_matches real scheduled_matches)
        as [|x l] eqn:Hu; [exact Hu|].
      assert (Hin : In x (Command.order_by_amount (x :: l)))
        by (apply (proj2 (order_by_amount_In _ _)); left; reflexivity).
      rewrite Hcat in Hin. contradiction.
    - rewrite update_database_run. cbn [trace].
      rewrite database_after_saves.
      apply saves_leave_nothing_unpaid; assumption. }
  split; [exact Hnone|].
  intros node' fuel' c'. unfold Command.unpaid_batch at 1. rewrite Hnone.
  reflexivity.
Qed.

Lemma completed_run_leaves_nothing_unpaid_witness :
  Command.unpaid_scheduled_matches false
    (Command.database_after
       (trace (set_payouts Scenario.calm 3 false
                 (Command.unpaid_batch false Rows.round) no_calls))
       Rows.round) = []
  /\ forall node' fuel' c',
       set_payouts node' fuel' false
         (Command.unpaid_batch false
            (Command.database_after
               (trace (set_payouts Scenario.calm 3 false
                         (Command.unpaid_batch false Rows.round) no_calls))
               Rows.round)) c'
       = {| outcome := Done tt; calls := c'; trace := [] |}.
Proof.
  refine (completed_run_leaves_nothing_unpaid Scenario.calm 3 false
            Rows.round no_calls _ _).
  - repeat constructor; cbn; intuition discriminate.
  - vm_compute. reflexivity.
Defined.

(** The test payout of the round above pays row 2 and records it. *)
Example test_payout_of_round :
  Command.database_after
    (trace (set_payouts Scenario.calm 3 false
              (Command.unpaid_batch false Rows.round) no_calls))
    Rows.round
  = [ Rows.match_row 1 "" "" false false;
      Rows.match_row 2 "0xaaa" "" true false;
      Rows.match_row 3 "0xtest" "" true false;
      Rows.match_row 4 "0xtest" "0xreal" true true ].
Proof. vm_compute. reflexivity. Qed.

(** ** The [verify] branch *)

Section SortFacts.

Import Verify.

Lemma insert_log_perm (x : PayoutAdded) (l : list PayoutAdded) :
  Permutation (insert_log x l) (x :: l).
Proof.
  induction l as [|y l IH]; cbn [insert_log]; [reflexivity|].
  destruct (blockNumber y <=? blockNumber x); [|reflexivity].
  rewrite IH. apply perm_swap.
Qed.

Lemma insert_log_sorted (x : PayoutAdded) (l : list PayoutAdded) :
  StronglySorted le_block l -> StronglySorted le_block (insert_log x l).
Proof.
  induction 1 as [|y l Hs IH Hy]; cbn [insert_log].
  - constructor; constructor.
  - destruct (blockNumber y <=? blockNumber x) eqn:E.
    + constructor; [exact IH|].
      eapply Permutation_Forall; [symmetry; apply insert_log_perm|].
      constructor; [unfold le_block; lia | exact Hy].
    + constructor; [constructor; assumption|].
      constructor; [unfold le_block; lia|].
      eapply Forall_impl; [|exact Hy].
      unfold le_block. intros a Ha. lia.
Qed.

Lemma sorted_app_inv (a b : list PayoutAdded) :
  StronglySorted le_block (a ++ b) ->
  StronglySorted le_block a
  /\ StronglySorted le_block b
  /\ forall x y, In x a -> In y b -> le_block x y.
Proof.
  induction a as [|z a IH]; cbn [app]; intro H.
  - split; [constructor|]. split; [exact H|]. intros x y [].
  - inversion H as [|? ? Hs Hz]; subst.
    destruct (IH Hs) as [Ha [Hb Hab]].
    rewrite Forall_app in Hz. destruct Hz as [Hza Hzb].
    split; [constructor; assumption|]. split; [exact Hb|].
    intros x y [<-|Hx] Hy.
    + rewrite Forall_forall in Hzb. apply Hzb, Hy.
    + apply Hab; assumption.
Qed.

Lemma sort_loop_perm (logs acc : list PayoutAdded) :
  Permutation (fold_left (fun sorted log => insert_log log sorted) logs acc)
              (acc ++ logs).
Proof.
  revert acc. induction logs as [|x logs IH]; intro acc; cbn [fold_left].
  - rewrite app_nil_r. reflexivity.
  - rewrite IH, insert_log_perm. apply Permutation_middle.
Qed.

Lemma sort_loop_sorted (logs acc : list PayoutAdded) :
  StronglySorted le_block acc ->
  StronglySorted le_block
    (fold_left (fun sorted log => insert_log log sorted) logs acc).
Proof.
  revert acc. induction logs as [|x logs IH]; intros acc H; cbn [fold_left].
  - exact H.
  - apply IH, insert_log_sorted, H.
Qed.

Lemma sorted_by_block_perm (logs : list PayoutAdded) :
  Permutation (sorted_by_block logs) logs.
Proof. apply (sort_loop_perm logs []). Qed.

Lemma sorted_by_block_sorted (logs : list PayoutAdded) :
  StronglySorted le_block (sorted_by_block logs).
Proof. apply sort_loop_sorted. constructor. Qed.

End SortFacts.

Section ScanFacts.

Import Verify.

Lemma dict_get_set {V : Type} (k : string) (v : V) (d : dict V) (k' : string) :
  dict_get k' (dict_set k v d) = if String.eqb k k' then Some v else dict_get k' d.
Proof.
  induction d as [|[k0 v0] d IH]; cbn [dict_set dict_get].
  - reflexivity.
  - destruct (String.eqb k0 k) eqn:E0; cbn [dict_get].
    + apply String.eqb_eq in E0. subst k0.
      destruct (String.eqb k k'); reflexivity.
    + destruct (String.eqb k0 k') eqn:E1.
      * apply String.eqb_eq in E1. subst k0.
        rewrite String.eqb_sym, E0. reflexivity.
      * exact IH.
Qed.

Lemma last_log_app (r : string) (l : list PayoutAdded) (x : PayoutAdded) :
  last_log r (l ++ [x])
  = if String.eqb (log_recipient x) r then Some x else last_log r l.
Proof.
  induction l as [|y l IH]; cbn [app last_log].
  - destruct (String.eqb (log_recipient x) r); reflexivity.
  - rewrite IH. destruct (String.eqb (log_recipient x) r); reflexivity.
Qed.

Lemma last_log_In (r : string) (l : list PayoutAdded) (z : PayoutAdded) :
  last_log r l = Some z -> In z l /\ log_recipient z = r.
Proof.
  induction l as [|y l IH]; cbn [last_log]; [discriminate|].
  destruct (last_log r l) as [y'|].
  - intros [= ->]. destruct (IH eq_refl) as [Hin Hr]. split; [right|]; assumption.
  - destruct (String.eqb (log_recipient y) r) eqn:E; [|discriminate].
    intros [= ->]. apply String.eqb_eq in E. split; [left; reflexivity | exact E].
Qed.

Lemma last_log_None (r : string) (l : list PayoutAdded) :
  last_log r l = None -> forall y, In y l -> log_recipient y <> r.
Proof.
  induction l as [|x l IH]; cbn [last_log]; intros H y Hy; [destruct Hy|].
  destruct (last_log r l) as [y'|]; [discriminate|].
  destruct (String.eqb (log_recipient x) r) eqn:E; [discriminate|].
  destruct Hy as [<-|Hy].
  - apply String.eqb_neq, E.
  - apply IH; [reflexivity | exact Hy].
Qed.

Lemma last_log_max (r : string) (l : list PayoutAdded) (z : PayoutAdded) :
  StronglySorted le_block l -> last_log r l = Some z ->
  forall y, In y l -> log_recipient y = r -> blockNumber y <= blockNumber z.
Proof.
  induction 1 as [|x l Hs IH Hx]; cbn [last_log]; [discriminate|].
  intros H y Hy Hr.
  destruct (last_log r l) as [z'|] eqn:El.
  - injection H as ->.
    destruct Hy as [<-|Hy].
    + rewrite Forall_forall in Hx. apply Hx, (last_log_In r l z El).
    + apply IH; auto.
  - destruct (String.eqb (log_recipient x) r); [|discriminate].
    injection H as ->.
    destruct Hy as [<-|Hy]; [lia|].
    exfalso. exact (last_log_None r l El y Hy Hr).
Qed.

Lemma tracks_nil : tracks [] [] [].
Proof. intro r. split; reflexivity. Qed.

Lemma tracks_step (done : list PayoutAdded) (pd ubd : dict Z) (x : PayoutAdded) :
  tracks done pd ubd ->
  tracks (done ++ [x]) (dict_set (log_recipient x) (log_amount x) pd)
                       (dict_set (log_recipient x) (blockNumber x) ubd).
Proof.
  intros H r. rewrite !dict_get_set, last_log_app.
  destruct (String.eqb (log_recipient x) r); [split; reflexivity | apply H].
Qed.

(** The test of line 388 is true exactly when the key of [x] is a key of
    [done], if the logs are sorted. *)
Lemma seen_in_block (done : list PayoutAdded) (pd ubd : dict Z) (x : PayoutAdded) :
  tracks done pd ubd ->
  match dict_get (log_recipient x) ubd with
  | Some b => b =? blockNumber x
  | None => false
  end = true ->
  In (log_key x) (map log_key done).
Proof.
  intros Ht H. destruct (Ht (log_recipient x)) as [Hu _]. rewrite Hu in H.
  destruct (last_log (log_recipient x) done) as [z|] eqn:El; [|discriminate].
  cbn [option_map] in H. apply Z.eqb_eq in H.
  destruct (last_log_In _ _ _ El) as [Hin Hr].
  apply in_map_iff. exists z. split; [|exact Hin].
  unfold log_key. rewrite Hr, H. reflexivity.
Qed.

Lemma not_seen_in_block (done : list PayoutAdded) (pd ubd : dict Z)
    (x : PayoutAdded) :
  tracks done pd ubd ->
  StronglySorted le_block (done ++ [x]) ->
  match dict_get (log_recipient x) ubd with
  | Some b => b =? blockNumber x
  | None => false
  end = false ->
  ~ In (log_key x) (map log_key done).
Proof.
  intros Ht Hs H Hin.
  apply in_map_iff in Hin. destruct Hin as [y [Hk Hy]].
  unfold log_key in Hk. injection Hk as Hr Hb.
  destruct (Ht (log_recipient x)) as [Hu _]. rewrite Hu in H.
  destruct (last_log (log_recipient x) done) as [z|] eqn:El.
  - cbn [option_map] in H. apply Z.eqb_neq in H. apply H.
    destruct (last_log_In _ _ _ El) as [Hz _].
    assert (Hzx : blockNumber z <= blockNumber x).
    { apply sorted_app_inv in Hs. destruct Hs as [_ [_ Hs]].
      apply (Hs z x Hz). left. reflexivity. }
    assert (Hyz : blockNumber y <= blockNumber z).
    { apply sorted_app_inv in Hs. destruct Hs as [Hs _].
      exact (last_log_max _ _ _ Hs El y Hy Hr). }
    lia.
  - exact (last_log_None _ _ El y Hy Hr).
Qed.

Lemma scan_accepts (todo done : list PayoutAdded) (pd ubd : dict Z) :
  tracks done pd ubd ->
  NoDup (map log_key (done ++ todo)) ->
  exists pd' ubd',
    scan todo pd ubd = inr (pd', ubd') /\ tracks (done ++ todo) pd' ubd'.
Proof.
  revert done pd ubd. induction todo as [|x todo IH]; intros done pd ubd Ht Hn.
  - exists pd, ubd. rewrite app_nil_r. split; [reflexivity | exact Ht].
  - cbn [scan]. cbv zeta.
    destruct (match dict_get (log_recipient x) ubd with
              | Some b => b =? blockNumber x
              | None => false
              end) eqn:E.
    + exfalso. pose proof (seen_in_block _ _ _ _ Ht E) as Hin.
      rewrite map_app in Hn. cbn [map] in Hn.
      apply NoDup_remove_2 in Hn. apply Hn, in_or_app. left. exact Hin.
    + replace (done ++ x :: todo) with ((done ++ [x]) ++ todo) in *
        by (rewrite <- app_assoc; reflexivity).
      apply IH; [apply tracks_step, Ht | exact Hn].
Qed.

Lemma scan_rejects (todo done : list PayoutAdded) (pd ubd : dict Z)
    (e : Command.Error) :
  tracks done pd ubd ->
  scan todo pd ubd = inl e ->
  exists x y rest,
    e = Command.PayoutSetTwice (log_recipient x) (blockNumber x)
    /\ log_key y = log_key x
    /\ exists before between, done ++ todo = before ++ y :: between ++ x :: rest.
Proof.
  revert done pd ubd. induction todo as [|x todo IH]; intros done pd ubd Ht H.
  - discriminate H.
  - cbn [scan] in H. cbv zeta in H.
    destruct (match dict_get (log_recipient x) ubd with
              | Some b => b =? blockNumber x
              | None => false
              end) eqn:E.
    + injection H as <-.
      pose proof (seen_in_block _ _ _ _ Ht E) as Hin.
      apply in_map_iff in Hin. destruct Hin as [y [Hk Hy]].
      apply in_split in Hy. destruct Hy as [before [between ->]].
      exists x, y, todo. split; [reflexivity|]. split; [exact Hk|].
      exists before, between. rewrite <- app_assoc. reflexivity.
    + replace (done ++ x :: todo) with ((done ++ [x]) ++ todo)
        by (rewrite <- app_assoc; reflexivity).
      apply (IH (done ++ [x]) _ _ (tracks_step _ _ _ x Ht) H).
Qed.

Lemma scan_accepted_distinct (todo done : list PayoutAdded) (pd ubd : dict Z)
    (r : dict Z * dict Z) :
  tracks done pd ubd ->
  StronglySorted le_block (done ++ todo) ->
  NoDup (map log_key done) ->
  scan todo pd ubd = inr r ->
  NoDup (map log_key (done ++ todo)).
Proof.
  revert done pd ubd. induction todo as [|x todo IH]; intros done pd ubd Ht Hs Hn H.
  - rewrite app_nil_r. exact Hn.
  - cbn [scan] in H. cbv zeta in H.
    destruct (match dict_get (log_recipient x) ubd with
              | Some b => b =? blockNumber x
              | None => false
              end) eqn:E; [discriminate H|].
    replace (done ++ x :: todo) with ((done ++ [x]) ++ todo) in *
      by (rewrite <- app_assoc; reflexivity).
    apply (IH (done ++ [x]) _ _ (tracks_step _ _ _ x Ht) Hs); [|exact H].
    rewrite map_app. cbn [map].
    apply (Permutation_NoDup (l := log_key x :: map log_key done)).
    + apply Permutation_cons_append.
    + constructor; [|exact Hn].
      apply (not_seen_in_block done pd ubd x Ht); [|exact E].
      apply sorted_app_inv in Hs. apply Hs.
Qed.

Lemma dict_set_values (P : Z -> Prop) (k : string) (v : Z) (d : dict Z) :
  P v -> Forall P (map snd d) -> Forall P (map snd (dict_set k v d)).
Proof.
  intros Hv. induction d as [|[k0 v0] d IH]; cbn [dict_set map snd]; intro H.
  - constructor; [exact Hv | constructor].
  - inversion H as [|? ? H0 H1]; subst.
    destruct (String.eqb k0 k); cbn [map snd]; constructor; auto.
Qed.

Lemma scan_values (P : Z -> Prop) (todo : list PayoutAdded) (pd ubd pd' ubd' : dict Z) :
  Forall (fun log => P (log_amount log)) todo ->
  Forall P (map snd pd) ->
  scan todo pd ubd = inr (pd', ubd') ->
  Forall P (map snd pd').
Proof.
  revert pd ubd. induction todo as [|x todo IH]; intros pd ubd Hl Hp H.
  - injection H as <- <-. exact Hp.
  - cbn [scan] in H. cbv zeta in H.
    destruct (match dict_get (log_recipient x) ubd with
              | Some b => b =? blockNumber x
              | None => false
              end); [discriminate H|].
    inversion Hl as [|? ? Hx Hl']; subst.
    apply (IH _ _ Hl' (dict_set_values P _ _ _ Hx Hp) H).
Qed.

End ScanFacts.

Section DecimalFacts.

Import Verify.

Lemma decimal_round_small (n : Z) :
  0 <= n < 10 ^ 28 -> decimal_round n = n.
Proof.
  intros [H0 H1]. unfold decimal_round.
  rewrite (Z.abs_eq n H0).
  assert (Hk : extra_digits (Z.to_nat (Z.log2 n)) n 0 = 0).
  { destruct (Z.to_nat (Z.log2 n)); cbn [extra_digits]; [reflexivity|].
    replace (28 + 0) with 28 by reflexivity.
    destruct (n <? 10 ^ 28) eqn:E; [reflexivity|].
    apply Z.ltb_ge in E. lia. }
  rewrite Hk. unfold round_half_even.
  change (10 ^ 0) with 1.
  rewrite Z.div_1_r, Z.mod_1_r. cbn [Z.mul Z.ltb Z.compare].
  rewrite Z.mul_1_r.
  destruct (Z.eq_dec n 0) as [->|Hn]; [reflexivity|].
  rewrite Z.sgn_pos by lia. lia.
Qed.

Lemma extra_digits_bound (fuel : nat) (n k : Z) :
  0 <= k -> (k = 0 \/ 10 ^ (27 + k) <= n) ->
  0 <= extra_digits fuel n k
  /\ (extra_digits fuel n k = 0 \/ 10 ^ (27 + extra_digits fuel n k) <= n).
Proof.
  revert k. induction fuel as [|fuel IH]; intros k Hk H; cbn [extra_digits].
  - split; assumption.
  - destruct (n <? 10 ^ (28 + k)) eqn:E; [split; assumption|].
    apply Z.ltb_ge in E. apply IH; [lia|]. right.
    replace (27 + (k + 1)) with (28 + k) by lia. exact E.
Qed.

Lemma round_half_even_large (n k : Z) :
  10 ^ 28 <= n -> 0 <= k -> (k = 0 \/ 10 ^ (27 + k) <= n) ->
  10 ^ 28 <= round_half_even n k.
Proof.
  intros Hn Hk H. unfold round_half_even.
  assert (Hu : 0 < 10 ^ k) by (apply Z.pow_pos_nonneg; lia).
  set (unit := 10 ^ k) in *.
  set (q := n / unit). set (r := n mod unit).
  assert (Hq : forall q', q <= q' -> 10 ^ 28 <= q' * unit).
  { intros q' Hq'.
    destruct (Z.eq_dec k 0) as [Hk0|Hk0].
    - assert (Hu1 : unit = 1) by (unfold unit; rewrite Hk0; reflexivity).
      assert (Hqn : q = n) by (unfold q; rewrite Hu1; apply Z.div_1_r).
      rewrite Hu1. lia.
    - destruct H as [H|H]; [contradiction|].
      assert (Hpow : 10 ^ (27 + k) = 10 ^ 27 * unit).
      { unfold unit. apply Z.pow_add_r; lia. }
      assert (H27 : 10 ^ 27 <= q).
      { unfold q. apply Z.div_le_lower_bound; [exact Hu|]. lia. }
      assert (H10 : 10 <= unit).
      { unfold unit. replace k with (1 + (k - 1)) by lia.
        rewrite Z.pow_add_r by lia. change (10 ^ 1) with 10.
        assert (0 < 10 ^ (k - 1)) by (apply Z.pow_pos_nonneg; lia). lia. }
      change (10 ^ 28) with (10 ^ 27 * 10).
      assert (0 < 10 ^ 27) by reflexivity.
      nia. }
  destruct (2 * r <? unit); [apply Hq; lia|].
  destruct (unit <? 2 * r); [apply Hq; lia|].
  destruct (Z.even q); apply Hq; lia.
Qed.

Lemma decimal_round_large (n : Z) :
  10 ^ 28 <= n -> 10 ^ 28 <= decimal_round n.
Proof.
  intro Hn. unfold decimal_round.
  assert (H0 : 0 < n). { assert (0 < 10 ^ 28) by reflexivity. lia. }
  rewrite (Z.abs_eq n) by lia. rewrite Z.sgn_pos by exact H0.
  rewrite Z.mul_1_l.
  destruct (extra_digits_bound (Z.to_nat (Z.log2 n)) n 0) as [Hk H];
    [lia | left; reflexivity |].
  apply round_half_even_large; assumption.
Qed.

Lemma decimal_sum_large (amounts : list Z) (acc : Z) :
  Forall (fun v => 0 <= v) amounts -> 10 ^ 28 <= acc ->
  10 ^ 28 <= fold_left decimal_add amounts acc.
Proof.
  revert acc. induction amounts as [|v amounts IH]; intros acc Hv Ha;
    cbn [fold_left]; [exact Ha|].
  inversion Hv as [|? ? H0 Hv']; subst.
  apply IH; [exact Hv'|]. apply decimal_round_large. lia.
Qed.

Lemma decimal_sum_cases (amounts : list Z) (acc : Z) :
  Forall (fun v => 0 <= v) amounts -> 0 <= acc ->
  fold_left decimal_add amounts acc = acc + exact_sum amounts
  \/ (10 ^ 28 <= fold_left decimal_add amounts acc
      /\ 10 ^ 28 <= acc + exact_sum amounts).
Proof.
  revert acc. induction amounts as [|v amounts IH]; intros acc Hv Ha;
    cbn [fold_left exact_sum fold_right].
  - left. lia.
  - inversion Hv as [|? ? H0 Hv']; subst. fold (exact_sum amounts).
    assert (Hs : 0 <= exact_sum amounts).
    { clear - Hv'. induction Hv' as [|x l Hx Hl IH']; cbn; [lia|].
      fold (exact_sum l). lia. }
    destruct (Z_lt_ge_dec (acc + v) (10 ^ 28)) as [Hlt|Hge].
    + assert (Hd : decimal_add acc v = acc + v)
        by (apply decimal_round_small; lia).
      rewrite Hd.
      destruct (IH (acc + v) Hv') as [IH1|IH1]; [lia | left; lia | right; lia].
    + right. split; [|lia].
      apply decimal_sum_large; [exact Hv'|].
      apply decimal_round_large. lia.
Qed.

Lemma total_is_exact (payment_dict : dict Z) (expected : Z) :
  Forall (fun v => 0 <= v) (map snd payment_dict) ->
  expected < 10 ^ 28 ->
  total_dai_required_wei payment_dict = expected
  <-> exact_sum (map snd payment_dict) = expected.
Proof.
  intros Hv He. unfold total_dai_required_wei.
  destruct (decimal_sum_cases (map snd payment_dict) 0 Hv) as [H|[H1 H2]];
    [lia | |]; split; intro; lia.
Qed.

Lemma expected_total_below_precision (network : string) :
  0 <= Command.expected_total_dai_amount network * 10 ^ 18 < 10 ^ 28.
Proof.
  unfold Command.expected_total_dai_amount.
  destruct (String.eqb network "mainnet"); split; vm_compute; congruence.
Qed.

End DecimalFacts.

Section VerifyFacts.

Import Verify.

Lemma filter_length_perm {A : Type} (f : A -> bool) (l l' : list A) :
  Permutation l l' -> length (filter f l) = length (filter f l').
Proof.
  induction 1 as [|x l l' _ IH|x y l|l l' l'' _ IH1 _ IH2]; cbn [filter].
  - reflexivity.
  - destruct (f x); cbn [length]; rewrite IH; reflexivity.
  - destruct (f x), (f y); reflexivity.
  - rewrite IH1. exact IH2.
Qed.

Lemma logs_of_key (r : string) (b : Z) (x : PayoutAdded) :
  (String.eqb (log_recipient x) r && (blockNumber x =? b)) = true
  <-> log_key x = (r, b).
Proof.
  unfold log_key. rewrite andb_true_iff, String.eqb_eq, Z.eqb_eq.
  split; [intros [-> ->]; reflexivity | intros [= -> ->]; split; reflexivity].
Qed.

Lemma distinct_keys_once (r : string) (b : Z) (l : list PayoutAdded) :
  NoDup (map log_key l) -> (length (logs_of r b l) <= 1)%nat.
Proof.
  induction l as [|x l IH]; cbn [map logs_of filter length]; intro H; [lia|].
  inversion H as [|? ? Hx Hl]; subst. fold (logs_of r b l).
  destruct (String.eqb (log_recipient x) r && (blockNumber x =? b)) eqn:E.
  - apply logs_of_key in E.
    destruct (logs_of r b l) as [|y rest] eqn:El; [cbn; lia|].
    exfalso. apply Hx.
    assert (Hy : In y (logs_of r b l)) by (rewrite El; left; reflexivity).
    unfold logs_of in Hy. apply filter_In in Hy. destruct Hy as [Hy Hk].
    apply logs_of_key in Hk. rewrite E, <- Hk. apply in_map, Hy.
  - apply IH, Hl.
Qed.

Lemma scan_sorted_tracks (logs : list PayoutAdded) (pd ubd : dict Z) :
  scan (sorted_by_block logs) [] [] = inr (pd, ubd) ->
  tracks (sorted_by_block logs) pd ubd.
Proof.
  intro H.
  pose proof (scan_accepted_distinct (sorted_by_block logs) [] [] [] _
                tracks_nil (sorted_by_block_sorted logs) (NoDup_nil _) H) as Hn.
  destruct (scan_accepts (sorted_by_block logs) [] [] [] tracks_nil Hn)
    as [pd' [ubd' [H' Ht]]].
  rewrite H in H'. injection H' as <- <-. exact Ht.
Qed.

End VerifyFacts.

(** [verify] raises "payout was set twice in block" for a recipient and a
    block only if the logs hold two entries of that recipient in that
    block, and it does raise it whenever the logs hold two entries of one
    recipient in one block, in whatever order the node returned them
    (lines 370, 381-389). *)
Theorem verify_rejects_two_entries_in_one_block (network : string)
    (payout_added_logs : list Verify.PayoutAdded) (balance : Z) :
  (forall r b,
     Verify.verify network payout_added_logs balance
     = inl (Command.PayoutSetTwice r b) ->
     (2 <= length (logs_of r b payout_added_logs))%nat)
  /\ ((exists r b, (2 <= length (logs_of r b payout_added_logs))%nat) ->
      exists r b,
        Verify.verify network payout_added_logs balance
        = inl (Command.PayoutSetTwice r b)).
Proof.
  unfold Verify.verify.
  destruct (Verify.scan (Verify.sorted_by_block payout_added_logs) [] [])
    as [e|[pd ubd]] eqn:Hs.
  - destruct (scan_rejects _ [] [] [] e tracks_nil Hs)
      as [x [y [rest [He [Hk [before [between Hl]]]]]]].
    cbn [app] in Hl. split.
    + intros r b [= Hrb]. rewrite He in Hrb. injection Hrb as <- <-.
      unfold logs_of.
      rewrite <- (filter_length_perm _ _ _
                    (sorted_by_block_perm payout_added_logs)).
      rewrite Hl. rewrite !filter_app. cbn [filter].
      rewrite filter_app. cbn [filter].
      assert (Hx : (String.eqb (Verify.log_recipient x) (Verify.log_recipient x)
                    && (Verify.blockNumber x =? Verify.blockNumber x)) = true)
        by (apply logs_of_key; reflexivity).
      assert (Hy : (String.eqb (Verify.log_recipient y) (Verify.log_recipient x)
                    && (Verify.blockNumber y =? Verify.blockNumber x)) = true)
        by (apply logs_of_key; exact Hk).
      rewrite Hx, Hy. rewrite !length_app. cbn [length]. rewrite !length_app.
      cbn [length]. lia.
    + intros _. rewrite He. eauto.
  - split.
    + intros r b H.
      destruct (negb _); [discriminate H|].
      destruct (_ =? _); [discriminate H|].
      destruct (_ <? _); discriminate H.
    + intros [r [b H]]. exfalso.
      pose proof (scan_accepted_distinct _ [] [] [] _ tracks_nil
                    (sorted_by_block_sorted payout_added_logs)
                    (NoDup_nil _) Hs) as Hn.
      cbn [app] in Hn.
      apply (Permutation_NoDup
               (Permutation_map log_key
                  (sorted_by_block_perm payout_added_logs))) in Hn.
      pose proof (distinct_keys_once r b _ Hn). lia.
Qed.

(** When the loop of [verify] over the logs raises nothing, the amount it
    keeps for a recipient is the amount of the recipient's entry in the
    highest block, whatever the order of the logs; a recipient with no
    entry has no amount (lines 370, 381-393). *)
Theorem verify_keeps_latest_entry
    (payout_added_logs : list Verify.PayoutAdded)
    (payment_dict user_block_dict : Verify.dict Z) :
  Verify.scan (Verify.sorted_by_block payout_added_logs) [] []
  = inr (payment_dict, user_block_dict) ->
  (forall x, In x payout_added_logs ->
     exists z,
       In z payout_added_logs
       /\ Verify.log_recipient z = Verify.log_recipient x
       /\ Verify.dict_get (Verify.log_recipient x) payment_dict
          = Some (Verify.log_amount z)
       /\ Verify.dict_get (Verify.log_recipient x) user_block_dict
          = Some (Verify.blockNumber z)
       /\ forall y, In y payout_added_logs ->
            Verify.log_recipient y = Verify.log_recipient x ->
            Verify.blockNumber y <= Verify.blockNumber z)
  /\ (forall r,
        (forall x, In x payout_added_logs -> Verify.log_recipient x <> r) ->
        Verify.dict_get r payment_dict = None).
Proof.
  intro Hs. pose proof (scan_sorted_tracks _ _ _ Hs) as Ht.
  pose proof (sorted_by_block_perm payout_added_logs) as Hp.
  split.
  - intros x Hx. destruct (Ht (Verify.log_recipient x)) as [Hu Hpd].
    destruct (last_log (Verify.log_recipient x)
                (Verify.sorted_by_block payout_added_logs)) as [z|] eqn:El.
    + destruct (last_log_In _ _ _ El) as [Hz Hr].
      exists z. split; [apply (Permutation_in _ Hp), Hz|].
      split; [exact Hr|]. split; [exact Hpd|]. split; [exact Hu|].
      intros y Hy Hry.
      apply (last_log_max _ _ _ (sorted_by_block_sorted _) El);
        [|exact Hry].
      apply (Permutation_in _ (Permutation_sym Hp)), Hy.
    + exfalso. apply (last_log_None _ _ El x); [|reflexivity].
      apply (Permutation_in _ (Permutation_sym Hp)), Hx.
  - intros r Hr. destruct (Ht r) as [_ Hpd]. rewrite Hpd.
    destruct (last_log r (Verify.sorted_by_block payout_added_logs))
      as [z|] eqn:El; [|reflexivity].
    destruct (last_log_In _ _ _ El) as [Hz Hrz].
    exfalso. apply (Hr z); [|exact Hrz].
    apply (Permutation_in _ Hp), Hz.
Qed.

Lemma verify_keeps_latest_entry_witness :
  Verify.scan (Verify.sorted_by_block Logs.round) [] []
  = inr ([(Logs.bob, Logs.dai 2000); (Logs.alice, Logs.dai 3000)],
         [(Logs.bob, 7731650); (Logs.alice, 7731700)])
  /\ forall r,
       (forall x, In x Logs.round -> Verify.log_recipient x <> r) ->
       Verify.dict_get r
         [(Logs.bob, Logs.dai 2000); (Logs.alice, Logs.dai 3000)] = None.
Proof.
  assert (H : Verify.scan (Verify.sorted_by_block Logs.round) [] []
              = inr ([(Logs.bob, Logs.dai 2000); (Logs.alice, Logs.dai 3000)],
                     [(Logs.bob, 7731650); (Logs.alice, 7731700)]))
    by (vm_compute; reflexivity).
  split; [exact H|].
  exact (proj2 (verify_keeps_latest_entry _ _ _ H)).
Defined.

(** With amounts that are not negative, [verify] raises "Total payout
    amount in the contract does not equal the expected value" exactly when
    the exact sum of the amounts kept differs from the expected amount of
    the network in wei: rounding of the Decimal sum to 28 digits never
    lets a wrong total pass, nor a right one fail (lines 396-408). *)
Theorem verify_total_check_is_exact (network : string)
    (payout_added_logs : list Verify.PayoutAdded) (balance : Z)
    (payment_dict user_block_dict : Verify.dict Z) :
  Forall (fun log => 0 <= Verify.log_amount log) payout_added_logs ->
  Verify.scan (Verify.sorted_by_block payout_added_logs) [] []
  = inr (payment_dict, user_block_dict) ->
  Verify.verify network payout_added_logs balance = inl Command.TotalMismatch
  <-> exact_sum (map snd payment_dict)
      <> Command.expected_total_dai_amount network * 10 ^ 18.
Proof.
  intros Hl Hs.
  assert (Hv : Forall (fun v => 0 <= v) (map snd payment_dict)).
  { apply (scan_values (fun v => 0 <= v) _ [] [] _ _) with (3 := Hs);
      [|constructor].
    eapply Permutation_Forall;
      [apply Permutation_sym, sorted_by_block_perm | exact Hl]. }
  pose proof (total_is_exact payment_dict _ Hv
                (proj2 (expected_total_below_precision network))) as Hx.
  unfold Verify.verify. rewrite Hs.
  destruct (Command.expected_total_dai_amount network * 10 ^ 18
            =? Verify.total_dai_required_wei payment_dict) eqn:E; cbn [negb].
  - apply Z.eqb_eq in E. symmetry in E. apply Hx in E.
    split; [|intro H; contradiction].
    destruct (_ =? _); [discriminate|]. destruct (_ <? _); discriminate.
  - apply Z.eqb_neq in E. split; [|reflexivity].
    intros _ H. apply E. symmetry. apply Hx, H.
Qed.

Lemma verify_total_check_is_exact_witness :
  Verify.verify "rinkeby" (removelast Logs.round) (Logs.dai 5000)
  = inl Command.TotalMismatch
  <-> exact_sum (map snd [(Logs.bob, Logs.dai 2000); (Logs.alice, Logs.dai 3000)])
      <> Command.expected_total_dai_amount "rinkeby" * 10 ^ 18.
Proof.
  apply (verify_total_check_is_exact "rinkeby" (removelast Logs.round)
           (Logs.dai 5000) _ [(Logs.bob, 7731650); (Logs.alice, 7731700)]).
  - repeat constructor; vm_compute; discriminate.
  - vm_compute. reflexivity.
Defined.

(** When [verify] raises nothing, its report on the contract's balance is
    the comparison of the balance with the expected amount of the network
    in wei: "exactly equal", "insufficient" or "excess"
    (lines 402-433). *)
Theorem verify_balance_report (network : string)
    (payout_added_logs : list Verify.PayoutAdded) (balance : Z)
    (report : Verify.Balance) :
  0 <= balance ->
  Verify.verify network payout_added_logs balance = inr report ->
  report = match balance ?= Command.expected_total_dai_amount network * 10 ^ 18 with
           | Eq => Verify.ExactlyEqual
           | Lt => Verify.Insufficient
           | Gt => Verify.Excess
           end.
Proof.
  intros Hb. unfold Verify.verify.
  destruct (Verify.scan (Verify.sorted_by_block payout_added_logs) [] [])
    as [e|[pd ubd]]; [discriminate|].
  pose proof (expected_total_below_precision network) as He.
  destruct (Command.expected_total_dai_amount network * 10 ^ 18
            =? Verify.total_dai_required_wei pd) eqn:E; cbn [negb];
    [|discriminate].
  apply Z.eqb_eq in E. rewrite <- E.
  set (expected := Command.expected_total_dai_amount network * 10 ^ 18) in *.
  assert (Hr : Verify.decimal_round balance = balance
               \/ (10 ^ 28 <= Verify.decimal_round balance /\ 10 ^ 28 <= balance)).
  { destruct (Z_lt_ge_dec balance (10 ^ 28)) as [Hlt|Hge].
    - left. apply decimal_round_small. lia.
    - right. split; [apply decimal_round_large|]; lia. }
  destruct (Verify.decimal_round balance =? expected) eqn:E1.
  - apply Z.eqb_eq in E1. intros [= <-].
    destruct Hr as [Hr|Hr]; [|lia].
    rewrite <- Hr, E1, Z.compare_refl. reflexivity.
  - apply Z.eqb_neq in E1.
    destruct (Verify.decimal_round balance <? expected) eqn:E2; intros [= <-].
    + apply Z.ltb_lt in E2.
      destruct Hr as [Hr|Hr]; [|lia].
      rewrite Hr in E2. apply Z.compare_lt_iff in E2. rewrite E2. reflexivity.
    + apply Z.ltb_ge in E2.
      assert (Hgt : balance > expected) by (destruct Hr as [Hr|Hr]; lia).
      rewrite (proj2 (Z.compare_gt_iff balance expected)) by lia. reflexivity.
Qed.

Lemma verify_balance_report_witness :
  0 <= Logs.dai 4000
  /\ Verify.verify "rinkeby" Logs.round (Logs.dai 4000) = inr Verify.Insufficient
  /\ Verify.Insufficient
     = match Logs.dai 4000 ?= Command.expected_total_dai_amount "rinkeby" * 10 ^ 18 with
       | Eq => Verify.ExactlyEqual
       | Lt => Verify.Insufficient
       | Gt => Verify.Excess
       end.
Proof.
  assert (H : Verify.verify "rinkeby" Logs.round (Logs.dai 4000)
              = inr Verify.Insufficient) by (vm_compute; reflexivity).
  assert (H0 : 0 <= Logs.dai 4000) by (vm_compute; discriminate).
  split; [exact H0|]. split; [exact H|].
  exact (verify_balance_report _ _ _ _ H0 H).
Defined.

(** ** The [finalize] branch *)

Section FinalizeFacts.

Import Finalize.

Variable KYC_THRESHOLD : Q.
Variable clr_round : Z.

Let visit := Finalize.visit KYC_THRESHOLD clr_round.

Lemma visit_settled (st : State) (g : Grant) :
  settled st g = true -> visit st g = st.
Proof.
  unfold settled, visit, Finalize.visit. cbv zeta.
  destruct (Qeq_bool (clr_match_estimate_this_round g) 0); [reflexivity|].
  cbn [orb]. intros ->. reflexivity.
Qed.

Lemma visit_creates (st : State) (g : Grant) :
  settled st g = false ->
  exists m,
    scheduled_matches (visit st g) = scheduled_matches st ++ [m]
    /\ grant m = grant_pk g
    /\ round_number m = clr_round
    /\ amount m = clr_match_estimate_this_round g.
Proof.
  unfold settled, visit, Finalize.visit. cbv zeta.
  destruct (Qeq_bool (clr_match_estimate_this_round g) 0); [discriminate|].
  cbn [orb]. intros ->. eexists. cbn [scheduled_matches].
  split; [reflexivity|]. repeat split.
Qed.

Lemma settled_grows (st : State) (g : Grant) (more : list Match) (mails : list Match) :
  settled st g = true ->
  settled {| scheduled_matches := scheduled_matches st ++ more;
             kyc_mails := mails |} g = true.
Proof.
  unfold settled. cbn [scheduled_matches].
  destruct (Qeq_bool (clr_match_estimate_this_round g) 0); [reflexivity|].
  cbn [orb]. rewrite existsb_app. intros ->. reflexivity.
Qed.

Lemma not_settled_fresh (st : State) (g : Grant) :
  settled st g = false ->
  ~ In (grant_pk g) (map grant (scheduled_matches st)).
Proof.
  unfold settled. intros H Hin.
  apply orb_false_iff in H. destruct H as [_ H].
  apply in_map_iff in Hin. destruct Hin as [m [Hm Hin]].
  assert (Ht : existsb (fun m => grant m =? grant_pk g) (scheduled_matches st) = true).
  { apply existsb_exists. exists m. split; [exact Hin | apply Z.eqb_eq, Hm]. }
  congruence.
Qed.

Lemma loop_creates (grants : list Grant) (st : State) :
  exists created,
    scheduled_matches (fold_left visit grants st) = scheduled_matches st ++ created
    /\ NoDup (map grant created)
    /\ forall m, In m created ->
         ~ In (grant m) (map grant (scheduled_matches st))
         /\ round_number m = clr_round
         /\ exists g, In g grants
              /\ grant m = grant_pk g
              /\ amount m = clr_match_estimate_this_round g
              /\ Qeq_bool (amount m) 0 = false.
Proof.
  revert st. induction grants as [|g grants IH]; intro st; cbn [fold_left].
  - exists []. rewrite app_nil_r. split; [reflexivity|].
    split; [constructor | intros m []].
  - destruct (settled st g) eqn:E.
    + rewrite (visit_settled st g E).
      destruct (IH st) as [created [Ht [Hn Hc]]].
      exists created. split; [exact Ht|]. split; [exact Hn|].
      intros m Hm. destruct (Hc m Hm) as [H1 [H2 [g' [Hg' H3]]]].
      split; [exact H1|]. split; [exact H2|].
      exists g'. split; [right; exact Hg' | exact H3].
    + destruct (visit_creates st g E) as [m0 [Hv [Hg0 [Hr0 Ha0]]]].
      destruct (IH (visit st g)) as [created [Ht [Hn Hc]]].
      exists (m0 :: created). rewrite Ht, Hv, <- app_assoc.
      split; [reflexivity|].
      assert (Hfresh : ~ In (grant m0) (map grant created)).
      { intro Hin. apply in_map_iff in Hin. destruct Hin as [m [Hgm Hm]].
        destruct (Hc m Hm) as [H1 _]. apply H1.
        rewrite Hv, map_app, Hgm. apply in_or_app. right. left. reflexivity. }
      split; [cbn [map]; constructor; assumption|].
      intros m [<-|Hm].
      * split; [rewrite Hg0; apply not_settled_fresh, E|].
        split; [exact Hr0|].
        exists g. split; [left; reflexivity|].
        split; [exact Hg0|]. split; [exact Ha0|].
        rewrite Ha0. unfold settled in E. apply orb_false_iff in E. apply E.
      * destruct (Hc m Hm) as [H1 [H2 [g' [Hg' H3]]]].
        split.
        { intro Hin. apply H1. rewrite Hv, map_app.
          apply in_or_app. left. exact Hin. }
        split; [exact H2|].
        exists g'. split; [right; exact Hg' | exact H3].
Qed.

Lemma visit_grows (st : State) (g : Grant) :
  exists more mails,
    visit st g = {| scheduled_matches := scheduled_matches st ++ more;
                    kyc_mails := mails |}.
Proof.
  destruct (settled st g) eqn:E.
  - rewrite (visit_settled st g E). exists [], (kyc_mails st).
    rewrite app_nil_r. destruct st; reflexivity.
  - destruct (visit_creates st g E) as [m [Hv _]].
    exists [m], (kyc_mails (visit st g)). rewrite <- Hv.
    destruct (visit st g); reflexivity.
Qed.

Lemma visit_settles (st : State) (g : Grant) : settled (visit st g) g = true.
Proof.
  destruct (settled st g) eqn:E.
  - rewrite (visit_settled st g E). exact E.
  - destruct (visit_creates st g E) as [m [Hv [Hg _]]].
    unfold settled. rewrite Hv, existsb_app. cbn [existsb].
    rewrite Hg, Z.eqb_refl. cbn [orb]. rewrite !orb_true_r. reflexivity.
Qed.

Lemma loop_keeps_settled (grants : list Grant) (st : State) (g : Grant) :
  settled st g = true -> settled (fold_left visit grants st) g = true.
Proof.
  revert st. induction grants as [|g' grants IH]; intros st H; cbn [fold_left];
    [exact H|].
  apply IH. destruct (visit_grows st g') as [more [mails ->]].
  apply settled_grows, H.
Qed.

Lemma loop_settles (grants : list Grant) (st : State) (g : Grant) :
  In g grants -> settled (fold_left visit grants st) g = true.
Proof.
  revert st. induction grants as [|g' grants IH]; intros st []; cbn [fold_left].
  - subst g'. apply loop_keeps_settled, visit_settles.
  - apply IH. assumption.
Qed.

Lemma loop_all_settled (grants : list Grant) (st : State) :
  (forall g, In g grants -> settled st g = true) ->
  fold_left visit grants st = st.
Proof.
  induction grants as [|g grants IH]; intro H; cbn [fold_left]; [reflexivity|].
  rewrite (visit_settled st g) by (apply H; left; reflexivity).
  apply IH. intros g' Hg'. apply H. right. exact Hg'.
Qed.

End FinalizeFacts.

(** [finalize] adds matches behind the matches of the round and changes
    none; it creates at most one match per grant and none for a grant
    that has a match in the round, also when [grants] holds a grant twice;
    each match it creates has the round's number and the estimate of a
    grant of [grants], which is not zero (lines 125-150). *)
Theorem finalize_creates_one_match_per_grant (user_input : string)
    (KYC_THRESHOLD : Q) (clr_round : Z) (grants : list Finalize.Grant)
    (scheduled : list Finalize.Match) :
  exists created,
    Finalize.scheduled_matches
      (Finalize.finalize user_input KYC_THRESHOLD clr_round grants scheduled)
    = scheduled ++ created
    /\ NoDup (map Finalize.grant created)
    /\ forall m, In m created ->
         ~ In (Finalize.grant m) (map Finalize.grant scheduled)
         /\ Finalize.round_number m = clr_round
         /\ exists g, In g grants
              /\ Finalize.grant m = Finalize.grant_pk g
              /\ Finalize.amount m = Finalize.clr_match_estimate_this_round g
              /\ Qeq_bool (Finalize.amount m) 0 = false.
Proof.
  unfold Finalize.finalize. cbv zeta.
  destruct (negb (String.eqb user_input "y")).
  - exists []. cbn [Finalize.scheduled_matches]. rewrite app_nil_r.
    split; [reflexivity|]. split; [constructor | intros m []].
  - apply (loop_creates KYC_THRESHOLD clr_round grants
             {| Finalize.scheduled_matches := scheduled;
                Finalize.kyc_mails := [] |}).
Qed.

(** A second run of [finalize] for the same round over the same grants
    creates no match and sends no KYC mail, whatever the threshold is by
    then (lines 134-141). *)
Theorem finalize_twice_creates_nothing (user_input : string)
    (KYC_THRESHOLD KYC_THRESHOLD' : Q) (clr_round : Z)
    (grants : list Finalize.Grant) (scheduled : list Finalize.Match) :
  let first := Finalize.finalize "y" KYC_THRESHOLD clr_round grants scheduled in
  Finalize.finalize user_input KYC_THRESHOLD' clr_round grants
    (Finalize.scheduled_matches first)
  = {| Finalize.scheduled_matches := Finalize.scheduled_matches first;
       Finalize.kyc_mails := [] |}.
Proof.
  cbv zeta. unfold Finalize.finalize at 1. cbv zeta.
  destruct (negb (String.eqb user_input "y")); [reflexivity|].
  apply loop_all_settled. intros g Hg.
  unfold Finalize.finalize. cbv zeta. cbn [negb String.eqb Ascii.eqb Bool.eqb].
  pose proof (loop_settles KYC_THRESHOLD clr_round grants
                {| Finalize.scheduled_matches := scheduled;
                   Finalize.kyc_mails := [] |} g Hg) as H.
  unfold settled in *. cbn [Finalize.scheduled_matches]. exact H.
Qed.
